(** * VikRenamer: a shallow embedding of [FileRenamer] (cli_tool.py) and of
    the batch worker of [FileRenamerGUI] (renamer_gui.py).

    Methods are computations over an explicit program state (file system,
    clock, logs) that may raise; the Python runtime and the operating
    system enter through the class [Platform].

    Python strings are modelled as [string], read as sequences of ASCII
    characters: the case mappings and the regular-expression class [\s]
    below are those of Python on code points below 128, and every other
    byte is a caseless character that is not a separator. *)

From Stdlib Require Import ZArith Lia Ascii String.
From stdpp Require Import base gmap strings list pretty.

(** ** Python [str] methods used by the renamer *)

Module Str.

Definition code (c : ascii) : nat := nat_of_ascii c.

Definition isupper (c : ascii) : bool :=
  (65 <=? code c)%nat && (code c <=? 90)%nat.

Definition islower (c : ascii) : bool :=
  (97 <=? code c)%nat && (code c <=? 122)%nat.

Definition lower_char (c : ascii) : ascii :=
  if isupper c then ascii_of_nat (code c + 32) else c.

Definition upper_char (c : ascii) : ascii :=
  if islower c then ascii_of_nat (code c - 32) else c.

(** [s.lower()], on ASCII text *)
Fixpoint lower (s : string) : string :=
  match s with
  | EmptyString => EmptyString
  | String c r => String (lower_char c) (lower r)
  end.

(** [s.upper()], on ASCII text *)
Fixpoint upper (s : string) : string :=
  match s with
  | EmptyString => EmptyString
  | String c r => String (upper_char c) (upper r)
  end.

(** [s.capitalize()], on ASCII text: the first character upper-cased,
    every other character lower-cased. *)
Definition capitalize (s : string) : string :=
  match s with
  | EmptyString => EmptyString
  | String c r => String (upper_char c) (lower r)
  end.

(** [''.join(l)] *)
Fixpoint join (l : list string) : string :=
  match l with
  | [] => EmptyString
  | s :: r => s +:+ join r
  end.

(** [s.zfill(w)] for a string without a sign. *)
Definition zfill (w : nat) (s : string) : string :=
  String.concat "" (replicate (w - String.length s) "0") +:+ s.

(** The class [\s] of the [re] module on ASCII text: tab, line feed,
    vertical tab, form feed, carriage return, the four separators
    0x1c..0x1f and the space. *)
Definition isspace (c : ascii) : bool :=
  ((9 <=? code c)%nat && (code c <=? 13)%nat)
  || ((28 <=? code c)%nat && (code c <=? 32)%nat).

(** The character class [[_\-\s]] of the camel-case split. *)
Definition is_sep (c : ascii) : bool :=
  bool_decide (c = "_"%char) || bool_decide (c = "-"%char) || isspace c.

Definition starts_with_sep (s : string) : bool :=
  match s with
  | EmptyString => false
  | String c _ => is_sep c
  end.

(** [re.split(r'[_\-\s]+', s)]: the pieces of [s] between maximal runs
    of separator characters; a run at the start or at the end of [s]
    leaves an empty piece there, and the result is never empty. *)
Fixpoint re_split (s : string) : list string :=
  match s with
  | EmptyString => [EmptyString]
  | String c r =>
      if is_sep c then
        if starts_with_sep r then re_split r else EmptyString :: re_split r
      else
        match re_split r with
        | w :: ws => String c w :: ws
        | [] => [String c EmptyString]
        end
  end.

(** No separator character occurs in [s]. *)
Fixpoint no_sep (s : string) : bool :=
  match s with
  | EmptyString => true
  | String c r => negb (is_sep c) && no_sep r
  end.

End Str.

(** ** [rename_case_transform], on one stem *)

(** The branch [transform == "camel"]:
    [words[0].lower() + ''.join(word.capitalize() for word in words[1:])]. *)
Definition camel (name_without_ext : string) : string :=
  match Str.re_split name_without_ext with
  | [] => EmptyString
  | w0 :: ws => Str.lower w0 +:+ Str.join (map Str.capitalize ws)
  end.

Module StrTitle.
Import Str.

Definition iscased (c : ascii) : bool := isupper c || islower c.

(** [s.title()], on ASCII text: a cased character is upper-cased when
    the character before it is not cased, and lower-cased otherwise. *)
Fixpoint title_from (previous_is_cased : bool) (s : string) : string :=
  match s with
  | EmptyString => EmptyString
  | String c r =>
      String (if previous_is_cased then lower_char c else upper_char c)
             (title_from (iscased c) r)
  end.

Definition title (s : string) : string := title_from false s.

End StrTitle.

(** ** Exceptions, dates and operation records *)

Inductive ExcType :=
  | FileNotFoundError | FileExistsError | PermissionError | OSError
  | KeyError | IndexError | ValueError | AttributeError
  | UnboundLocalError | NotImplementedError.

(** An exception object; [exc_msg] is what [str(e)] returns. *)
Record Exception := mkExc { exc_type : ExcType; exc_msg : string }.

(** A reading of [datetime.now()]. *)
Record datetime := mkDatetime {
  year : nat; month : nat; day : nat;
  hour : nat; minute : nat; second : nat; microsecond : nat
}.

Definition pad (w n : nat) : string := Str.zfill w (pretty n).

(** [strftime('%Y-%m-%d')] *)
Definition strftime_Ymd (d : datetime) : string :=
  pad 4 (year d) +:+ "-" +:+ pad 2 (month d) +:+ "-" +:+ pad 2 (day d).

(** [strftime('%H-%M-%S')] *)
Definition strftime_HMS (d : datetime) : string :=
  pad 2 (hour d) +:+ "-" +:+ pad 2 (minute d) +:+ "-" +:+ pad 2 (second d).

(** [strftime('%H:%M:%S')] *)
Definition strftime_clock (d : datetime) : string :=
  pad 2 (hour d) +:+ ":" +:+ pad 2 (minute d) +:+ ":" +:+ pad 2 (second d).

(** [strftime('%Y%m%d_%H%M%S')] *)
Definition strftime_stamp (d : datetime) : string :=
  pad 4 (year d) +:+ pad 2 (month d) +:+ pad 2 (day d) +:+ "_" +:+
  pad 2 (hour d) +:+ pad 2 (minute d) +:+ pad 2 (second d).

(** [isoformat()] *)
Definition isoformat (d : datetime) : string :=
  pad 4 (year d) +:+ "-" +:+ pad 2 (month d) +:+ "-" +:+ pad 2 (day d) +:+ "T" +:+
  pad 2 (hour d) +:+ ":" +:+ pad 2 (minute d) +:+ ":" +:+ pad 2 (second d) +:+
  (if (microsecond d =? 0)%nat then "" else "." +:+ pad 6 (microsecond d)).

(** One entry of [self.operations_log]: the dictionary with the keys
    ['original'], ['new'], ['timestamp'], ['success'] and, on the failure
    path only, ['error']. *)
Record OperationRecord := mkOperation {
  op_original : string;
  op_new : string;
  op_timestamp : string;
  op_success : bool;
  op_error : option string
}.

Inductive Level := INFO | WARNING | ERROR.

(** ** The platform: [pathlib], the file system and the library calls

    Everything the renamer asks of the Python runtime and of the operating
    system.  The properties below hold for every platform; [posix], further
    down, is one on which the model runs. *)

Class Platform := {
  Path : Type;
  Path_eq_dec :: EqDecision Path;
  FS : Type;
  (** [Path(s)], [str(p)], [p.parent], [p / s], [p.name], [p.stem], [p.suffix] *)
  path_of : string -> Path;
  path_str : Path -> string;
  path_parent : Path -> Path;
  path_join : Path -> string -> Path;
  path_name : Path -> string;
  path_stem : Path -> string;
  path_suffix : Path -> string;
  (** [p.exists()], [p.stat().st_size]; [exists] is a plain test, as in
      Python 3.14 (the version whose [Path] has the [copy] the worker
      calls), where it returns [False] on every [OSError] *)
  fs_exists : FS -> Path -> bool;
  fs_stat_size : FS -> Path -> Exception + N;
  (** [src.rename(dst)], [src.copy(dst)], [p.mkdir(exist_ok=True)],
      and writing a whole text file opened with mode ['w'] *)
  fs_rename : FS -> Path -> Path -> Exception + FS;
  fs_copy : FS -> Path -> Path -> Exception + FS;
  fs_mkdir : FS -> Path -> Exception + FS;
  fs_write : FS -> Path -> string -> Exception + FS;
  (** [pattern.format] applied to keyword arguments *)
  str_format : string -> list (string * string) -> Exception + string;
  (** [_format_size]: the size rendered with one decimal through float
      arithmetic, which is not modelled *)
  format_size : N -> string;
  (** [json.dump(records, f, indent=2, ensure_ascii=False)] and the
      [csv.DictWriter] header and rows, as the text written *)
  json_dump : list OperationRecord -> string;
  csv_dump : list OperationRecord -> string
}.

(** A request that changes the file system, with the file system it was
    issued on.  [SysOpen] opens a file for appending, as
    [logging.FileHandler] does: the file is created when it is missing. *)
Inductive Syscall `{Platform} :=
  | SysRename (before : FS) (src dst : Path)
  | SysCopy (before : FS) (src dst : Path)
  | SysMkdir (before : FS) (p : Path)
  | SysWrite (before : FS) (p : Path) (data : string)
  | SysOpen (before : FS) (p : Path).

(** ** Program state

    [fs] is the file system and [calls] the history of the requests issued
    to it; [clock n] is what the [n]-th call of [datetime.now()] returns
    and [reads] counts the calls made so far; [logging] collects the
    records handed to the [logging] module; [operations_log] is the list
    [self.operations_log] of the renamer and [log_text] the log widget of
    the GUI. *)
Record State `{Platform} := mkState {
  fs : FS;
  calls : list Syscall;
  clock : nat -> datetime;
  reads : nat;
  logging : list (Level * string);
  operations_log : list OperationRecord;
  log_text : list string
}.

Arguments mkState {_} _ _ _ _ _ _ _.

Section Model.
Context `{Platform}.

Definition set_fs (f : FS) (s : State) : State :=
  mkState f (calls s) (clock s) (reads s) (logging s) (operations_log s) (log_text s).
Definition set_calls (c : list Syscall) (s : State) : State :=
  mkState (fs s) c (clock s) (reads s) (logging s) (operations_log s) (log_text s).
Definition set_reads (n : nat) (s : State) : State :=
  mkState (fs s) (calls s) (clock s) n (logging s) (operations_log s) (log_text s).
Definition set_logging (l : list (Level * string)) (s : State) : State :=
  mkState (fs s) (calls s) (clock s) (reads s) l (operations_log s) (log_text s).
Definition set_operations_log (l : list OperationRecord) (s : State) : State :=
  mkState (fs s) (calls s) (clock s) (reads s) (logging s) l (log_text s).
Definition set_log_text (l : list string) (s : State) : State :=
  mkState (fs s) (calls s) (clock s) (reads s) (logging s) (operations_log s) l.

(** *** Computations: state that survives a raised exception *)

Definition M (A : Type) : Type := State -> State * (Exception + A).

Definition ret {A} (x : A) : M A := fun s => (s, inr x).

Definition bind {A B} (m : M A) (f : A -> M B) : M B :=
  fun s =>
    match m s with
    | (s', inr a) => f a s'
    | (s', inl e) => (s', inl e)
    end.

Definition raise {A} (e : Exception) : M A := fun s => (s, inl e).

(** [try: body except Exception as e: handler e] *)
Definition try_except {A} (body : M A) (handler : Exception -> M A) : M A :=
  fun s =>
    match body s with
    | (s', inl e) => handler e s'
    | r => r
    end.

(** *** Primitive effects *)

Definition datetime_now : M datetime :=
  fun s => (set_reads (S (reads s)) s, inr (clock s (reads s))).

Definition logging_log (lvl : Level) (msg : string) : M unit :=
  fun s => (set_logging (logging s ++ [(lvl, msg)]) s, inr tt).

Definition get_operations_log : M (list OperationRecord) :=
  fun s => (s, inr (operations_log s)).

Definition operations_log_append (r : OperationRecord) : M unit :=
  fun s => (set_operations_log (operations_log s ++ [r]) s, inr tt).

Definition path_exists (p : Path) : M bool :=
  fun s => (s, inr (fs_exists (fs s) p)).

Definition path_stat_size (p : Path) : M N :=
  fun s => (s, fs_stat_size (fs s) p).

(** Issue a request: it enters the history, and the file system changes
    only when the request succeeds. *)
Definition request (c : Syscall) (r : Exception + FS) : M unit :=
  fun s =>
    let s1 := set_calls (calls s ++ [c]) s in
    match r with
    | inl e => (s1, inl e)
    | inr f => (set_fs f s1, inr tt)
    end.

Definition path_rename (src dst : Path) : M unit :=
  fun s => request (SysRename (fs s) src dst) (fs_rename (fs s) src dst) s.

Definition path_copy (src dst : Path) : M unit :=
  fun s => request (SysCopy (fs s) src dst) (fs_copy (fs s) src dst) s.

Definition path_mkdir (p : Path) : M unit :=
  fun s => request (SysMkdir (fs s) p) (fs_mkdir (fs s) p) s.

Definition write_text (p : Path) (data : string) : M unit :=
  fun s => request (SysWrite (fs s) p data) (fs_write (fs s) p data) s.

Definition format (pattern : string) (kwargs : list (string * string)) : M string :=
  fun s => (s, str_format pattern kwargs).

End Model.

Notation "x <- c ;; k" := (bind c (fun x => k))
  (at level 100, c at next level, k at level 200, right associativity).
Notation "c ;; k" := (bind c (fun _ => k))
  (at level 100, k at level 200, right associativity).

(** ** [class FileRenamer] (cli_tool.py) *)

(** The attributes set by [__init__] that no method changes; the list
    [self.operations_log] lives in the state. *)
Record FileRenamer `{Platform} := mkFileRenamer {
  directory : Path;
  dry_run : bool
}.

Section FileRenamerMethods.
Context `{Platform}.

(** [FileRenamer.__init__]: the new renamer starts with an empty
    operations log, and the state holds the log of the renamer in use.
    Creating the console has no effect on the state and is left out. *)
Definition FileRenamer_init (directory : string) (dry_run : bool) : M FileRenamer :=
  let self_directory := path_of directory in
  (fun s => (set_operations_log [] s, inr tt)) ;;
  found <- path_exists self_directory ;;
  if negb found then
    raise (mkExc FileNotFoundError ("Directory non trovata: " +:+ directory))
  else
    logging_log INFO ("FileRenamer inizializzato per directory: " +:+ directory) ;;
    ret (mkFileRenamer _ self_directory dry_run).

(** [rename_with_pattern]: the loop [for i, file_path in enumerate(files, 1)],
    with the names collected so far. *)
Fixpoint rename_with_pattern_from (pattern : string) (i : nat)
    (files : list Path) (new_names : list string) : M (list string) :=
  match files with
  | [] => ret new_names
  | file_path :: rest =>
      let name_without_ext := path_stem file_path in
      let extension := path_suffix file_path in
      st_size <- path_stat_size file_path ;;
      let file_size := format_size st_size in
      now1 <- datetime_now ;;
      let current_date := strftime_Ymd now1 in
      now2 <- datetime_now ;;
      let current_time := strftime_HMS now2 in
      new_name <- format pattern
        [("name", name_without_ext); ("ext", extension);
         ("counter", Str.zfill 3 (pretty i));
         ("date", current_date); ("time", current_time);
         ("size", file_size)] ;;
      rename_with_pattern_from pattern (S i) rest (new_names ++ [new_name])
  end.

Definition rename_with_pattern (files : list Path) (pattern : string) : M (list string) :=
  rename_with_pattern_from pattern 1 files [].

(** [rename_case_transform]: the new stem of one file. *)
Definition case_transform (transform name_without_ext : string) : string :=
  if bool_decide (transform = "lower") then Str.lower name_without_ext
  else if bool_decide (transform = "upper") then Str.upper name_without_ext
  else if bool_decide (transform = "title") then StrTitle.title name_without_ext
  else if bool_decide (transform = "camel") then camel name_without_ext
  else name_without_ext.

Definition rename_case_transform (files : list Path) (transform : string) : list string :=
  map (fun file_path =>
         let name_without_ext := path_stem file_path in
         let extension := path_suffix file_path in
         case_transform transform name_without_ext +:+ extension)
      files.

(** [execute_rename]: the body of the loop for one pair.  The result
    tells whether [success_count] was incremented.  The progress bar of
    [rich] only draws on the console and is left out. *)
Definition execute_rename_step (self : FileRenamer)
    (original_file : Path) (new_name : string) : M bool :=
  try_except
    (let new_path := path_join (path_parent original_file) new_name in
     found <- path_exists new_path ;;
     if found && negb (bool_decide (new_path = original_file)) then
       logging_log WARNING ("File già esistente: " +:+ new_name) ;;
       ret false
     else
       (if negb (dry_run self) then
          path_rename original_file new_path ;;
          logging_log INFO
            ("Rinominato: " +:+ path_name original_file +:+ " → " +:+ new_name)
        else
          logging_log INFO
            ("[DRY RUN] Rinomina: " +:+ path_name original_file +:+ " → " +:+ new_name)) ;;
       now <- datetime_now ;;
       operations_log_append
         (mkOperation (path_str original_file) (path_str new_path)
                      (isoformat now) true None) ;;
       ret true)
    (fun e =>
       logging_log ERROR
         ("Errore rinominando " +:+ path_name original_file +:+ ": " +:+ exc_msg e) ;;
       now <- datetime_now ;;
       operations_log_append
         (mkOperation (path_str original_file) new_name
                      (isoformat now) false (Some (exc_msg e))) ;;
       ret false).

(** The loop [for original_file, new_name in zip(files, new_names)]. *)
Fixpoint execute_rename_loop (self : FileRenamer)
    (pairs : list (Path * string)) (success_count : nat) : M nat :=
  match pairs with
  | [] => ret success_count
  | (original_file, new_name) :: rest =>
      counted <- execute_rename_step self original_file new_name ;;
      execute_rename_loop self rest
        (if counted then S success_count else success_count)
  end.

Definition execute_rename (self : FileRenamer)
    (files : list Path) (new_names : list string) : M bool :=
  success_count <- execute_rename_loop self (zip files new_names) 0 ;;
  ret (success_count =? length files)%nat.

(** [save_operations_log].  The local variable [log_file] is bound only
    in the two format branches; reading it unbound raises
    [UnboundLocalError]. *)
Definition save_operations_log (format_type : string) : M unit :=
  records <- get_operations_log ;;
  match records return M unit with
  | [] => ret tt
  | _ :: _ =>
      let log_dir := path_of "logs" in
      path_mkdir log_dir ;;
      now <- datetime_now ;;
      let timestamp := strftime_stamp now in
      log_file <-
        (if bool_decide (format_type = "json") then
           let log_file := path_join log_dir ("operations_log_" +:+ timestamp +:+ ".json") in
           write_text log_file (json_dump records) ;;
           ret (Some log_file)
         else if bool_decide (format_type = "csv") then
           let log_file := path_join log_dir ("operations_log_" +:+ timestamp +:+ ".csv") in
           write_text log_file (csv_dump records) ;;
           ret (Some log_file)
         else ret None) ;;
      match log_file return M unit with
      | Some log_file =>
          logging_log INFO ("Log operazioni salvato in: " +:+ path_str log_file)
      | None =>
          raise (mkExc UnboundLocalError
                   "cannot access local variable 'log_file' where it is not associated with a value")
      end
  end.

End FileRenamerMethods.

(** ** [class FileRenamerGUI] (renamer_gui.py): the worker of a batch *)

(** The attributes the worker reads.  Updates of the progress bar, of the
    statistics labels and of the status bar, and the message boxes, touch
    neither the file system nor a log and are left out. *)
Record FileRenamerGUI `{Platform} := mkGUI {
  renamer : FileRenamer;
  files_to_process : list Path;
  new_names : list string;
  backup_var : bool;
  dry_run_var : bool;
  log_format_var : string
}.

Section FileRenamerGUIMethods.
Context `{Platform}.

Definition newline : string := String (ascii_of_nat 10) EmptyString.

(** [log_message(message, level)]: one line more in the log widget. *)
Definition log_message (message level : string) : M unit :=
  now <- datetime_now ;;
  let timestamp := strftime_clock now in
  let formatted_message :=
    "[" +:+ timestamp +:+ "] " +:+ level +:+ ": " +:+ message +:+ newline in
  fun s => (set_log_text (log_text s ++ [formatted_message]) s, inr tt).

(** [execute_rename_thread]: the body of the loop for one pair; [true]
    increments [success_count], [false] increments [error_count]. *)
Definition execute_rename_thread_step (self : FileRenamerGUI)
    (original_file : Path) (new_name : string) : M bool :=
  try_except
    (let new_path := path_join (path_parent original_file) new_name in
     found <- path_exists new_path ;;
     if found && negb (bool_decide (new_path = original_file)) then
       log_message ("Conflitto: " +:+ new_name +:+ " già esistente") "WARNING" ;;
       ret false
     else
       (if negb (dry_run (renamer self)) then
          (if backup_var self then
             let backup_dir := path_join (path_parent original_file) "backup" in
             path_mkdir backup_dir ;;
             let backup_path := path_join backup_dir (path_name original_file) in
             path_copy original_file backup_path
           else ret tt) ;;
          path_rename original_file new_path ;;
          log_message
            ("Rinominato: " +:+ path_name original_file +:+ " → " +:+ new_name) "INFO"
        else
          log_message
            ("[DRY RUN] Rinomina: " +:+ path_name original_file +:+ " → " +:+ new_name)
            "INFO") ;;
       ret true)
    (fun e =>
       log_message
         ("Errore rinominando " +:+ path_name original_file +:+ ": " +:+ exc_msg e)
         "ERROR" ;;
       ret false).

(** The loop over [zip(self.files_to_process, self.new_names)]. *)
Fixpoint execute_rename_thread_loop (self : FileRenamerGUI)
    (pairs : list (Path * string)) (success_count error_count : nat)
    : M (nat * nat) :=
  match pairs with
  | [] => ret (success_count, error_count)
  | (original_file, new_name) :: rest =>
      ok <- execute_rename_thread_step self original_file new_name ;;
      if ok then execute_rename_thread_loop self rest (S success_count) error_count
      else execute_rename_thread_loop self rest success_count (S error_count)
  end.

Definition execute_rename_thread (self : FileRenamerGUI) : M unit :=
  try_except
    (counts <- execute_rename_thread_loop self
                 (zip (files_to_process self) (new_names self)) 0 0 ;;
     let success_count := fst counts in
     let error_count := snd counts in
     (if negb (bool_decide (log_format_var self = "none")) then
        save_operations_log (log_format_var self)
      else ret tt) ;;
     if (error_count =? 0)%nat then
       log_message
         ("✅ Operazione completata con successo! " +:+ pretty success_count
          +:+ " file processati") "SUCCESS"
     else
       log_message
         ("⚠️ Operazione completata con " +:+ pretty error_count +:+ " errori")
         "WARNING")
    (fun e =>
       log_message ("Errore durante l'esecuzione: " +:+ exc_msg e) "ERROR").

End FileRenamerGUIMethods.

(** ** A platform to run the model on: POSIX paths over a flat file table *)

Module Posix.

(** A [PurePosixPath]: whether it starts at the root, and its parts. *)
Record PosixPath := mkPath { absolute : bool; parts : list string }.

#[global] Instance PosixPath_eq_dec : EqDecision PosixPath.
Proof. solve_decision. Defined.

#[global] Instance PosixPath_countable : Countable PosixPath.
Proof.
  apply (inj_countable' (fun p => (absolute p, parts p))
                        (fun t => mkPath (fst t) (snd t))).
  by intros [].
Defined.

(** The pieces of a string between slashes. *)
Fixpoint split_slash (s : string) : list string :=
  match s with
  | EmptyString => [EmptyString]
  | String c r =>
      if bool_decide (c = "/"%char) then EmptyString :: split_slash r
      else
        match split_slash r with
        | w :: ws => String c w :: ws
        | [] => [String c EmptyString]
        end
  end.

Definition starts_with_slash (s : string) : bool :=
  match s with
  | String c _ => bool_decide (c = "/"%char)
  | EmptyString => false
  end.

(** [PurePosixPath(s)]: empty parts and single dots are dropped. *)
Definition parse (s : string) : PosixPath :=
  mkPath (starts_with_slash s)
         (List.filter (fun w => negb (bool_decide (w = "") || bool_decide (w = ".")))
                      (split_slash s)).

Definition to_str (p : PosixPath) : string :=
  match parts p with
  | [] => if absolute p then "/" else "."
  | _ => (if absolute p then "/" else "") +:+ String.concat "/" (parts p)
  end.

Definition parent (p : PosixPath) : PosixPath :=
  mkPath (absolute p) (removelast (parts p)).

Definition joinpath (p : PosixPath) (s : string) : PosixPath :=
  let q := parse s in
  if absolute q then q else mkPath (absolute p) (parts p ++ parts q).

Definition name (p : PosixPath) : string := List.last (parts p) "".

(** [s.rfind('.')] *)
Fixpoint rfind_dot (s : string) : option nat :=
  match s with
  | EmptyString => None
  | String c r =>
      match rfind_dot r with
      | Some i => Some (S i)
      | None => if bool_decide (c = "."%char) then Some 0 else None
      end
  end.

(** The position of the dot that starts the suffix: the last dot, when
    it is neither the first nor the last character of the name. *)
Definition suffix_at (nm : string) : option nat :=
  match rfind_dot nm with
  | Some i => if (0 <? i)%nat && (i <? String.length nm - 1)%nat then Some i else None
  | None => None
  end.

Definition suffix (p : PosixPath) : string :=
  match suffix_at (name p) with
  | Some i => String.substring i (String.length (name p) - i) (name p)
  | None => ""
  end.

Definition stem (p : PosixPath) : string :=
  match suffix_at (name p) with
  | Some i => String.substring 0 i (name p)
  | None => name p
  end.

(** A file-system entry. *)
Inductive Node := Dir | File (content : string).

Definition exists_ (t : gmap PosixPath Node) (p : PosixPath) : bool :=
  bool_decide (is_Some (t !! p)).

Definition enoent (p : PosixPath) : Exception :=
  mkExc FileNotFoundError ("[Errno 2] No such file or directory: '" +:+ to_str p +:+ "'").

Definition stat_size (t : gmap PosixPath Node) (p : PosixPath) : Exception + N :=
  match t !! p with
  | Some (File c) => inr (N.of_nat (String.length c))
  | Some Dir => inr 4096%N
  | None => inl (enoent p)
  end.

(** [rename(2)]: the entry moves, replacing whatever the target held. *)
Definition rename (t : gmap PosixPath Node) (src dst : PosixPath)
    : Exception + gmap PosixPath Node :=
  match t !! src with
  | Some n => inr (<[dst := n]> (delete src t))
  | None => inl (enoent src)
  end.

Definition copy (t : gmap PosixPath Node) (src dst : PosixPath)
    : Exception + gmap PosixPath Node :=
  match t !! src with
  | Some (File c) => inr (<[dst := File c]> t)
  | Some Dir => inl (mkExc OSError ("[Errno 21] Is a directory: '" +:+ to_str src +:+ "'"))
  | None => inl (enoent src)
  end.

Definition mkdir (t : gmap PosixPath Node) (p : PosixPath)
    : Exception + gmap PosixPath Node :=
  match t !! p with
  | None => inr (<[p := Dir]> t)
  | Some Dir => inr t
  | Some (File _) =>
      inl (mkExc FileExistsError ("[Errno 17] File exists: '" +:+ to_str p +:+ "'"))
  end.

Definition write (t : gmap PosixPath Node) (p : PosixPath) (data : string)
    : Exception + gmap PosixPath Node :=
  match t !! p with
  | Some Dir => inl (mkExc OSError ("[Errno 21] Is a directory: '" +:+ to_str p +:+ "'"))
  | _ => inr (<[p := File data]> t)
  end.

(** *** [str.format] on templates whose fields are plain names *)

Definition lookup_kw (kwargs : list (string * string)) (key : string) : Exception + string :=
  match List.find (fun kv => bool_decide (fst kv = key)) kwargs with
  | Some kv => inr (snd kv)
  | None =>
      if bool_decide (key = "") then
        inl (mkExc IndexError "Replacement index 0 out of range for positional args tuple")
      else inl (mkExc KeyError ("'" +:+ key +:+ "'"))
  end.

Definition prepend (c : ascii) (r : Exception + string) : Exception + string :=
  match r with inr s => inr (String c s) | inl e => inl e end.

Definition prepend_str (v : Exception + string) (r : Exception + string)
    : Exception + string :=
  match v, r with
  | inl e, _ => inl e
  | inr _, inl e => inl e
  | inr a, inr b => inr (a +:+ b)
  end.

(** Characters that start a conversion, a format specification, an
    attribute or an index inside a field: such fields are not covered. *)
Definition field_special (c : ascii) : bool :=
  bool_decide (c = "!"%char) || bool_decide (c = ":"%char)
  || bool_decide (c = "."%char) || bool_decide (c = "["%char)
  || bool_decide (c = "{"%char).

(** [field] is [Some n] while the scan is inside a field whose name
    read so far is [n]. *)
Fixpoint format_scan (kwargs : list (string * string)) (field : option string)
    (s : string) : Exception + string :=
  match s with
  | EmptyString =>
      match field with
      | None => inr EmptyString
      | Some _ => inl (mkExc ValueError "expected '}' before end of string")
      end
  | String c r =>
      match field with
      | None =>
          if bool_decide (c = "{"%char) then
            match r with
            | String c' r' =>
                if bool_decide (c' = "{"%char) then prepend "{" (format_scan kwargs None r')
                else format_scan kwargs (Some EmptyString) r
            | EmptyString => inl (mkExc ValueError "Single '{' encountered in format string")
            end
          else if bool_decide (c = "}"%char) then
            match r with
            | String c' r' =>
                if bool_decide (c' = "}"%char) then prepend "}" (format_scan kwargs None r')
                else inl (mkExc ValueError "Single '}' encountered in format string")
            | EmptyString => inl (mkExc ValueError "Single '}' encountered in format string")
            end
          else prepend c (format_scan kwargs None r)
      | Some n =>
          if bool_decide (c = "}"%char) then
            prepend_str (lookup_kw kwargs n) (format_scan kwargs None r)
          else if field_special c then
            inl (mkExc NotImplementedError "field syntax outside the modelled fragment")
          else format_scan kwargs (Some (n +:+ String c EmptyString)) r
      end
  end.

Definition format (pattern : string) (kwargs : list (string * string))
    : Exception + string :=
  format_scan kwargs None pattern.

(** *** [_format_size], exact while the size is below 2^53 *)

(** [n / d] with one decimal, ties to even. *)
Definition one_decimal (n d : N) : string :=
  let q := (10 * n / d)%N in
  let r := (10 * n mod d)%N in
  let t := if (d <? 2 * r)%N || ((2 * r =? d)%N && N.odd q) then (q + 1)%N else q in
  pretty (t / 10)%N +:+ "." +:+ pretty (t mod 10)%N.

Fixpoint format_size_units (units : list string) (n d : N) : string :=
  match units with
  | [] => one_decimal n d +:+ " TB"
  | unit :: rest =>
      if (n <? 1024 * d)%N then one_decimal n d +:+ " " +:+ unit
      else format_size_units rest n (1024 * d)%N
  end.

Definition size_text (size_bytes : N) : string :=
  format_size_units ["B"; "KB"; "MB"; "GB"] size_bytes 1%N.

(** *** The two serialisations of the operations log *)

Definition dquote : string := String (ascii_of_nat 34) EmptyString.
Definition crlf : string :=
  String (ascii_of_nat 13) (String (ascii_of_nat 10) EmptyString).

Definition hex_digit (n : nat) : ascii :=
  ascii_of_nat (if (n <? 10)%nat then 48 + n else 87 + n).

Definition json_escape_char (c : ascii) : string :=
  let n := nat_of_ascii c in
  if (n =? 34)%nat then "\" +:+ dquote
  else if (n =? 92)%nat then "\\"
  else if (n =? 10)%nat then "\n"
  else if (n =? 13)%nat then "\r"
  else if (n =? 9)%nat then "\t"
  else if (n =? 8)%nat then "\b"
  else if (n =? 12)%nat then "\f"
  else if (n <? 32)%nat then
    "\u00" +:+ String (hex_digit (n / 16)) (String (hex_digit (n mod 16)) EmptyString)
  else String c EmptyString.

Fixpoint json_escape (s : string) : string :=
  match s with
  | EmptyString => EmptyString
  | String c r => json_escape_char c +:+ json_escape r
  end.

Definition json_string (s : string) : string := dquote +:+ json_escape s +:+ dquote.

Definition json_member (key value : string) : string :=
  "    " +:+ json_string key +:+ ": " +:+ value.

Definition json_record (r : OperationRecord) : string :=
  "  {" +:+ newline +:+
  String.concat ("," +:+ newline)
    ([json_member "original" (json_string (op_original r));
      json_member "new" (json_string (op_new r));
      json_member "timestamp" (json_string (op_timestamp r));
      json_member "success" (if op_success r then "true" else "false")]
     ++ match op_error r with
        | Some e => [json_member "error" (json_string e)]
        | None => []
        end)
  +:+ newline +:+ "  }".

Definition json_text (records : list OperationRecord) : string :=
  match records with
  | [] => "[]"
  | _ => "[" +:+ newline +:+ String.concat ("," +:+ newline) (map json_record records)
         +:+ newline +:+ "]"
  end.

Definition csv_special (c : ascii) : bool :=
  let n := nat_of_ascii c in
  (n =? 44)%nat || (n =? 34)%nat || (n =? 13)%nat || (n =? 10)%nat.

Fixpoint csv_needs_quotes (s : string) : bool :=
  match s with
  | EmptyString => false
  | String c r => csv_special c || csv_needs_quotes r
  end.

Fixpoint csv_double_quotes (s : string) : string :=
  match s with
  | EmptyString => EmptyString
  | String c r =>
      (if (nat_of_ascii c =? 34)%nat then dquote +:+ dquote else String c EmptyString)
      +:+ csv_double_quotes r
  end.

Definition csv_field (s : string) : string :=
  if csv_needs_quotes s then dquote +:+ csv_double_quotes s +:+ dquote else s.

Definition csv_row (fields : list string) : string :=
  String.concat "," (map csv_field fields) +:+ crlf.

Definition csv_record (r : OperationRecord) : string :=
  csv_row [op_original r; op_new r; op_timestamp r;
           if op_success r then "True" else "False";
           default "" (op_error r)].

Definition csv_text (records : list OperationRecord) : string :=
  csv_row ["original"; "new"; "timestamp"; "success"; "error"]
  +:+ String.concat "" (map csv_record records).

#[global] Instance posix : Platform := {|
  Path := PosixPath;
  FS := gmap PosixPath Node;
  path_of := parse;
  path_str := to_str;
  path_parent := parent;
  path_join := joinpath;
  path_name := name;
  path_stem := stem;
  path_suffix := suffix;
  fs_exists := exists_;
  fs_stat_size := stat_size;
  fs_rename := rename;
  fs_copy := copy;
  fs_mkdir := mkdir;
  fs_write := write;
  str_format := format;
  format_size := size_text;
  json_dump := json_text;
  csv_dump := csv_text
|}.

End Posix.

(** ** More of [class FileRenamer]: the sequential strategy *)

(** [f"{number:03d}"]: the decimal digits padded with zeros to three
    characters, the sign of a negative number counting as one of them. *)
Definition format_03d (number : Z) : string :=
  match number with
  | Zneg p => "-" +:+ Str.zfill 2 (pretty (Npos p))
  | _ => Str.zfill 3 (pretty (Z.to_N number))
  end.

Section Sequential.
Context `{Platform}.

(** [rename_sequential]: the loop [for i, file_path in enumerate(files)],
    with the names collected so far. *)
Fixpoint rename_sequential_from (base_name : string) (start_num : Z) (i : nat)
    (files : list Path) (new_names : list string) : list string :=
  match files with
  | [] => new_names
  | file_path :: rest =>
      let extension := path_suffix file_path in
      let number := (start_num + Z.of_nat i)%Z in
      let new_name := base_name +:+ "_" +:+ format_03d number +:+ extension in
      rename_sequential_from base_name start_num (S i) rest (new_names ++ [new_name])
  end.

Definition rename_sequential (files : list Path) (base_name : string) (start_num : Z)
    : list string :=
  rename_sequential_from base_name start_num 0 files [].

End Sequential.

(** ** More of [class FileRenamerGUI]: the preview and the statistics *)

Section Preview.
Context `{Platform}.

(** [generate_preview]: the status column of one row of the preview. *)
Definition preview_status (f : FS) (original : Path) (new_name : string) : string :=
  if bool_decide (new_name = path_name original) then "Invariato"
  else if fs_exists f (path_join (path_parent original) new_name) then "Conflitto"
  else "OK".

(** The rows of the preview, for [zip(self.files_to_process, self.new_names)]. *)
Definition preview_rows (f : FS) (files : list Path) (names : list string)
    : list (string * string * string) :=
  map (fun pair => (path_name (fst pair), snd pair,
                    preview_status f (fst pair) (snd pair)))
      (zip files names).

(** [update_stats(processed, errors, total)]: the texts of the labels
    [stats_processed], [stats_success] and [stats_errors]. *)
Definition update_stats (processed errors total : Z) : string * string * string :=
  let success := (processed - errors)%Z in
  (pretty total, pretty success, pretty errors).

(** The call [self.update_stats(success_count, error_count, total_files)]
    of the worker, on the counts its loop returns. *)
Definition worker_stats (self : FileRenamerGUI) (counts : nat * nat)
    : string * string * string :=
  update_stats (Z.of_nat (fst counts)) (Z.of_nat (snd counts))
               (Z.of_nat (length (files_to_process self))).

End Preview.

(** A suffix as [pathlib] gives it: empty, or starting with a dot. *)
Definition suffix_shape (e : string) : Prop :=
  e = EmptyString \/ exists r, e = String "."%char r.

(** No dot occurs in [s]. *)
Fixpoint no_dot (s : string) : bool :=
  match s with
  | EmptyString => true
  | String c r => negb (bool_decide (c = "."%char)) && no_dot r
  end.

(** Decimal digits, and strings made of them. *)
Definition isdigit (c : ascii) : bool :=
  (48 <=? Str.code c)%nat && (Str.code c <=? 57)%nat.

Fixpoint all_digits (s : string) : bool :=
  match s with
  | EmptyString => true
  | String c r => isdigit c && all_digits r
  end.

(** The padding of [zfill]: [k] zeros. *)
Definition zeros (k : nat) : string := String.concat "" (replicate k "0").

(** [s.isascii()]: every character of [s] is below 128.  On such text
    [str.lower], [str.upper], [str.capitalize], [str.title] and the class
    [\s] of [re] are the ASCII ones of [Str] and [StrTitle]; beyond it
    Python follows the Unicode tables, where a case mapping can change the
    length of a string and more characters count as whitespace. *)
Fixpoint isascii (s : string) : bool :=
  match s with
  | EmptyString => true
  | String c r => (Str.code c <? 128)%nat && isascii r
  end.

(** The number of separator characters of a stem, and the number of
    characters a list of words holds. *)
Fixpoint count_sep (s : string) : nat :=
  match s with
  | EmptyString => 0
  | String c r => (if Str.is_sep c then 1 else 0) + count_sep r
  end.

Definition words_length (ws : list string) : nat :=
  sum_list (map String.length ws).

(** A request that writes a file. *)
Definition is_write `{Platform} (c : Syscall) : Prop :=
  match c with
  | SysWrite _ _ _ => True
  | _ => False
  end.

(** A record of the operations log is either a success without an error
    text or a failure with one. *)
Definition well_formed_record (r : OperationRecord) : Prop :=
  (op_success r = true /\ op_error r = None)
  \/ (op_success r = false /\ is_Some (op_error r)).

(** ** The rest of the command line: collecting files, the regex
    strategy, the preview and [main] *)

(** What the command line asks of the runtime beyond [Platform]:
    [p.is_file()], [p.glob(pattern)] and [p.rglob(pattern)] as lists; the
    [re] module, with [re.compile] giving either the text of its
    [re.error] or a compiled pattern, and [compiled.sub(replacement, name)];
    and, for [setup_logging], opening a file for appending (what building
    a [logging.FileHandler] does), [getattr(logging, name)] and
    [root.setLevel(value)] on the value found. *)
Class Runtime `{Platform} := {
  fs_is_file : FS -> Path -> bool;
  fs_glob : FS -> Path -> string -> Exception + list Path;
  fs_rglob : FS -> Path -> string -> Exception + list Path;
  Regex : Type;
  re_compile : string -> string + Regex;
  re_sub : Regex -> string -> string -> Exception + string;
  fs_open_append : FS -> Path -> Exception + FS;
  LoggingAttribute : Type;
  logging_getattr : string -> Exception + LoggingAttribute;
  logging_setLevel : LoggingAttribute -> Exception + unit
}.

(** The arguments as [parse_args] returns them; an option that was not
    given is [None]. *)
Record Args := mkArgs {
  arg_directory : string;
  arg_pattern : string;
  arg_recursive : bool;
  arg_sequential : option string;
  arg_custom_pattern : option string;
  arg_case : option string;
  arg_regex : option string;
  arg_replacement : option string;
  arg_start_number : Z;
  arg_dry_run : bool;
  arg_log_level : string;
  arg_save_log : option string
}.

(** The truth value of an optional string: given, and not empty. *)
Definition truthy (o : option string) : bool :=
  match o with
  | Some v => negb (bool_decide (v = ""))
  | None => false
  end.

(** What the process shows on its console. *)
Inductive Output :=
  | Printed (line : string)
  | PrintedTable (title : string) (rows : list (string * string * string))
  | Prompted (prompt : string).

(** How a computation of the process ends: with a value, with an
    exception ([EOFError] apart, which only [input] raises), or by
    [sys.exit]. *)
Inductive Failure := Caught (e : Exception) | EndOfInput.

Inductive Result (A : Type) :=
  | Value (a : A)
  | Raised (e : Failure)
  | Exited (code : Z).

Arguments Value {A} a.
Arguments Raised {A} e.
Arguments Exited {A} code.

(** [str(e)] *)
Definition failure_msg (e : Failure) : string :=
  match e with
  | Caught e => exc_msg e
  | EndOfInput => "EOF when reading a line"
  end.

(** [f"{s:<w}"]: [s] padded with spaces on the right to the width [w]. *)
Definition ljust (w : nat) (s : string) : string :=
  s +:+ String.concat "" (replicate (w - String.length s) " ").

(** The answers that confirm the renaming. *)
Definition affirmative : list string := ["y"; "yes"; "si"; "s"].

Section CommandLine.
Context `{Runtime}.

(** [get_files] *)
Definition get_files (self : FileRenamer) (pattern : string) (recursive : bool)
    : M (list Path) :=
  files <- (fun s => (s, if recursive then fs_rglob (fs s) (directory self) pattern
                         else fs_glob (fs s) (directory self) pattern)) ;;
  files <- (fun s => (s, inr (List.filter (fs_is_file (fs s)) files))) ;;
  logging_log INFO
    ("Trovati " +:+ pretty (length files) +:+ " file con pattern '" +:+ pattern +:+ "'") ;;
  ret files.

(** [apply_regex_replacement]: the loop over the files, with the names
    collected so far. *)
Fixpoint apply_regex_replacement_from (compiled_pattern : Regex) (replacement : string)
    (files : list Path) (new_names : list string) : M (list string) :=
  match files with
  | [] => ret new_names
  | file_path :: rest =>
      let original_name := path_name file_path in
      new_name <- (fun s => (s, re_sub compiled_pattern replacement original_name)) ;;
      apply_regex_replacement_from compiled_pattern replacement rest
        (new_names ++ [new_name])
  end.

Definition apply_regex_replacement (files : list Path) (pattern replacement : string)
    : M (list string) :=
  compiled_pattern <-
    match re_compile pattern with
    | inr compiled_pattern => ret compiled_pattern
    | inl e => raise (mkExc ValueError ("Pattern regex non valido: " +:+ e))
    end ;;
  apply_regex_replacement_from compiled_pattern replacement files [].

(** [setup_logging]: the logs directory is made and the clock read for
    the name of the log file.  The arguments of [logging.basicConfig] are
    evaluated in order: [getattr(logging, log_level.upper())], then the
    handlers, where [logging.FileHandler(log_file)] opens the log file for
    appending at once; [basicConfig] then installs the handlers and sets
    the level, as it does on a root logger without handlers, which is
    what [main] calls it on.  The lines the handlers write later are the
    [logging] component of the state, not file contents. *)
Definition setup_logging (log_level : string) : M unit :=
  let log_dir := path_of "logs" in
  path_mkdir log_dir ;;
  now <- datetime_now ;;
  let log_file :=
    path_join log_dir ("file_renamer_" +:+ strftime_stamp now +:+ ".log") in
  level <- (fun s => (s, logging_getattr (Str.upper log_level))) ;;
  (fun s => request (SysOpen (fs s) log_file) (fs_open_append (fs s) log_file) s) ;;
  (fun s => (s, logging_setLevel level)).

(** The process: the program state, the lines waiting on standard input
    and the console output so far. *)
Record Process := mkProcess {
  state : State;
  stdin : list string;
  stdout : list Output
}.

Definition P (A : Type) : Type := Process -> Process * Result A.

Definition pret {A} (x : A) : P A := fun p => (p, Value x).

Definition pbind {A B} (m : P A) (f : A -> P B) : P B :=
  fun p =>
    match m p with
    | (p', Value a) => f a p'
    | (p', Raised e) => (p', Raised e)
    | (p', Exited c) => (p', Exited c)
    end.

(** A method of the renamer run inside the process. *)
Definition lift {A} (m : M A) : P A :=
  fun p =>
    let r := m (state p) in
    (mkProcess (fst r) (stdin p) (stdout p),
     match snd r with
     | inr a => Value a
     | inl e => Raised (Caught e)
     end).

Definition sys_exit {A} (code : Z) : P A := fun p => (p, Exited code).

(** [try: body except Exception as e: handler e]; [sys.exit] is not an
    [Exception] and passes through. *)
Definition p_try_except {A} (body : P A) (handler : Failure -> P A) : P A :=
  fun p =>
    match body p with
    | (p', Raised e) => handler e p'
    | r => r
    end.

Definition emit (o : Output) : P unit :=
  fun p => (mkProcess (state p) (stdin p) (stdout p ++ [o]), Value tt).

Definition print (line : string) : P unit := emit (Printed line).

(** [input(prompt)] *)
Definition input (prompt : string) : P string :=
  fun p =>
    let out := stdout p ++ [Prompted prompt] in
    match stdin p with
    | [] => (mkProcess (state p) [] out, Raised EndOfInput)
    | line :: rest => (mkProcess (state p) rest out, Value line)
    end.

(** [preview_changes] with [rich]: the rows of the table, which is
    printed once all of them are there. *)
Fixpoint preview_table_rows (pairs : list (Path * string))
    (rows : list (string * string * string)) : M (list (string * string * string)) :=
  match pairs with
  | [] => ret rows
  | (original, new_name) :: rest =>
      st_size <- path_stat_size original ;;
      let size := format_size st_size in
      preview_table_rows rest (rows ++ [(path_name original, new_name, size)])
  end.

(** [preview_changes] without [rich]: one printed line per pair. *)
Fixpoint preview_plain_rows (pairs : list (Path * string)) : P unit :=
  match pairs with
  | [] => pret tt
  | (original, new_name) :: rest =>
      pbind (lift (path_stat_size original)) (fun st_size =>
      let size := format_size st_size in
      pbind (print (ljust 30 (path_name original) +:+ " → " +:+ ljust 30 new_name
                    +:+ " (" +:+ size +:+ ")")) (fun _ =>
      preview_plain_rows rest))
  end.

(** [preview_changes]; [rich] tells whether the [rich] library is
    available. *)
Definition preview_changes (rich : bool) (files : list Path) (new_names : list string)
    : P unit :=
  if rich then
    pbind (lift (preview_table_rows (zip files new_names) [])) (fun rows =>
    emit (PrintedTable "Anteprima Modifiche" rows))
  else
    pbind (print (newline +:+ "📋 ANTEPRIMA MODIFICHE:")) (fun _ =>
    pbind (print (String.concat "" (replicate 60 "-"))) (fun _ =>
    preview_plain_rows (zip files new_names))).

(** The strategy [main] selects; [None] stands for the local variable
    [new_names] left unbound when no strategy argument is true. *)
Definition choose_new_names (args : Args) (files : list Path)
    : P (option (list string)) :=
  if truthy (arg_sequential args) then
    pret (Some (rename_sequential files (default "" (arg_sequential args))
                  (arg_start_number args)))
  else if truthy (arg_custom_pattern args) then
    pbind (lift (rename_with_pattern files (default "" (arg_custom_pattern args))))
          (fun new_names => pret (Some new_names))
  else if truthy (arg_case args) then
    pret (Some (rename_case_transform files (default "" (arg_case args))))
  else if truthy (arg_regex args) then
    pbind (lift (apply_regex_replacement files (default "" (arg_regex args))
                   (default "" (arg_replacement args))))
          (fun new_names => pret (Some new_names))
  else pret None.

(** [main], from the parsed arguments on. *)
Definition main (rich : bool) (args : Args) : P unit :=
  pbind (lift (setup_logging (arg_log_level args))) (fun _ =>
  pbind (if truthy (arg_regex args) && negb (truthy (arg_replacement args)) then
           pbind (print "❌ Errore: --regex richiede --replacement") (fun _ =>
           sys_exit 1)
         else pret tt) (fun _ =>
  p_try_except
    (pbind (lift (FileRenamer_init (arg_directory args) (arg_dry_run args))) (fun renamer =>
     pbind (lift (get_files renamer (arg_pattern args) (arg_recursive args))) (fun files =>
     pbind (match files with
            | [] =>
                pbind (print ("⚠️  Nessun file trovato con pattern '"
                              +:+ arg_pattern args +:+ "'")) (fun _ =>
                sys_exit 0)
            | _ :: _ => pret tt
            end) (fun _ =>
     pbind (choose_new_names args files) (fun bound =>
     pbind (match bound with
            | Some new_names => pret new_names
            | None =>
                (fun p => (p, Raised (Caught (mkExc UnboundLocalError
                   "cannot access local variable 'new_names' where it is not associated with a value"))))
            end) (fun new_names =>
     pbind (preview_changes rich files new_names) (fun _ =>
     pbind (if negb (arg_dry_run args) then
              pbind (input (newline +:+ "❓ Procedere con la rinomina? [y/N]: "))
                    (fun confirm =>
              if bool_decide (Str.lower confirm ∈ affirmative) then pret tt
              else pbind (print "✋ Operazione annullata") (fun _ => sys_exit 0))
            else pret tt) (fun _ =>
     pbind (lift (execute_rename renamer files new_names)) (fun success =>
     pbind (if success then
              print ("✅ Rinominati con successo " +:+ pretty (length files) +:+ " file!")
            else
              print "⚠️  Alcune operazioni potrebbero non essere riuscite. Controlla i log.")
           (fun _ =>
     if truthy (arg_save_log args) then
       lift (save_operations_log (default "" (arg_save_log args)))
     else pret tt))))))))))
    (fun e =>
       pbind (lift (logging_log ERROR ("Errore durante l'esecuzione: " +:+ failure_msg e)))
             (fun _ =>
       pbind (print ("❌ Errore: " +:+ failure_msg e)) (fun _ =>
       sys_exit 1))))).

(** The exit status of the process: [0] after a normal return, the code
    given to [sys.exit], and [1] after an exception nobody caught. *)
Definition exit_status {A} (r : Result A) : Z :=
  match r with
  | Value _ => 0
  | Raised _ => 1
  | Exited code => code
  end.

End CommandLine.

(** A request that moves or copies a file. *)
Definition moves_a_file `{Platform} (c : Syscall) : Prop :=
  match c with
  | SysRename _ _ _ | SysCopy _ _ _ => True
  | _ => False
  end.


(** The request history grows by requests that move or copy no file. *)
Definition extends_quietly `{Platform} (s s' : State) : Prop :=
  exists issued,
    calls s' = calls s ++ issued
    /\ Forall (fun c => ~ moves_a_file c) issued.

(** A computation of the process is quiet when, however it ends, it has
    moved or copied no file and has read nothing from standard input; [Q]
    holds of the value it returns. *)
Definition quiet `{Runtime} {A} (Q : A -> Prop) (m : P A) : Prop :=
  forall p p' r,
    m p = (p', r) ->
    extends_quietly (state p) (state p')
    /\ stdin p' = stdin p
    /\ forall a, r = Value a -> Q a.

(** The same for a method of the renamer. *)
Definition mquiet `{Platform} {A} (Q : A -> Prop) (m : M A) : Prop :=
  forall s s' r,
    m s = (s', r) ->
    extends_quietly s s' /\ forall a, r = inr a -> Q a.

(** Standard input does not confirm: it is at its end, or its next line
    is not an affirmative answer. *)
Definition declined (lines : list string) : Prop :=
  match lines with
  | [] => True
  | answer :: _ => Str.lower answer ∉ affirmative
  end.

(** A computation of the process stops quietly when, standard input not
    confirming, it moves or copies no file and does not return normally:
    it ends by [sys.exit] or with an exception. *)
Definition stops_quietly `{Runtime} {A} (m : P A) : Prop :=
  forall p p' r,
    m p = (p', r) ->
    declined (stdin p) ->
    extends_quietly (state p) (state p') /\ forall a, r <> Value a.

(** ** A runtime over the POSIX file system, for the examples *)

Module PosixRuntime.
Import Posix.

(** [fnmatch] on a name, for patterns made of plain characters, [*] and
    [?]. *)
Fixpoint fnmatch (pattern nm : string) : bool :=
  match pattern with
  | EmptyString => bool_decide (nm = "")
  | String c rest =>
      if bool_decide (c = "*"%char) then
        (fix star (n : string) : bool :=
           fnmatch rest n
           || match n with
              | String _ n' => star n'
              | EmptyString => false
              end) nm
      else
        match nm with
        | String c' nm' =>
            (bool_decide (c = "?"%char) || bool_decide (c = c')) && fnmatch rest nm'
        | EmptyString => false
        end
  end.

Definition glob_special (c : ascii) : bool :=
  bool_decide (c = "/"%char) || bool_decide (c = "["%char) || bool_decide (c = "]"%char).

Fixpoint any_char (test : ascii -> bool) (s : string) : bool :=
  match s with
  | EmptyString => false
  | String c r => test c || any_char test r
  end.

Fixpoint strict_prefix (l k : list string) : bool :=
  match l, k with
  | [], _ :: _ => true
  | x :: l', y :: k' => bool_decide (x = y) && strict_prefix l' k'
  | _, _ => false
  end.

Definition is_file (t : gmap PosixPath Node) (p : PosixPath) : bool :=
  match t !! p with
  | Some (File _) => true
  | _ => false
  end.

Definition is_dir (t : gmap PosixPath Node) (p : PosixPath) : bool :=
  match t !! p with
  | Some Dir => true
  | _ => false
  end.

(** The entries a search visits: the children of the directory, or with
    [deep] everything below it. *)
Definition entries (deep : bool) (t : gmap PosixPath Node) (dir : PosixPath)
    : list PosixPath :=
  if is_dir t dir then
    List.filter
      (fun k =>
         bool_decide (absolute k = absolute dir)
         && (if deep then strict_prefix (parts dir) (parts k)
             else bool_decide (parts k <> []) && bool_decide (parent k = dir)))
      (map fst (map_to_list t))
  else [].

Definition search (deep : bool) (t : gmap PosixPath Node) (dir : PosixPath)
    (pattern : string) : Exception + list PosixPath :=
  if bool_decide (pattern = "") then
    inl (mkExc ValueError "Unacceptable pattern: ''")
  else if any_char glob_special pattern then
    inl (mkExc NotImplementedError "glob syntax outside the modelled fragment")
  else inr (List.filter (fun k => fnmatch pattern (name k)) (entries deep t dir)).

(** The fragment of [re]: a pattern without metacharacters and a
    replacement without backslashes, where [sub] replaces the occurrences
    of the pattern from left to right. *)
Definition re_special (c : ascii) : bool :=
  bool_decide (c ∈ ["."%char; "^"%char; "$"%char; "*"%char; "+"%char; "?"%char;
                    "{"%char; "}"%char; "["%char; "]"%char; "\"%char; "|"%char;
                    "("%char; ")"%char]).

Fixpoint replace_from (skip : nat) (old new s : string) : string :=
  match s with
  | EmptyString => EmptyString
  | String c r =>
      match skip with
      | S k => replace_from k old new r
      | O =>
          if String.prefix old s then new +:+ replace_from (String.length old - 1) old new r
          else String c (replace_from 0 old new r)
      end
  end.

Definition sub (pattern replacement nm : string) : Exception + string :=
  if bool_decide (pattern = "") || any_char re_special pattern
     || any_char (fun c => bool_decide (c = "\"%char)) replacement then
    inl (mkExc NotImplementedError "regular expression outside the modelled fragment")
  else inr (replace_from 0 pattern replacement nm).

(** [open(p, 'a')]: the file is created when it is missing and kept as
    it is otherwise. *)
Definition open_append (t : gmap PosixPath Node) (p : PosixPath)
    : Exception + gmap PosixPath Node :=
  match t !! p with
  | Some Dir => inl (mkExc OSError ("[Errno 21] Is a directory: '" +:+ to_str p +:+ "'"))
  | Some (File _) => inr t
  | None =>
      if is_dir t (parent p) then inr (<[p := File ""]> t)
      else inl (enoent p)
  end.

(** The upper-case attributes of the [logging] module: the levels, which
    are integers, and the format string [BASIC_FORMAT]. *)
Inductive Attribute := LevelNumber (n : nat) | FormatString.

Definition getattr (attribute : string) : Exception + Attribute :=
  if bool_decide (attribute ∈ ["CRITICAL"; "FATAL"]) then inr (LevelNumber 50)
  else if bool_decide (attribute = "ERROR") then inr (LevelNumber 40)
  else if bool_decide (attribute ∈ ["WARNING"; "WARN"]) then inr (LevelNumber 30)
  else if bool_decide (attribute = "INFO") then inr (LevelNumber 20)
  else if bool_decide (attribute = "DEBUG") then inr (LevelNumber 10)
  else if bool_decide (attribute = "NOTSET") then inr (LevelNumber 0)
  else if bool_decide (attribute = "BASIC_FORMAT") then inr FormatString
  else inl (mkExc AttributeError
              ("module 'logging' has no attribute '" +:+ attribute +:+ "'")).

Definition setLevel (value : Attribute) : Exception + unit :=
  match value with
  | LevelNumber _ => inr tt
  | FormatString =>
      inl (mkExc ValueError "Unknown level: '%(levelname)s:%(name)s:%(message)s'")
  end.

#[global] Instance posix_runtime : @Runtime posix := {|
  fs_is_file := is_file;
  fs_glob := search false;
  fs_rglob := search true;
  Regex := string;
  re_compile := fun pattern => inr pattern;
  re_sub := sub;
  fs_open_append := open_append;
  LoggingAttribute := Attribute;
  logging_getattr := getattr;
  logging_setLevel := setLevel
|}.

End PosixRuntime.

(** ** Vocabulary of the properties *)

Section Vocabulary.
Context `{Platform}.

(** The target of a pair: the parent of the original joined with the
    proposed name. *)
Definition target (original_file : Path) (new_name : string) : Path :=
  path_join (path_parent original_file) new_name.

(** A pair collides on [f] when its target exists there and is not the
    original itself. *)
Definition collision (f : FS) (original_file : Path) (new_name : string) : bool :=
  fs_exists f (target original_file new_name)
  && negb (bool_decide (target original_file new_name = original_file)).

Definition collides (f : FS) (pair : Path * string) : bool :=
  collision f (fst pair) (snd pair).

(** A request is safe when it is not a rename onto a path that existed,
    when the request was issued, and was not the source itself. *)
Definition safe_request (c : Syscall) : Prop :=
  match c with
  | SysRename before src dst => fs_exists before dst = true -> dst = src
  | _ => True
  end.

(** The successful records among those of a log. *)
Definition successes (records : list OperationRecord) : list OperationRecord :=
  List.filter op_success records.

(** The original and the target a successful record of a pair names. *)
Definition named (pair : Path * string) : string * string :=
  (path_str (fst pair), path_str (target (fst pair) (snd pair))).

Definition names_of (r : OperationRecord) : string * string :=
  (op_original r, op_new r).

(** The loop of the templated strategy with the date and the time stamps
    fixed beforehand. *)
Fixpoint rename_with_pattern_stamped (pattern current_date current_time : string)
    (i : nat) (files : list Path) (new_names : list string) : M (list string) :=
  match files with
  | [] => ret new_names
  | file_path :: rest =>
      st_size <- path_stat_size file_path ;;
      new_name <- format pattern
        [("name", path_stem file_path); ("ext", path_suffix file_path);
         ("counter", Str.zfill 3 (pretty i));
         ("date", current_date); ("time", current_time);
         ("size", format_size st_size)] ;;
      rename_with_pattern_stamped pattern current_date current_time
        (S i) rest (new_names ++ [new_name])
  end.

(** The templated strategy as the specification words it: the clock is
    read once per call, and every file gets that one stamp. *)
Definition rename_with_pattern_once (files : list Path) (pattern : string)
    : M (list string) :=
  now <- datetime_now ;;
  rename_with_pattern_stamped pattern (strftime_Ymd now) (strftime_HMS now) 1 files [].

(** The keyword arguments handed to [pattern.format] for the file with
    counter [i], when the two clock readings are [date_now] and
    [time_now]. *)
Definition pattern_fields (i : nat) (file_path : Path) (st_size : N)
    (date_now time_now : datetime) : list (string * string) :=
  [("name", path_stem file_path); ("ext", path_suffix file_path);
   ("counter", Str.zfill 3 (pretty i));
   ("date", strftime_Ymd date_now); ("time", strftime_HMS time_now);
   ("size", format_size st_size)].

End Vocabulary.

(** The words of a stem with the separator runs between them put back. *)
Fixpoint interleave (words runs : list string) : string :=
  match words, runs with
  | w :: words', r :: runs' => w +:+ r +:+ interleave words' runs'
  | w :: _, [] => w
  | [], _ => EmptyString
  end.

(** A non-empty run of separator characters. *)
Fixpoint all_sep (s : string) : bool :=
  match s with
  | EmptyString => true
  | String c r => Str.is_sep c && all_sep r
  end.

Definition sep_run (s : string) : Prop := s <> EmptyString /\ all_sep s = true.

(** No upper-case letter occurs in [s]. *)
Fixpoint no_upper (s : string) : bool :=
  match s with
  | EmptyString => true
  | String c r => negb (Str.isupper c) && no_upper r
  end.

(** The camel transform as the specification words it: the first letter
    of a later segment capitalised, the rest of the segment unchanged. *)
Definition capitalize_first_only (s : string) : string :=
  match s with
  | EmptyString => EmptyString
  | String c r => String (Str.upper_char c) r
  end.

Definition camel_as_specified (name_without_ext : string) : string :=
  match Str.re_split name_without_ext with
  | [] => EmptyString
  | w0 :: ws => Str.lower w0 +:+ Str.join (map capitalize_first_only ws)
  end.

(** ** A small disk to run the model on *)

Module Sample.
Import Posix.

Definition d : PosixPath := parse "/d".
Definition a_txt : PosixPath := parse "/d/a.txt".
Definition b_txt : PosixPath := parse "/d/b.txt".

(** The directory [/d] with the two files [a.txt] and [b.txt]. *)
Definition disk : gmap PosixPath Node :=
  <[a_txt := File "aaa"]> (<[b_txt := File "bb"]> (<[d := Dir]> ∅)).

(** A clock that stands still, and one that advances by a second between
    two readings. *)
Definition frozen (n : nat) : datetime := mkDatetime 2024 3 5 10 0 0 0.
Definition ticking (n : nat) : datetime := mkDatetime 2024 3 5 10 0 n 0.

Definition boot (clock : nat -> datetime) : State :=
  mkState disk [] clock 0 [] [] [].

Definition one_record : OperationRecord :=
  mkOperation "/d/a.txt" "/d/c.txt" "2024-03-05T10:00:00" true None.

Definition real_run : FileRenamer := mkFileRenamer posix d false.
Definition dry : FileRenamer := mkFileRenamer posix d true.

Definition window (backup : bool) (r : FileRenamer) : FileRenamerGUI :=
  mkGUI posix r [a_txt; b_txt] ["b.txt"; "c.txt"] backup (dry_run r) "none".

(** The window after a preview with the template [backup/{name}{ext}] on
    [a.txt], with the backup option on. *)
Definition backup_window : FileRenamerGUI :=
  mkGUI posix real_run [a_txt] ["backup/a.txt"] true false "none".

(** Command lines over [/d]: [--sequential doc], with or without
    [--dry-run]; [--regex a] alone; and [--sequential] with an empty
    value. *)
Definition sequential_args (dry_run : bool) : Args :=
  mkArgs "/d" "*" false (Some "doc") None None None None 1 dry_run "INFO" None.

Definition regex_only_args : Args :=
  mkArgs "/d" "*" false None None None (Some "a") None 1 false "INFO" None.

Definition empty_strategy_args : Args :=
  mkArgs "/d" "*" false (Some "") None None None None 1 false "INFO" None.

(** The process at its start, with the lines typed on standard input. *)
Definition launch (lines : list string) : Process :=
  mkProcess (boot frozen) lines [].

End Sample.

(** * Properties *)

(** ** Strings *)

Example camel_ex1 : camel "my_file-name test" = "myFileNameTest".
Proof. reflexivity. Qed.

Example camel_ex2 : camel "__Foo" = "Foo".
Proof. reflexivity. Qed.

Example re_split_ex : Str.re_split "a__b_ " = ["a"; "b"; ""].
Proof. reflexivity. Qed.

Lemma string_app_empty (t : string) : "" +:+ t = t.
Proof. reflexivity. Qed.

Lemma string_app_cons (c : ascii) (s t : string) :
  String c s +:+ t = String c (s +:+ t).
Proof. reflexivity. Qed.

Ltac str_simpl := repeat (rewrite ?string_app_cons, ?string_app_empty in *; simpl in * ).

Lemma string_app_nil_r (s : string) : s +:+ "" = s.
Proof. induction s as [|c s IH]; [done |]. by rewrite string_app_cons, IH. Qed.

Lemma re_split_nonempty (s : string) : Str.re_split s <> [].
Proof.
  induction s as [|c r IH]; simpl; [done |].
  destruct (Str.is_sep c).
  - by destruct (Str.starts_with_sep r).
  - by destruct (Str.re_split r).
Qed.

(** A stem that starts with a separator splits into an empty first word
    followed by at least one more word. *)
Lemma re_split_starts_with_sep (s : string) :
  Str.starts_with_sep s = true ->
  exists w ws, Str.re_split s = "" :: w :: ws.
Proof.
  induction s as [|c r IH]; simpl; [done |].
  intros ->. destruct (Str.starts_with_sep r) eqn:E.
  - by apply IH.
  - destruct (Str.re_split r) as [|w ws] eqn:Er; [by apply re_split_nonempty in Er |].
    by exists w, ws.
Qed.

Lemma re_split_no_sep (s : string) :
  Str.no_sep s = true -> Str.re_split s = [s].
Proof.
  induction s as [|c r IH]; simpl; [done |].
  intros [Hc Hr]%andb_prop. apply negb_true_iff in Hc. rewrite Hc.
  by rewrite (IH Hr).
Qed.

Lemma re_split_words_no_sep (s : string) :
  Forall (fun w => Str.no_sep w = true) (Str.re_split s).
Proof.
  induction s as [|c r IH]; simpl.
  - by repeat constructor.
  - destruct (Str.is_sep c) eqn:Ec.
    + destruct (Str.starts_with_sep r); [done | by constructor].
    + destruct (Str.re_split r) as [|w ws].
      * repeat constructor. simpl. by rewrite Ec.
      * inversion IH; subst. constructor; [|done]. simpl. by rewrite Ec.
Qed.

(** The split loses nothing: the words, with suitable separator runs put
    back between them, give the stem. *)
Lemma re_split_interleave (s : string) :
  exists runs,
    length runs = pred (length (Str.re_split s))
    /\ Forall sep_run runs
    /\ interleave (Str.re_split s) runs = s.
Proof.
  induction s as [|c r (runs & Hlen & Hruns & Hs)]; simpl.
  - by exists [].
  - destruct (Str.is_sep c) eqn:Ec.
    + destruct (Str.starts_with_sep r) eqn:Er.
      * destruct (re_split_starts_with_sep r Er) as (w & ws & Hsplit).
        rewrite Hsplit in *. destruct runs as [|run runs]; [done |].
        apply Forall_cons in Hruns as [[Hne Hall] Hrest].
        exists (String c run :: runs). split; [done |]. split.
        -- constructor; [|done]. split; [done |]. simpl. by rewrite Ec.
        -- str_simpl. by rewrite Hs.
      * exists (String c "" :: runs). split; [|split].
        -- simpl. rewrite Hlen.
           destruct (Str.re_split r) eqn:E; [by apply re_split_nonempty in E | done].
        -- constructor; [|done]. split; [done |]. simpl. by rewrite Ec.
        -- destruct (Str.re_split r) eqn:E; [by apply re_split_nonempty in E |].
           str_simpl. by rewrite Hs.
    + destruct (Str.re_split r) as [|w ws] eqn:E; [by apply re_split_nonempty in E |].
      exists runs. split; [done |]. split; [done |].
      destruct runs; str_simpl; by rewrite Hs.
Qed.

(** The runs are maximal: only the first and the last word of a split can
    be empty. *)
Lemma re_split_inner_words (s : string) j w :
  Str.re_split s !! S j = Some w ->
  S (S j) < length (Str.re_split s) ->
  w <> "".
Proof.
  revert j w. induction s as [|c r IH]; intros j w; simpl; [done |].
  destruct (Str.is_sep c) eqn:Ec.
  - destruct (Str.starts_with_sep r) eqn:Er; [by apply IH |].
    simpl. intros Hw Hlen. destruct j as [|j]; [|apply (IH j); [done | lia]].
    destruct r as [|c' r']; simpl in *; [lia |].
    rewrite Er in Hw.
    destruct (Str.re_split r') as [|w' ws']; simpl in Hw; by injection Hw as <-.
  - destruct (Str.re_split r) as [|w0 ws] eqn:Hsplit;
      [by apply re_split_nonempty in Hsplit |].
    simpl. intros Hw Hlen. by apply (IH j).
Qed.

Lemma case_transform_camel (s : string) : case_transform "camel" s = camel s.
Proof. reflexivity. Qed.

Lemma lower_char_fixed (c : ascii) : Str.lower_char c = c <-> Str.isupper c = false.
Proof.
  destruct c as [[] [] [] [] [] [] [] []]; vm_compute; split; congruence.
Qed.

Lemma lower_fixed (s : string) : Str.lower s = s <-> no_upper s = true.
Proof.
  induction s as [|c r IH]; simpl; [done |].
  rewrite andb_true_iff, negb_true_iff, <- IH, <- lower_char_fixed.
  split; [by intros [= ? ?] | by intros [-> ->]].
Qed.

Example capitalize_BAR : Str.capitalize "BAR" = "Bar".
Proof. reflexivity. Qed.

(** C5, as amended: the camel case transform splits the stem on runs of
    underscore, hyphen or whitespace, lower-cases the first segment,
    capitalises every later segment with [str.capitalize], which
    upper-cases the first letter and lower-cases the remainder of the
    segment (the segment BAR becomes Bar), joins the segments with no
    separator and re-appends the extension unchanged; one name per file,
    in order.  The segments hold no separator, the runs between them are
    non-empty runs of separators that give the stem back, and since the
    runs are maximal only the first and the last segment can be empty. *)
Theorem camel_transform_lowers_segment_remainder `{Platform} (files : list Path) :
  length (rename_case_transform files "camel") = length files
  /\ forall i file_path, files !! i = Some file_path ->
     exists w0 ws runs,
       length runs = length ws
       /\ Forall sep_run runs
       /\ Forall (fun w => Str.no_sep w = true) (w0 :: ws)
       /\ (forall k w, ws !! k = Some w -> S k < length ws -> w <> "")
       /\ interleave (w0 :: ws) runs = path_stem file_path
       /\ Forall (fun w => match w with
                           | EmptyString => Str.capitalize w = EmptyString
                           | String c r =>
                               Str.capitalize w = String (Str.upper_char c) (Str.lower r)
                           end) ws
       /\ rename_case_transform files "camel" !! i
          = Some ((Str.lower w0 +:+ Str.join (map Str.capitalize ws))
                  +:+ path_suffix file_path).
Proof.
  split; [apply length_map |].
  intros i file_path Hi.
  destruct (re_split_interleave (path_stem file_path)) as (runs & Hlen & Hruns & Hjoin).
  pose proof (re_split_words_no_sep (path_stem file_path)) as Hwords.
  pose proof (re_split_inner_words (path_stem file_path)) as Hinner.
  destruct (Str.re_split (path_stem file_path)) as [|w0 ws] eqn:Hsplit;
    [by apply re_split_nonempty in Hsplit |].
  exists w0, ws, runs. repeat split; try done.
  - intros k w Hk Hlt. apply (Hinner k w Hk). simpl. lia.
  - apply Forall_forall. by intros [|c r] _.
  - unfold rename_case_transform.
    change (map ?f files) with (f <$> files).
    rewrite list_lookup_fmap, Hi. simpl.
    by rewrite case_transform_camel; unfold camel; rewrite Hsplit.
Qed.

(** C8, as amended: when camel(s) contains no separator, applying the
    camel transform to camel(s) yields camel(s) lower-cased; it yields
    camel(s) again exactly when camel(s) holds no upper-case letter. *)
Theorem camel_of_camel_is_lowered (s : string) :
  Str.no_sep (case_transform "camel" s) = true ->
  case_transform "camel" (case_transform "camel" s)
  = Str.lower (case_transform "camel" s)
  /\ (case_transform "camel" (case_transform "camel" s) = case_transform "camel" s
      <-> no_upper (case_transform "camel" s) = true).
Proof.
  intros Hsep.
  rewrite (case_transform_camel (case_transform "camel" s)).
  rewrite (case_transform_camel s) in *.
  assert (camel (camel s) = Str.lower (camel s)) as Heq.
  { unfold camel at 1. rewrite (re_split_no_sep _ Hsep). simpl.
    apply string_app_nil_r. }
  split; [done |]. rewrite Heq. apply lower_fixed.
Qed.

(** ** The executor, one pair at a time *)

Section ExecutorSteps.
Context `{Platform}.
Implicit Types (s : State) (self : FileRenamer).

Ltac run :=
  unfold execute_rename_step, execute_rename_thread_step, log_message,
    try_except, bind, ret, raise, path_exists, path_rename, path_copy,
    path_mkdir, request, logging_log, datetime_now, operations_log_append,
    collision, target in *;
  simpl in *.

Lemma step_collision self o n s :
  collision (fs s) o n = true ->
  execute_rename_step self o n s
  = (set_logging (logging s ++ [(WARNING, "File già esistente: " +:+ n)]) s, inr false).
Proof. intros Hc. run. by rewrite Hc. Qed.

Lemma step_dry_run self o n s :
  collision (fs s) o n = false -> dry_run self = true ->
  exists s',
    execute_rename_step self o n s = (s', inr true)
    /\ fs s' = fs s /\ calls s' = calls s /\ clock s' = clock s
    /\ operations_log s'
       = operations_log s
         ++ [mkOperation (path_str o) (path_str (target o n))
                         (isoformat (clock s (reads s))) true None].
Proof. intros Hc Hd. run. rewrite Hc, Hd. simpl. by eexists. Qed.

Lemma step_renamed self o n s f :
  collision (fs s) o n = false -> dry_run self = false ->
  fs_rename (fs s) o (target o n) = inr f ->
  exists s',
    execute_rename_step self o n s = (s', inr true)
    /\ fs s' = f
    /\ calls s' = calls s ++ [SysRename (fs s) o (target o n)]
    /\ clock s' = clock s
    /\ operations_log s'
       = operations_log s
         ++ [mkOperation (path_str o) (path_str (target o n))
                         (isoformat (clock s (reads s))) true None].
Proof. intros Hc Hd Hr. run. rewrite Hc, Hd. simpl. rewrite Hr. simpl. by eexists. Qed.

Lemma step_failed self o n s e :
  collision (fs s) o n = false -> dry_run self = false ->
  fs_rename (fs s) o (target o n) = inl e ->
  exists s',
    execute_rename_step self o n s = (s', inr false)
    /\ fs s' = fs s
    /\ calls s' = calls s ++ [SysRename (fs s) o (target o n)]
    /\ clock s' = clock s
    /\ operations_log s'
       = operations_log s
         ++ [mkOperation (path_str o) n
                         (isoformat (clock s (reads s))) false (Some (exc_msg e))].
Proof. intros Hc Hd Hr. run. rewrite Hc, Hd. simpl. rewrite Hr. simpl. by eexists. Qed.

Lemma collision_false_safe (f : FS) o n :
  collision f o n = false -> safe_request (SysRename f o (target o n)).
Proof.
  unfold collision. simpl. intros Hc Hex. rewrite Hex in Hc. simpl in Hc.
  apply negb_false_iff in Hc. by apply bool_decide_eq_true in Hc.
Qed.

(** What one pass through the loop body does, whatever the case. *)
Lemma step_summary self o n s :
  exists s' counted new issued,
    execute_rename_step self o n s = (s', inr counted)
    /\ operations_log s' = operations_log s ++ new
    /\ calls s' = calls s ++ issued
    /\ clock s' = clock s
    /\ Forall safe_request issued
    /\ length (successes new) = (if counted then 1 else 0)
    /\ (counted = true ->
        exists r, new = [r] /\ op_success r = true /\ names_of r = named (o, n))
    /\ (collision (fs s) o n = true -> fs s' = fs s /\ issued = [] /\ new = [])
    /\ (dry_run self = true ->
        fs s' = fs s /\ issued = []
        /\ map names_of (successes new)
           = if collision (fs s) o n then [] else [named (o, n)]).
Proof.
  destruct (collision (fs s) o n) eqn:Hc.
  { rewrite (step_collision self o n s Hc).
    eexists _, false, [], []. simpl. rewrite !app_nil_r.
    repeat split; first [done | by constructor]. }
  destruct (dry_run self) eqn:Hd.
  { destruct (step_dry_run self o n s Hc Hd) as (s' & -> & Hfs & Hcalls & Hclock & Hops).
    eexists s', true, [_], []. rewrite app_nil_r.
    repeat split; try done. by eexists. }
  destruct (fs_rename (fs s) o (target o n)) as [e|f] eqn:Hr.
  - destruct (step_failed self o n s e Hc Hd Hr) as (s' & -> & Hfs & Hcalls & Hclock & Hops).
    eexists s', false, [_], [_].
    repeat split; try done.
    repeat constructor. by apply collision_false_safe.
  - destruct (step_renamed self o n s f Hc Hd Hr) as (s' & -> & Hfs & Hcalls & Hclock & Hops).
    eexists s', true, [_], [_].
    repeat split; try done.
    + repeat constructor. by apply collision_false_safe.
    + by eexists.
Qed.

(** The loop run on [l1 ++ l2] is the loop on [l1] followed by the loop on
    [l2], the count carried over. *)
Lemma execute_rename_loop_app self l1 l2 k s :
  execute_rename_loop self (l1 ++ l2) k s
  = bind (execute_rename_loop self l1 k) (execute_rename_loop self l2) s.
Proof.
  revert k s. induction l1 as [|[o n] l1 IH]; intros k s; simpl; [done |].
  unfold bind.
  destruct (execute_rename_step self o n s) as [s1 [e|counted]]; [done |].
  by rewrite IH.
Qed.

Lemma execute_rename_loop_summary self pairs k s :
  exists s' new issued,
    execute_rename_loop self pairs k s = (s', inr (k + length (successes new)))
    /\ operations_log s' = operations_log s ++ new
    /\ calls s' = calls s ++ issued
    /\ clock s' = clock s
    /\ Forall safe_request issued
    /\ length (successes new) <= length pairs
    /\ (length (successes new) = length pairs ->
        Forall (fun r => op_success r = true) new
        /\ map names_of new = map named pairs)
    /\ (dry_run self = true ->
        fs s' = fs s /\ issued = []
        /\ map names_of (successes new)
           = map named (List.filter (fun p => negb (collides (fs s) p)) pairs)).
Proof.
  revert k s. induction pairs as [|[o n] pairs IH]; intros k s; simpl.
  - exists s, [], []. rewrite !app_nil_r, Nat.add_0_r. repeat split; by constructor.
  - destruct (step_summary self o n s)
      as (s1 & counted & new1 & issued1 & Hrun & Hops & Hcalls & Hclock & Hsafe & Hcount
          & Hrec & _ & Hdry).
    unfold bind. rewrite Hrun.
    destruct (IH (if counted then S k else k) s1)
      as (s' & new2 & issued2 & -> & Hops2 & Hcalls2 & Hclock2 & Hsafe2 & Hle & Hall2
          & Hdry2).
    exists s', (new1 ++ new2), (issued1 ++ issued2).
    unfold successes in *. rewrite List.filter_app, length_app, Hcount.
    split; [f_equal; f_equal; destruct counted; lia |].
    split; [by rewrite Hops2, Hops, app_assoc |].
    split; [by rewrite Hcalls2, Hcalls, app_assoc |].
    split; [congruence |].
    split; [by apply Forall_app |].
    split; [destruct counted; lia |].
    split.
    { intros Hfull. destruct counted; [|lia].
      destruct (Hrec eq_refl) as (r & -> & Hr & Hnames).
      destruct Hall2 as [Hsucc2 Hnames2]; [lia |].
      split; [by constructor |]. simpl. by rewrite Hnames, Hnames2. }
    intros Hd.
    destruct (Hdry Hd) as (Hfs & -> & Hn), (Hdry2 Hd) as (Hfs2 & -> & Hn2).
    split; [congruence |]. split; [done |].
    rewrite map_app, Hn, Hn2, Hfs. unfold collides at 2. simpl.
    by destruct (collision (fs s) o n).
Qed.

(** *** The worker of the GUI *)

Ltac member_cases :=
  match goal with
  | Hel : _ ∈ _ |- _ =>
      repeat (apply elem_of_cons in Hel as [Hel|Hel]);
      first [by apply elem_of_nil in Hel | by simplify_eq]
  end.

Ltac gui_leaf := repeat split; first [done | member_cases].

Lemma gui_step_summary (gui : FileRenamerGUI) o n s :
  exists s' ok issued,
    execute_rename_thread_step gui o n s = (s', inr ok)
    /\ calls s' = calls s ++ issued
    /\ operations_log s' = operations_log s
    /\ clock s' = clock s
    /\ (collision (fs s) o n = true -> fs s' = fs s /\ issued = [] /\ ok = false)
    /\ (dry_run (renamer gui) = true ->
        fs s' = fs s /\ issued = [] /\ ok = negb (collision (fs s) o n))
    /\ (forall before src dst, SysRename before src dst ∈ issued ->
        src = o /\ dst = target o n /\ collision (fs s) o n = false).
Proof.
  run.
  destruct (fs_exists (fs s) (path_join (path_parent o) n)
            && negb (bool_decide (path_join (path_parent o) n = o))) eqn:Hc; simpl.
  { eexists _, false, []. rewrite app_nil_r. gui_leaf. }
  destruct (dry_run (renamer gui)) eqn:Hd; simpl.
  { eexists _, true, []. rewrite app_nil_r. gui_leaf. }
  destruct (backup_var gui); simpl.
  - destruct (fs_mkdir _ _) as [e1|f1]; simpl.
    { eexists _, false, [_]. gui_leaf. }
    destruct (fs_copy _ _ _) as [e2|f2]; simpl.
    { eexists _, false, [_; _]. rewrite <- app_assoc. gui_leaf. }
    destruct (fs_rename _ _ _) as [e3|f3]; simpl.
    + eexists _, false, [_; _; _]. rewrite <- !app_assoc. gui_leaf.
    + eexists _, true, [_; _; _]. rewrite <- !app_assoc. gui_leaf.
  - destruct (fs_rename _ _ _) as [e3|f3]; simpl.
    + eexists _, false, [_]. gui_leaf.
    + eexists _, true, [_]. gui_leaf.
Qed.

Lemma gui_loop_summary (gui : FileRenamerGUI) pairs sc ec s :
  exists s' counts issued,
    execute_rename_thread_loop gui pairs sc ec s = (s', inr counts)
    /\ calls s' = calls s ++ issued
    /\ operations_log s' = operations_log s
    /\ (dry_run (renamer gui) = true -> fs s' = fs s /\ issued = []).
Proof.
  revert sc ec s. induction pairs as [|[o n] pairs IH]; intros sc ec s; simpl.
  - exists s, (sc, ec), []. by rewrite app_nil_r.
  - destruct (gui_step_summary gui o n s)
      as (s1 & ok & issued1 & Hrun & Hcalls & Hops & _ & _ & Hdry & _).
    unfold bind. rewrite Hrun.
    destruct (IH (if ok then S sc else sc) (if ok then ec else S ec) s1)
      as (s' & counts & issued2 & Hrun2 & Hcalls2 & Hops2 & Hdry2).
    exists s', counts, (issued1 ++ issued2).
    split; [by destruct ok |].
    split; [by rewrite Hcalls2, Hcalls, app_assoc |].
    split; [congruence |].
    intros Hd. destruct (Hdry Hd) as (Hfs & -> & _), (Hdry2 Hd) as (Hfs2 & ->).
    split; [congruence | done].
Qed.

(** X13: the whole worker in a dry run.  The GUI never appends to the
    operations log of its renamer, so the log it may be asked to save is
    empty: the file system stays as it was and no request is issued. *)
Lemma execute_rename_thread_dry_run (gui : FileRenamerGUI) s :
  dry_run (renamer gui) = true ->
  operations_log s = [] ->
  fs (fst (execute_rename_thread gui s)) = fs s
  /\ calls (fst (execute_rename_thread gui s)) = calls s.
Proof.
  intros Hd Hempty. unfold execute_rename_thread, try_except, bind.
  destruct (gui_loop_summary gui (zip (files_to_process gui) (new_names gui)) 0 0 s)
    as (s1 & counts & issued & -> & Hcalls & Hops & Hdry).
  destruct (Hdry Hd) as (Hfs & ->). rewrite app_nil_r in Hcalls.
  assert ((if negb (bool_decide (log_format_var gui = "none"))
           then save_operations_log (log_format_var gui) else ret tt) s1
          = (s1, inr tt)) as ->.
  { destruct (negb _); [|done].
    unfold save_operations_log, bind, get_operations_log. by rewrite Hops, Hempty. }
  destruct (snd counts =? 0); unfold log_message, bind, datetime_now; simpl; done.
Qed.

(** ** The claims about the executor *)

(** X27: what the collision guard gives.  For
    [FileRenamer.execute_rename]: every request it issues is a safe one
    (no rename onto a path that exists at that moment and is not the
    source), and when the run reaches a pair that collides, it passes it
    with the file system and the request history as they were.  For the
    worker of the GUI: a pair that collides when it is examined issues no
    request and leaves the file system as it was, and a rename is issued
    only for a pair that did not collide when it was examined, at the
    start of its step. *)
Theorem execute_never_renames_onto_existing_target
    (self : FileRenamer) (gui : FileRenamerGUI)
    (files : list Path) (names : list string) (s : State) :
  (exists issued,
     calls (fst (execute_rename self files names s)) = calls s ++ issued
     /\ Forall safe_request issued)
  /\ (forall pre o n post,
        zip files names = pre ++ (o, n) :: post ->
        exists s1 k1 s2 k2,
          execute_rename_loop self pre 0 s = (s1, inr k1)
          /\ execute_rename_loop self (pre ++ [(o, n)]) 0 s = (s2, inr k2)
          /\ fst (execute_rename self files names s)
             = fst (execute_rename_loop self post k2 s2)
          /\ (collision (fs s1) o n = true ->
              fs s2 = fs s1 /\ calls s2 = calls s1 /\ k2 = k1))
  /\ (forall o n,
        exists s' ok issued,
          execute_rename_thread_step gui o n s = (s', inr ok)
          /\ calls s' = calls s ++ issued
          /\ (collision (fs s) o n = true -> fs s' = fs s /\ issued = [])
          /\ (forall before src dst, SysRename before src dst ∈ issued ->
              src = o /\ dst = target o n /\ collision (fs s) o n = false)).
Proof.
  split; [|split].
  - unfold execute_rename, bind.
    destruct (execute_rename_loop_summary self (zip files names) 0 s)
      as (s' & new & issued & -> & _ & Hcalls & _ & Hsafe & _).
    by exists issued.
  - intros pre o n post Hsplit.
    destruct (execute_rename_loop_summary self pre 0 s)
      as (s1 & new1 & issued1 & Hrun1 & _).
    destruct (step_summary self o n s1)
      as (s2 & counted & new2 & issued2 & Hstep & _ & Hcalls2 & _ & _ & Hcount & _ & Hcol & _).
    eexists s1, _, s2, _. split; [exact Hrun1 |].
    assert (execute_rename_loop self (pre ++ [(o, n)]) 0 s
            = (s2, inr (if counted then S (0 + length (successes new1))
                        else 0 + length (successes new1)))) as Hrun2.
    { rewrite execute_rename_loop_app. unfold bind at 1. rewrite Hrun1. simpl.
      unfold bind, ret. by rewrite Hstep. }
    split; [exact Hrun2 |]. split.
    + unfold execute_rename, bind at 1.
      rewrite Hsplit, (cons_middle (o, n) pre post), app_assoc.
      rewrite execute_rename_loop_app. unfold bind at 1. rewrite Hrun2.
      by destruct (execute_rename_loop self post _ s2) as [s3 [e|k3]].
    + intros Hc. destruct (Hcol Hc) as (Hfs & -> & ->).
      rewrite app_nil_r in Hcalls2. simpl in Hcount.
      repeat split; try done. by destruct counted.
  - intros o n.
    destruct (gui_step_summary gui o n s)
      as (s' & ok & issued & Hrun & Hcalls & _ & _ & Hcol & _ & Hren).
    exists s', ok, issued. split; [done |]. split; [done |]. split; [|done].
    intros Hc. by destruct (Hcol Hc) as (? & ? & _).
Qed.

(** C4: [execute_rename] returns, and it returns true exactly when every
    pair of the plan produced a successful record: the successful records
    it appended are as many as the pairs, which is to say that it
    appended one successful record for each pair, in order, and no other
    record. *)
Theorem execute_rename_true_iff_all_pairs_succeeded
    (self : FileRenamer) (files : list Path) (names : list string) (s : State) :
  length files = length names ->
  exists s' ok new,
    execute_rename self files names s = (s', inr ok)
    /\ operations_log s' = operations_log s ++ new
    /\ (ok = true <-> length (successes new) = length (zip files names))
    /\ (ok = true <->
        Forall (fun r => op_success r = true) new
        /\ map names_of new = map named (zip files names)).
Proof.
  intros Hlen. unfold execute_rename, bind, ret.
  destruct (execute_rename_loop_summary self (zip files names) 0 s)
    as (s' & new & issued & -> & Hops & _ & _ & _ & Hle & Hall & _).
  assert (length (zip files names) = length files) as Hzip.
  { rewrite length_zip_with. lia. }
  exists s', (length (successes new) =? length files), new.
  split; [done |]. split; [done |].
  rewrite Nat.eqb_eq, Hzip. split; [done |]. split.
  - intros Hn. apply Hall. lia.
  - intros [Hsucc Hnames]. rewrite <- Hzip.
    apply (f_equal length) in Hnames. rewrite !length_map in Hnames.
    rewrite <- Hnames. unfold successes. f_equal.
    clear -Hsucc. induction Hsucc as [|r l Hr _ IH]; simpl; [done |].
    by rewrite Hr, IH.
Qed.


End ExecutorSteps.

(** ** The operations log on disk *)

Section SaveLog.
Context `{Platform}.

(** C9: with an empty operations log [save_operations_log] returns at
    once, for every format: nothing is written, no directory is made, the
    clock is not read and no record goes to [logging]; the whole state is
    as it was. *)
Theorem save_operations_log_empty_changes_nothing
    (format_type : string) (s : State) :
  operations_log s = [] ->
  save_operations_log format_type s = (s, inr tt).
Proof.
  intros Hempty. unfold save_operations_log, bind, get_operations_log.
  by rewrite Hempty.
Qed.

(** C10: with a non-empty operations log and a format that is neither
    json nor csv, [save_operations_log] raises: the only request it
    issues makes the logs directory, no file is written and nothing is
    logged, and when that directory request succeeds the error is the
    [UnboundLocalError] of reading [log_file], which was never bound. *)
Theorem save_operations_log_unknown_format_raises
    (format_type : string) (s : State) :
  operations_log s <> [] ->
  format_type <> "json" ->
  format_type <> "csv" ->
  exists s' e,
    save_operations_log format_type s = (s', inl e)
    /\ calls s' = calls s ++ [SysMkdir (fs s) (path_of "logs")]
    /\ logging s' = logging s
    /\ operations_log s' = operations_log s
    /\ match fs_mkdir (fs s) (path_of "logs") with
       | inr f => fs s' = f /\ exc_type e = UnboundLocalError
       | inl e' => fs s' = fs s /\ e = e'
       end.
Proof.
  intros Hne Hjson Hcsv.
  unfold save_operations_log, bind, get_operations_log, path_mkdir, request,
    datetime_now, raise, ret.
  destruct (operations_log s) as [|r records] eqn:Hops; [done |].
  destruct (fs_mkdir (fs s) (path_of "logs")) as [e|f]; simpl.
  - eexists _, e. by repeat split.
  - rewrite (bool_decide_eq_false_2 _ Hjson), (bool_decide_eq_false_2 _ Hcsv). simpl.
    eexists _, _. by repeat split.
Qed.

End SaveLog.

(** ** The templated strategy and the clock *)

Section Templated.
Context `{Platform}.

Lemma rename_with_pattern_from_reads (pattern : string) files i acc s names :
  snd (rename_with_pattern_from pattern i files acc s) = inr names ->
  exists new,
    names = acc ++ new
    /\ length new = length files
    /\ forall j file_path, files !! j = Some file_path ->
       exists st_size new_name,
         fs_stat_size (fs s) file_path = inr st_size
         /\ new !! j = Some new_name
         /\ str_format pattern
              (pattern_fields (i + j) file_path st_size
                 (clock s (reads s + 2 * j)) (clock s (reads s + 2 * j + 1)))
            = inr new_name.
Proof.
  revert i acc s names.
  induction files as [|file_path files IH]; intros i acc s names; simpl.
  - intros [= <-]. exists []. by rewrite app_nil_r.
  - unfold bind, path_stat_size, datetime_now, format. simpl.
    destruct (fs_stat_size (fs s) file_path) as [e|st_size] eqn:Hstat; [done |].
    simpl.
    destruct (str_format pattern _) as [e|new_name] eqn:Hfmt; [done |].
    intros Hrun. apply IH in Hrun as (new & -> & Hlen & Hnew). simpl in Hnew.
    exists (new_name :: new). rewrite <- app_assoc. split; [done |].
    split; [simpl; by rewrite Hlen |].
    intros [|j] f Hj; simpl in *.
    + injection Hj as <-. exists st_size, new_name.
      rewrite !Nat.add_0_r. split; [done |]. split; [done |].
      by replace (reads s + 1) with (S (reads s)) by lia.
    + destruct (Hnew j f Hj) as (sz & nm & Hsz & Hnm & Hf).
      exists sz, nm. split; [done |]. split; [done |].
      replace (i + S j) with (S (i + j)) by lia.
      replace (reads s + S (j + S (j + 0))) with (S (S (reads s + (j + (j + 0)))))
        by lia.
      done.
Qed.

Lemma rename_with_pattern_from_stable (pattern : string) files i acc s s0 D T :
  fs s0 = fs s ->
  (forall k, k < 2 * length files ->
     strftime_Ymd (clock s (reads s + k)) = D
     /\ strftime_HMS (clock s (reads s + k)) = T) ->
  snd (rename_with_pattern_from pattern i files acc s)
  = snd (rename_with_pattern_stamped pattern D T i files acc s0).
Proof.
  revert i acc s s0.
  induction files as [|file_path files IH]; intros i acc s s0 Hfs Hstable; simpl;
    [done |].
  unfold bind, path_stat_size, datetime_now, format. simpl. rewrite Hfs.
  destruct (fs_stat_size (fs s) file_path) as [e|st_size]; [done |]. simpl.
  destruct (Hstable 0) as [HD _]; [simpl; lia |].
  destruct (Hstable 1) as [_ HT]; [simpl; lia |].
  rewrite Nat.add_0_r in HD. replace (reads s + 1) with (S (reads s)) in HT by lia.
  rewrite HD, HT.
  destruct (str_format pattern _) as [e|new_name]; [done |].
  apply IH; [done |]. simpl. intros k Hk.
  replace (S (S (reads s + k))) with (reads s + (2 + k)) by lia.
  apply Hstable. simpl. lia.
Qed.

(** C6, as amended: the templated strategy reads the wall clock twice for
    every file, once for the date and once for the time: the name of the
    file at position j is formatted with the date of reading 2j and the
    time of reading 2j+1 of the call.  The names of one call therefore
    carry the same date stamp and the same time stamp, those of a single
    reading at the start of the call, whenever the readings taken during
    the call all format to that date and that time. *)
Theorem rename_with_pattern_reads_clock_per_file
    (files : list Path) (pattern : string) (s : State) :
  (forall names,
     snd (rename_with_pattern files pattern s) = inr names ->
     length names = length files
     /\ forall j file_path, files !! j = Some file_path ->
        exists st_size new_name,
          fs_stat_size (fs s) file_path = inr st_size
          /\ names !! j = Some new_name
          /\ str_format pattern
               (pattern_fields (1 + j) file_path st_size
                  (clock s (reads s + 2 * j)) (clock s (reads s + 2 * j + 1)))
             = inr new_name)
  /\ ((forall k, k < 2 * length files ->
         strftime_Ymd (clock s (reads s + k)) = strftime_Ymd (clock s (reads s))
         /\ strftime_HMS (clock s (reads s + k)) = strftime_HMS (clock s (reads s))) ->
      snd (rename_with_pattern files pattern s)
      = snd (rename_with_pattern_once files pattern s)).
Proof.
  split.
  - intros names Hrun.
    apply rename_with_pattern_from_reads in Hrun as (new & -> & Hlen & Hnew).
    done.
  - intros Hstable. unfold rename_with_pattern, rename_with_pattern_once.
    unfold bind at 1, datetime_now. simpl.
    by apply rename_with_pattern_from_stable.
Qed.

End Templated.

(** ** Construction *)

(** [__init__] looks only at whether the path exists. *)
Lemma FileRenamer_init_checks_existence `{Platform}
    (directory : string) (flag : bool) (s : State) :
  snd (FileRenamer_init directory flag s)
  = if fs_exists (fs s) (path_of directory)
    then inr (mkFileRenamer _ (path_of directory) flag)
    else inl (mkExc FileNotFoundError ("Directory non trovata: " +:+ directory)).
Proof.
  unfold FileRenamer_init, bind, path_exists, raise, logging_log, ret. simpl.
  by destruct (fs_exists (fs s) (path_of directory)).
Qed.

(** * The model at work on the sample disk *)

Import Sample.

(** C7, the constructor on the path of a regular file: [/d/a.txt] is a
    file of the sample disk, not a directory, and [FileRenamer("/d/a.txt")]
    returns a renamer instead of raising. *)
Theorem FileRenamer_init_accepts_regular_file :
  disk !! a_txt = Some (Posix.File "aaa")
  /\ snd (FileRenamer_init "/d/a.txt" false (boot frozen))
     = inr (mkFileRenamer Posix.posix a_txt false)
  /\ exists e, snd (FileRenamer_init "/d/missing" false (boot frozen)) = inl e
               /\ exc_type e = FileNotFoundError.
Proof.
  split; [reflexivity |]. split; [reflexivity |].
  eexists. split; reflexivity.
Qed.

(** C1, the executor on a colliding pair: renaming [a.txt] to [b.txt]
    while [b.txt] exists is skipped with a warning, the result is false,
    the disk is untouched, and the operations log holds no record for the
    pair. *)
Theorem execute_rename_collision_leaves_no_record :
  collision disk a_txt "b.txt" = true
  /\ snd (execute_rename real_run [a_txt] ["b.txt"] (boot frozen)) = inr false
  /\ operations_log (fst (execute_rename real_run [a_txt] ["b.txt"] (boot frozen))) = []
  /\ logging (fst (execute_rename real_run [a_txt] ["b.txt"] (boot frozen)))
     = [(WARNING, "File già esistente: b.txt")]
  /\ fs (fst (execute_rename real_run [a_txt] ["b.txt"] (boot frozen))) = disk.
Proof. repeat split; reflexivity. Qed.

(** The sibling path: a rename that the file system refuses does leave a
    failed record in the operations log. *)
Example execute_rename_error_is_recorded :
  operations_log
    (fst (execute_rename real_run [Posix.parse "/d/gone.txt"] ["c.txt"] (boot frozen)))
  = [mkOperation "/d/gone.txt" "c.txt" "2024-03-05T10:00:00" false
       (Some "[Errno 2] No such file or directory: '/d/gone.txt'")].
Proof. by vm_compute. Qed.



Example dry_run_records_only_free_pairs :
  map names_of
    (operations_log (fst (execute_rename dry [a_txt; b_txt] ["b.txt"; "c.txt"] (boot frozen))))
  = [("/d/b.txt", "/d/c.txt")].
Proof. by vm_compute. Qed.

Lemma never_onto_existing_target_witness :
  zip [a_txt; b_txt] ["b.txt"; "c.txt"] = [] ++ (a_txt, "b.txt") :: [(b_txt, "c.txt")]
  /\ collision (fs (boot frozen)) a_txt "b.txt" = true
  /\ fs (fst (execute_rename_loop real_run ([] ++ [(a_txt, "b.txt")]) 0 (boot frozen)))
     = fs (boot frozen).
Proof.
  split; [reflexivity |]. split; [by vm_compute |].
  destruct (@execute_never_renames_onto_existing_target Posix.posix
              real_run (window false real_run)
              [a_txt; b_txt] ["b.txt"; "c.txt"] (boot frozen))
    as (_ & Hpair & _).
  destruct (Hpair [] a_txt "b.txt" [(b_txt, "c.txt")] eq_refl)
    as (s1 & k1 & s2 & k2 & Hrun1 & Hrun2 & _ & Hsame).
  injection Hrun1 as <- <-.
  apply (eq_trans (f_equal (fun r => fs (fst r)) Hrun2)).
  apply Hsame. reflexivity.
Defined.

Example rename_chain_runs_in_order :
  snd (execute_rename real_run [b_txt; a_txt] ["c.txt"; "b.txt"] (boot frozen)) = inr true
  /\ snd (execute_rename real_run [a_txt; b_txt] ["b.txt"; "c.txt"] (boot frozen)) = inr false.
Proof. split; by vm_compute. Qed.

Lemma overall_success_witness :
  length [b_txt; a_txt] = length ["c.txt"; "b.txt"]
  /\ exists s' ok new,
       execute_rename real_run [b_txt; a_txt] ["c.txt"; "b.txt"] (boot frozen)
       = (s', inr ok)
       /\ operations_log s' = operations_log (boot frozen) ++ new
       /\ (ok = true <->
           length (successes new) = length (zip [b_txt; a_txt] ["c.txt"; "b.txt"]))
       /\ (ok = true <->
           Forall (fun r => op_success r = true) new
           /\ map names_of new = map named (zip [b_txt; a_txt] ["c.txt"; "b.txt"])).
Proof.
  split; [reflexivity |].
  apply (@execute_rename_true_iff_all_pairs_succeeded Posix.posix
           real_run [b_txt; a_txt] ["c.txt"; "b.txt"] (boot frozen)).
  reflexivity.
Defined.

(** A plan with fewer names than files breaks the invariant of a plan:
    [zip] drops the files without a name, and the result is false even
    though every pair that ran succeeded. *)
Example fewer_names_than_files :
  snd (execute_rename real_run [b_txt; a_txt] ["c.txt"] (boot frozen)) = inr false
  /\ map op_success
       (operations_log (fst (execute_rename real_run [b_txt; a_txt] ["c.txt"] (boot frozen))))
     = [true].
Proof. split; by vm_compute. Qed.

(** The worker of the GUI on the colliding pair: nothing is renamed, and
    its log widget gets one warning line for the pair. *)
Example gui_collision_is_reported :
  snd (execute_rename_thread_step (window false real_run) a_txt "b.txt" (boot frozen))
  = inr false
  /\ log_text (fst (execute_rename_thread_step (window false real_run) a_txt "b.txt"
                      (boot frozen)))
     = ["[10:00:00] WARNING: Conflitto: b.txt già esistente" +:+ newline]
  /\ fs (fst (execute_rename_thread_step (window false real_run) a_txt "b.txt"
                (boot frozen))) = disk.
Proof. repeat split; reflexivity. Qed.

(** The worker with a backup requested, on a platform whose paths can be
    copied: the copy lands in the backup directory before the rename. *)
Example gui_backup_then_rename :
  snd (execute_rename_thread_step (window true real_run) a_txt "c.txt" (boot frozen))
  = inr true
  /\ fs (fst (execute_rename_thread_step (window true real_run) a_txt "c.txt"
                (boot frozen))) !! Posix.parse "/d/backup/a.txt"
     = Some (Posix.File "aaa")
  /\ fs (fst (execute_rename_thread_step (window true real_run) a_txt "c.txt"
                (boot frozen))) !! Posix.parse "/d/c.txt"
     = Some (Posix.File "aaa")
  /\ fs (fst (execute_rename_thread_step (window true real_run) a_txt "c.txt"
                (boot frozen))) !! a_txt
     = None.
Proof. repeat split; reflexivity. Qed.

(** With a backup requested the target is examined before the backup copy
    is made: a proposed name that points at the place of the backup copy
    passes the guard, and the rename then lands on the copy just made. *)
Example gui_backup_copy_at_the_target :
  collision disk a_txt "backup/a.txt" = false
  /\ snd (execute_rename_thread_step (window true real_run) a_txt "backup/a.txt"
             (boot frozen)) = inr true
  /\ match List.last (calls (fst (execute_rename_thread_step (window true real_run)
                                    a_txt "backup/a.txt" (boot frozen))))
                     (SysMkdir disk d) with
     | SysRename before src dst =>
         bool_decide (src = a_txt) && bool_decide (dst = Posix.parse "/d/backup/a.txt")
         && fs_exists before dst
     | _ => false
     end = true.
Proof. repeat split; reflexivity. Qed.

(** C3, on the worker of the GUI with a backup requested: the claim
    fails.  The template [backup/{name}{ext}] proposes [backup/a.txt] for
    [a.txt]; the guard finds that target absent; the worker then makes the
    backup directory, copies [a.txt] to [backup/a.txt] and renames [a.txt]
    onto that copy: a rename onto a path that exists at that moment and is
    not the original.  The worker counts the pair as a success and the
    backup copy is gone.  Without the backup option the same plan issues
    safe requests only. *)
Theorem worker_renames_onto_its_backup_copy :
  snd (rename_with_pattern [a_txt] "backup/{name}{ext}" (boot frozen))
  = inr (new_names backup_window)
  /\ collision disk a_txt "backup/a.txt" = false
  /\ (exists f1 f2,
        calls (fst (execute_rename_thread backup_window (boot frozen)))
        = [SysMkdir disk (Posix.parse "/d/backup");
           SysCopy f1 a_txt (Posix.parse "/d/backup/a.txt");
           SysRename f2 a_txt (Posix.parse "/d/backup/a.txt")]
        /\ fs_exists f2 (Posix.parse "/d/backup/a.txt") = true
        /\ Posix.parse "/d/backup/a.txt" <> a_txt)
  /\ ~ Forall safe_request (calls (fst (execute_rename_thread backup_window (boot frozen))))
  /\ snd (execute_rename_thread_loop backup_window [(a_txt, "backup/a.txt")] 0 0
             (boot frozen)) = inr (1, 0)
  /\ fs (fst (execute_rename_thread backup_window (boot frozen))) !! a_txt = None
  /\ Forall safe_request
       (calls (fst (execute_rename_thread_loop (window false real_run)
                      [(a_txt, "backup/a.txt")] 0 0 (boot frozen)))).
Proof.
  assert (exists f1 f2,
            calls (fst (execute_rename_thread backup_window (boot frozen)))
            = [SysMkdir disk (Posix.parse "/d/backup");
               SysCopy f1 a_txt (Posix.parse "/d/backup/a.txt");
               SysRename f2 a_txt (Posix.parse "/d/backup/a.txt")]
            /\ fs_exists f2 (Posix.parse "/d/backup/a.txt") = true
            /\ Posix.parse "/d/backup/a.txt" <> a_txt) as Hcalls.
  { eexists _, _. split; [reflexivity |]. split; [reflexivity | discriminate]. }
  split; [by vm_compute |]. split; [reflexivity |]. split; [exact Hcalls |].
  split; [|split; [by vm_compute | split; [reflexivity |]]].
  - destruct Hcalls as (f1 & f2 & -> & Hex & Hne). intros Hsafe.
    apply Forall_cons in Hsafe as [_ Hsafe]. apply Forall_cons in Hsafe as [_ Hsafe].
    apply Forall_cons in Hsafe as [Hsafe _]. by apply Hne, Hsafe.
  - repeat constructor. simpl. discriminate.
Qed.

(** ** The case transforms on samples *)

Example case_transform_modes :
  rename_case_transform [Posix.parse "/d/My_File-nAME.TXT"] "lower" = ["my_file-name.TXT"]
  /\ rename_case_transform [Posix.parse "/d/My_File-nAME.TXT"] "upper" = ["MY_FILE-NAME.TXT"]
  /\ rename_case_transform [Posix.parse "/d/My_File-nAME.TXT"] "title" = ["My_File-Name.TXT"]
  /\ rename_case_transform [Posix.parse "/d/My_File-nAME.TXT"] "camel" = ["myFileName.TXT"]
  /\ rename_case_transform [Posix.parse "/d/My_File-nAME.TXT"] "snake" = ["My_File-nAME.TXT"].
Proof. repeat split; by vm_compute. Qed.

(** C5, as stated, fails: for the file [foo_BAR.txt] the code proposes
    [fooBar.txt], the remainder of the segment BAR lower-cased, where the
    transform that leaves the remainder unchanged gives [fooBAR.txt]. *)
Lemma camel_keeps_remainder_counterexample :
  rename_case_transform [Posix.parse "/d/foo_BAR.txt"] "camel" = ["fooBar.txt"]
  /\ camel_as_specified (path_stem (Posix.parse "/d/foo_BAR.txt"))
     +:+ path_suffix (Posix.parse "/d/foo_BAR.txt") = "fooBAR.txt"
  /\ rename_case_transform [Posix.parse "/d/foo_BAR.txt"] "camel"
     <> [camel_as_specified (path_stem (Posix.parse "/d/foo_BAR.txt"))
         +:+ path_suffix (Posix.parse "/d/foo_BAR.txt")].
Proof. repeat split; by vm_compute. Qed.

Lemma camel_transform_witness :
  [Posix.parse "/d/my_file-NAME.txt"] !! 0 = Some (Posix.parse "/d/my_file-NAME.txt")
  /\ exists w0 ws runs,
       length runs = length ws
       /\ Forall sep_run runs
       /\ Forall (fun w => Str.no_sep w = true) (w0 :: ws)
       /\ (forall k w, ws !! k = Some w -> S k < length ws -> w <> "")
       /\ interleave (w0 :: ws) runs = path_stem (Posix.parse "/d/my_file-NAME.txt")
       /\ Forall (fun w => match w with
                           | EmptyString => Str.capitalize w = EmptyString
                           | String c r =>
                               Str.capitalize w = String (Str.upper_char c) (Str.lower r)
                           end) ws
       /\ rename_case_transform [Posix.parse "/d/my_file-NAME.txt"] "camel" !! 0
          = Some ((Str.lower w0 +:+ Str.join (map Str.capitalize ws))
                  +:+ path_suffix (Posix.parse "/d/my_file-NAME.txt")).
Proof.
  split; [reflexivity |].
  destruct (@camel_transform_lowers_segment_remainder Posix.posix
              [Posix.parse "/d/my_file-NAME.txt"]) as [_ Hnames].
  apply (Hnames 0). reflexivity.
Defined.

Example camel_transform_on_sample :
  rename_case_transform [Posix.parse "/d/my_file-NAME.txt"] "camel" = ["myFileName.txt"].
Proof. by vm_compute. Qed.

(** C8, as stated, fails: camel of [foo_bar] is [fooBar], which holds no
    separator, and camel of [fooBar] is [foobar], not [fooBar]. *)
Lemma camel_not_idempotent_counterexample :
  case_transform "camel" "foo_bar" = "fooBar"
  /\ Str.no_sep (case_transform "camel" "foo_bar") = true
  /\ case_transform "camel" (case_transform "camel" "foo_bar") = "foobar"
  /\ case_transform "camel" (case_transform "camel" "foo_bar")
     <> case_transform "camel" "foo_bar".
Proof. repeat split; by vm_compute. Qed.

Lemma camel_of_camel_witness :
  Str.no_sep (case_transform "camel" "foo_bar") = true
  /\ case_transform "camel" (case_transform "camel" "foo_bar")
     = Str.lower (case_transform "camel" "foo_bar").
Proof.
  split; [reflexivity |].
  apply (camel_of_camel_is_lowered "foo_bar"). reflexivity.
Defined.

(** C6, as stated, fails: with a clock that advances between readings, one
    call over [a.txt] and [b.txt] stamps the first name 10-00-01 and the
    second 10-00-03, where a single reading per call would stamp both
    10-00-00. *)
Lemma stamps_differ_within_one_call_counterexample :
  snd (rename_with_pattern [a_txt; b_txt] "{name}_{time}{ext}" (boot ticking))
  = inr ["a_10-00-01.txt"; "b_10-00-03.txt"]
  /\ snd (rename_with_pattern_once [a_txt; b_txt] "{name}_{time}{ext}" (boot ticking))
     = inr ["a_10-00-00.txt"; "b_10-00-00.txt"]
  /\ snd (rename_with_pattern [a_txt; b_txt] "{name}_{time}{ext}" (boot ticking))
     <> snd (rename_with_pattern_once [a_txt; b_txt] "{name}_{time}{ext}" (boot ticking)).
Proof. repeat split; by vm_compute. Qed.

Lemma stamps_agree_on_still_clock_witness :
  (forall k, k < 2 * length [a_txt; b_txt] ->
     strftime_Ymd (clock (boot frozen) (reads (boot frozen) + k))
     = strftime_Ymd (clock (boot frozen) (reads (boot frozen)))
     /\ strftime_HMS (clock (boot frozen) (reads (boot frozen) + k))
        = strftime_HMS (clock (boot frozen) (reads (boot frozen))))
  /\ snd (rename_with_pattern [a_txt; b_txt] "{name}_{date}_{time}{ext}" (boot frozen))
     = snd (rename_with_pattern_once [a_txt; b_txt] "{name}_{date}_{time}{ext}"
              (boot frozen)).
Proof.
  assert (forall k, k < 2 * length [a_txt; b_txt] ->
            strftime_Ymd (clock (boot frozen) (reads (boot frozen) + k))
            = strftime_Ymd (clock (boot frozen) (reads (boot frozen)))
            /\ strftime_HMS (clock (boot frozen) (reads (boot frozen) + k))
               = strftime_HMS (clock (boot frozen) (reads (boot frozen)))) as Hstill.
  { intros k _. split; reflexivity. }
  split; [exact Hstill |].
  destruct (@rename_with_pattern_reads_clock_per_file Posix.posix
              [a_txt; b_txt] "{name}_{date}_{time}{ext}" (boot frozen)) as [_ Hsame].
  exact (Hsame Hstill).
Defined.

Example templated_names_on_still_clock :
  snd (rename_with_pattern [a_txt; b_txt] "{counter}_{name}_{date}_{size}{ext}" (boot frozen))
  = inr ["001_a_2024-03-05_3.0 B.txt"; "002_b_2024-03-05_2.0 B.txt"].
Proof. by vm_compute. Qed.

Lemma save_empty_log_witness :
  operations_log (boot frozen) = []
  /\ save_operations_log "json" (boot frozen) = (boot frozen, inr tt).
Proof.
  split; [reflexivity |].
  apply (@save_operations_log_empty_changes_nothing Posix.posix "json" (boot frozen)).
  reflexivity.
Defined.

Lemma save_unknown_format_witness :
  operations_log (set_operations_log [one_record] (boot frozen)) <> []
  /\ "xml" <> "json"
  /\ "xml" <> "csv"
  /\ exists s' e,
       save_operations_log "xml" (set_operations_log [one_record] (boot frozen))
       = (s', inl e).
Proof.
  assert (operations_log (set_operations_log [one_record] (boot frozen)) <> [])
    as Hlog by discriminate.
  assert ("xml" <> "json") as Hjson by discriminate.
  assert ("xml" <> "csv") as Hcsv by discriminate.
  split; [exact Hlog |]. split; [exact Hjson |]. split; [exact Hcsv |].
  destruct (@save_operations_log_unknown_format_raises Posix.posix
              "xml" (set_operations_log [one_record] (boot frozen)) Hlog Hjson Hcsv)
    as (s' & e & Hrun & _).
  by exists s', e.
Defined.

Example save_unknown_format_on_sample :
  snd (save_operations_log "xml" (set_operations_log [one_record] (boot frozen)))
  = inl (mkExc UnboundLocalError
           "cannot access local variable 'log_file' where it is not associated with a value")
  /\ fs (fst (save_operations_log "xml" (set_operations_log [one_record] (boot frozen))))
     = <[Posix.parse "logs" := Posix.Dir]> disk.
Proof. split; reflexivity. Qed.

Example save_json_on_sample :
  snd (save_operations_log "json" (set_operations_log [one_record] (boot frozen)))
  = inr tt
  /\ fs (fst (save_operations_log "json" (set_operations_log [one_record] (boot frozen))))
     !! Posix.parse "logs/operations_log_20240305_100000.json"
     = Some (Posix.File (Posix.json_text [one_record])).
Proof. split; reflexivity. Qed.

(** * More properties *)

(** ** Decimal numbers in names *)

Lemma zeros_S (k : nat) : zeros (S k) = String "0"%char (zeros k).
Proof. by destruct k. Qed.

Lemma zfill_zeros (w : nat) (s : string) :
  Str.zfill w s = zeros (w - String.length s) +:+ s.
Proof. reflexivity. Qed.

Lemma pretty_N_char_digit (x : N) : isdigit (pretty_N_char x) = true.
Proof. unfold pretty_N_char. by repeat case_match. Qed.

Lemma pretty_N_go_digits (x : N) (s : string) :
  all_digits s = true -> all_digits (pretty_N_go x s) = true.
Proof.
  revert s. induction (N.lt_wf_0 x) as [x _ IH]; intros s Hs.
  destruct (decide (x = 0)%N) as [->|Hx]; [by rewrite pretty_N_go_0 |].
  rewrite pretty_N_go_step by lia. apply IH.
  - apply N.div_lt; lia.
  - simpl. by rewrite pretty_N_char_digit.
Qed.

(** The first digit of a positive number is not a zero. *)
Lemma pretty_N_go_leading (x : N) (s : string) :
  (0 < x)%N ->
  exists c r, pretty_N_go x s = String c r /\ c <> "0"%char.
Proof.
  revert s. induction (N.lt_wf_0 x) as [x _ IH]; intros s Hx.
  rewrite pretty_N_go_step by done.
  destruct (decide (x `div` 10 = 0)%N) as [Hd|Hd].
  - rewrite Hd, pretty_N_go_0. eexists _, _. split; [done |].
    assert (x < 10)%N as Hlt by (by apply N.div_small_iff).
    rewrite N.mod_small by done.
    assert (x = 1 \/ x = 2 \/ x = 3 \/ x = 4 \/ x = 5 \/ x = 6
            \/ x = 7 \/ x = 8 \/ x = 9)%N as Hcases by lia.
    repeat (destruct Hcases as [->|Hcases]; [done |]). by subst.
  - apply IH.
    + apply N.div_lt; [done | reflexivity].
    + apply N.neq_0_lt_0. exact Hd.
Qed.

Lemma pretty_N_digits (n : N) : all_digits (pretty n) = true.
Proof.
  unfold pretty, pretty_N. case_decide; [done |]. by apply pretty_N_go_digits.
Qed.

Lemma pretty_N_nonempty (n : N) : pretty n <> "".
Proof.
  unfold pretty, pretty_N. case_decide; [done |].
  destruct (pretty_N_go_leading n "") as (c & r & -> & _); [lia | done].
Qed.

(** Decimal numerals carry no leading zero: only zero starts with one. *)
Lemma pretty_N_leading (n : N) (r : string) :
  pretty n = String "0"%char r -> r = "".
Proof.
  unfold pretty, pretty_N. case_decide; [by intros [= <-] |].
  destruct (pretty_N_go_leading n "") as (c & r' & -> & Hc); [lia |].
  by intros [= ? ?].
Qed.

Lemma zeros_app_inj (k1 k2 : nat) (p1 p2 : string) :
  (forall r, p1 = String "0"%char r -> r = "") ->
  (forall r, p2 = String "0"%char r -> r = "") ->
  p1 <> "" -> p2 <> "" ->
  zeros k1 +:+ p1 = zeros k2 +:+ p2 -> p1 = p2.
Proof.
  intros H1 H2 Hn1 Hn2. revert k2.
  induction k1 as [|k1 IH]; intros [|k2]; rewrite ?zeros_S; simpl.
  - done.
  - intros Heq. rewrite string_app_empty, string_app_cons in Heq.
    pose proof (H1 _ Heq) as Hr.
    destruct (zeros k2), p2; try done.
  - intros Heq. rewrite string_app_empty, string_app_cons in Heq. symmetry in Heq.
    pose proof (H2 _ Heq) as Hr.
    destruct (zeros k1), p1; try done.
  - rewrite !string_app_cons. intros [= Heq]. by apply (IH k2).
Qed.

Lemma zfill_pretty_inj (w : nat) (a b : N) :
  Str.zfill w (pretty a) = Str.zfill w (pretty b) -> a = b.
Proof.
  rewrite !zfill_zeros. intros Heq.
  apply (inj pretty).
  exact (zeros_app_inj _ _ _ _ (pretty_N_leading a) (pretty_N_leading b)
           (pretty_N_nonempty a) (pretty_N_nonempty b) Heq).
Qed.

Lemma all_digits_no_dot (s : string) : all_digits s = true -> no_dot s = true.
Proof.
  induction s as [|c r IH]; simpl; [done |].
  intros [Hc Hr]%andb_prop. rewrite (IH Hr), andb_true_r.
  apply negb_true_iff, bool_decide_eq_false. intros ->. done.
Qed.

Lemma all_digits_app (a b : string) :
  all_digits a = true -> all_digits b = true -> all_digits (a +:+ b) = true.
Proof.
  induction a as [|c r IH]; [done |].
  rewrite string_app_cons. simpl.
  intros [Hc Hr]%andb_prop Hb. by rewrite Hc, IH.
Qed.

Lemma zeros_digits (k : nat) : all_digits (zeros k) = true.
Proof. induction k as [|k IH]; [done |]. rewrite zeros_S. simpl. by rewrite IH. Qed.

Lemma zfill_pretty_digits (w : nat) (n : N) :
  all_digits (Str.zfill w (pretty n)) = true.
Proof.
  rewrite zfill_zeros. apply all_digits_app; auto using zeros_digits, pretty_N_digits.
Qed.

Lemma format_03d_no_dot (number : Z) : no_dot (format_03d number) = true.
Proof.
  destruct number as [|p|p]; unfold format_03d;
    rewrite ?string_app_cons, ?string_app_empty; simpl;
    first [done | apply all_digits_no_dot, zfill_pretty_digits].
Qed.

(** Two numbers are formatted alike only when they are equal. *)
Lemma format_03d_inj (a b : Z) : format_03d a = format_03d b -> a = b.
Proof.
  assert (forall w (n : N) r, Str.zfill w (pretty n) <> String "-"%char r) as Hdash.
  { intros w n r Heq. pose proof (zfill_pretty_digits w n) as Hd.
    rewrite Heq in Hd. done. }
  unfold format_03d.
  destruct a as [|p|p], b as [|q|q];
    rewrite ?string_app_cons, ?string_app_empty; intros Heq;
    try (by apply Hdash in Heq); try (symmetry in Heq; by apply Hdash in Heq).
  - done.
  - apply zfill_pretty_inj in Heq. done.
  - apply zfill_pretty_inj in Heq. done.
  - apply zfill_pretty_inj in Heq. simpl in Heq. by injection Heq as ->.
  - injection Heq as Heq. apply zfill_pretty_inj in Heq. by injection Heq as ->.
Qed.

(** A text that ends in a suffix is cut in one way only, when what
    precedes the suffix holds no dot. *)
Lemma suffix_cut_unique (a b e1 e2 : string) :
  no_dot a = true -> no_dot b = true ->
  suffix_shape e1 -> suffix_shape e2 ->
  a +:+ e1 = b +:+ e2 -> a = b /\ e1 = e2.
Proof.
  revert b. induction a as [|c a IH]; intros [|c' b] Ha Hb He1 He2;
    rewrite ?string_app_cons, ?string_app_empty.
  - done.
  - intros ->. simpl in Hb. destruct He1 as [He|[r He]]; [done |].
    injection He as -> _. by rewrite bool_decide_eq_true_2 in Hb.
  - intros <-. simpl in Ha. destruct He2 as [He|[r He]]; [done |].
    injection He as -> _. by rewrite bool_decide_eq_true_2 in Ha.
  - simpl in Ha, Hb. apply andb_prop in Ha as [_ Ha], Hb as [_ Hb].
    intros [= -> Heq]. destruct (IH b Ha Hb He1 He2 Heq) as [-> ->]. done.
Qed.

(** ** The sequential strategy *)

Section SequentialProps.
Context `{Platform}.

Lemma rename_sequential_from_imap (base_name : string) (start_num : Z) files i acc :
  rename_sequential_from base_name start_num i files acc
  = acc ++ imap (fun j file_path =>
                   base_name +:+ "_" +:+ format_03d (start_num + Z.of_nat (i + j))
                   +:+ path_suffix file_path) files.
Proof.
  revert i acc. induction files as [|f files IH]; intros i acc; simpl.
  - by rewrite app_nil_r.
  - rewrite IH, <- app_assoc. simpl. rewrite Nat.add_0_r. do 2 f_equal.
    apply imap_ext. intros j x _. simpl. do 4 f_equal. lia.
Qed.

Lemma rename_sequential_imap (files : list Path) (base_name : string) (start_num : Z) :
  rename_sequential files base_name start_num
  = imap (fun j file_path =>
            base_name +:+ "_" +:+ format_03d (start_num + Z.of_nat j)
            +:+ path_suffix file_path) files.
Proof. unfold rename_sequential. by rewrite rename_sequential_from_imap. Qed.

(** X1: the sequential strategy proposes one name per file, in order, and
    the name at position i is the base name, an underscore, the number
    [start_num + i] written with at least three digits, and the suffix of
    the file at position i. *)
Theorem rename_sequential_numbers_in_order
    (files : list Path) (base_name : string) (start_num : Z) :
  length (rename_sequential files base_name start_num) = length files
  /\ forall i file_path, files !! i = Some file_path ->
     rename_sequential files base_name start_num !! i
     = Some (base_name +:+ "_" +:+ format_03d (start_num + Z.of_nat i)
             +:+ path_suffix file_path).
Proof.
  rewrite rename_sequential_imap.
  split; [apply length_imap |].
  intros i f Hi. by rewrite list_lookup_imap, Hi.
Qed.

(** X2: when the suffixes of the files have the shape [pathlib] gives
    them (empty, or starting with a dot), the sequential strategy never
    proposes the same name twice. *)
Theorem rename_sequential_proposes_distinct_names
    (files : list Path) (base_name : string) (start_num : Z) :
  Forall (fun file_path => suffix_shape (path_suffix file_path)) files ->
  NoDup (rename_sequential files base_name start_num).
Proof.
  intros Hshape. apply NoDup_alt. intros i j name Hi Hj.
  rewrite rename_sequential_imap, list_lookup_imap in Hi, Hj.
  destruct (files !! i) as [fi|] eqn:Hfi; [|done].
  destruct (files !! j) as [fj|] eqn:Hfj; [|done].
  simpl in Hi, Hj.
  injection Hi as <-. injection Hj as Heq.
  apply (inj (String.app base_name)) in Heq.
  rewrite !string_app_cons, !string_app_empty in Heq. injection Heq as Heq.
  rewrite Forall_forall in Hshape.
  apply suffix_cut_unique in Heq as [Heq _].
  - apply format_03d_inj in Heq. lia.
  - apply format_03d_no_dot.
  - apply format_03d_no_dot.
  - apply Hshape. by eapply list_elem_of_lookup_2.
  - apply Hshape. by eapply list_elem_of_lookup_2.
Qed.

End SequentialProps.

(** ** The case transforms *)

Lemma lower_char_cases (c : ascii) :
  Str.lower_char (Str.lower_char c) = Str.lower_char c
  /\ Str.lower_char (Str.upper_char c) = Str.lower_char c
  /\ Str.upper_char (Str.upper_char c) = Str.upper_char c
  /\ Str.upper_char (Str.lower_char c) = Str.upper_char c
  /\ StrTitle.iscased (Str.lower_char c) = StrTitle.iscased c
  /\ StrTitle.iscased (Str.upper_char c) = StrTitle.iscased c
  /\ Str.is_sep (Str.lower_char c) = Str.is_sep c
  /\ Str.is_sep (Str.upper_char c) = Str.is_sep c.
Proof. destruct c as [[] [] [] [] [] [] [] []]; vm_compute; by repeat split. Qed.

Lemma lower_lower (s : string) : Str.lower (Str.lower s) = Str.lower s.
Proof.
  induction s as [|c r IH]; simpl; [done |].
  by rewrite IH, (proj1 (lower_char_cases c)).
Qed.

Lemma lower_upper (s : string) : Str.lower (Str.upper s) = Str.lower s.
Proof.
  induction s as [|c r IH]; simpl; [done |].
  destruct (lower_char_cases c) as (_ & -> & _). by rewrite IH.
Qed.

Lemma upper_upper (s : string) : Str.upper (Str.upper s) = Str.upper s.
Proof.
  induction s as [|c r IH]; simpl; [done |].
  destruct (lower_char_cases c) as (_ & _ & -> & _). by rewrite IH.
Qed.

Lemma upper_lower (s : string) : Str.upper (Str.lower s) = Str.upper s.
Proof.
  induction s as [|c r IH]; simpl; [done |].
  destruct (lower_char_cases c) as (_ & _ & _ & -> & _). by rewrite IH.
Qed.

Lemma title_from_title_from (b : bool) (s : string) :
  StrTitle.title_from b (StrTitle.title_from b s) = StrTitle.title_from b s.
Proof.
  revert b. induction s as [|c r IH]; intros b; simpl; [done |].
  destruct (lower_char_cases c) as (Hll & _ & Huu & _ & Hcl & Hcu & _).
  destruct b; [rewrite Hll, Hcl | rewrite Huu, Hcu]; by rewrite IH.
Qed.

Lemma lower_title_from (b : bool) (s : string) :
  Str.lower (StrTitle.title_from b s) = Str.lower s.
Proof.
  revert b. induction s as [|c r IH]; intros b; simpl; [done |].
  destruct (lower_char_cases c) as (Hll & Hlu & _).
  rewrite IH. by destruct b; [rewrite Hll | rewrite Hlu].
Qed.

Lemma length_lower (s : string) : String.length (Str.lower s) = String.length s.
Proof. induction s as [|c r IH]; simpl; [done | by rewrite IH]. Qed.

Lemma length_upper (s : string) : String.length (Str.upper s) = String.length s.
Proof. induction s as [|c r IH]; simpl; [done | by rewrite IH]. Qed.

Lemma length_title_from (b : bool) (s : string) :
  String.length (StrTitle.title_from b s) = String.length s.
Proof. revert b. induction s as [|c r IH]; intros b; simpl; [done | by rewrite IH]. Qed.

Lemma case_transform_not_camel (transform s : string) :
  transform <> "camel" ->
  case_transform transform s
  = if bool_decide (transform = "lower") then Str.lower s
    else if bool_decide (transform = "upper") then Str.upper s
    else if bool_decide (transform = "title") then StrTitle.title s
    else s.
Proof.
  intros Hc. unfold case_transform. by rewrite (bool_decide_eq_false_2 _ Hc).
Qed.

(** X3: on an ASCII stem every mode of the case transform other than
    camel, the unknown modes included, only changes the case of letters:
    the new stem has the length of the old one and is equal to it once
    both are lower-cased; and applying the mode twice gives what applying
    it once gives.  (Beyond ASCII the case mappings of Python can change
    the length, as for the sharp s.) *)
Theorem case_transform_changes_case_only (transform s : string) :
  isascii s = true ->
  transform <> "camel" ->
  String.length (case_transform transform s) = String.length s
  /\ Str.lower (case_transform transform s) = Str.lower s
  /\ case_transform transform (case_transform transform s)
     = case_transform transform s.
Proof.
  intros _ Hc. rewrite !(case_transform_not_camel transform) by done.
  repeat case_bool_decide.
  - by rewrite length_lower, !lower_lower.
  - by rewrite length_upper, lower_upper, upper_upper.
  - unfold StrTitle.title.
    by rewrite length_title_from, lower_title_from, title_from_title_from.
  - done.
Qed.

Lemma string_length_app (a b : string) :
  String.length (a +:+ b) = String.length a + String.length b.
Proof.
  induction a as [|c a IH]; [done |]. rewrite string_app_cons. simpl. by rewrite IH.
Qed.

(** The words of a split hold every character of the stem that is not a
    separator. *)
Lemma re_split_length (s : string) :
  words_length (Str.re_split s) + count_sep s = String.length s.
Proof.
  unfold words_length. induction s as [|c r IH]; simpl; [done |].
  destruct (Str.is_sep c).
  - destruct (Str.starts_with_sep r); simpl; lia.
  - destruct (Str.re_split r) as [|w ws]; simpl in *; lia.
Qed.

Lemma length_capitalize (s : string) :
  String.length (Str.capitalize s) = String.length s.
Proof. destruct s; simpl; [done | by rewrite length_lower]. Qed.

Lemma length_join_capitalize (ws : list string) :
  String.length (Str.join (map Str.capitalize ws)) = words_length ws.
Proof.
  unfold words_length. induction ws as [|w ws IH]; simpl; [done |].
  by rewrite string_length_app, length_capitalize, IH.
Qed.

Lemma no_sep_app (a b : string) :
  Str.no_sep (a +:+ b) = Str.no_sep a && Str.no_sep b.
Proof.
  induction a as [|c a IH]; [done |]. rewrite string_app_cons. simpl.
  by rewrite IH, andb_assoc.
Qed.

Lemma no_sep_lower (s : string) : Str.no_sep (Str.lower s) = Str.no_sep s.
Proof.
  induction s as [|c r IH]; simpl; [done |].
  destruct (lower_char_cases c) as (_ & _ & _ & _ & _ & _ & -> & _). by rewrite IH.
Qed.

Lemma no_sep_capitalize (s : string) : Str.no_sep (Str.capitalize s) = Str.no_sep s.
Proof.
  destruct s as [|c r]; simpl; [done |].
  destruct (lower_char_cases c) as (_ & _ & _ & _ & _ & _ & _ & ->).
  by rewrite no_sep_lower.
Qed.

Lemma no_sep_join_capitalize (ws : list string) :
  Forall (fun w => Str.no_sep w = true) ws ->
  Str.no_sep (Str.join (map Str.capitalize ws)) = true.
Proof.
  induction 1 as [|w ws Hw _ IH]; simpl; [done |].
  by rewrite no_sep_app, no_sep_capitalize, Hw, IH.
Qed.

Lemma camel_no_sep (s : string) : Str.no_sep (camel s) = true.
Proof.
  unfold camel. pose proof (re_split_words_no_sep s) as Hwords.
  destruct (Str.re_split s) as [|w0 ws]; [done |].
  apply Forall_cons in Hwords as [Hw0 Hws].
  by rewrite no_sep_app, no_sep_lower, Hw0, no_sep_join_capitalize.
Qed.

Lemma camel_of_separator_free (t : string) :
  Str.no_sep t = true -> camel t = Str.lower t.
Proof.
  intros Hsep. unfold camel. rewrite (re_split_no_sep _ Hsep). simpl.
  apply string_app_nil_r.
Qed.

Lemma isascii_app (a b : string) :
  isascii (a +:+ b) = isascii a && isascii b.
Proof.
  induction a as [|c a IH]; [done |]. rewrite string_app_cons. simpl.
  by rewrite IH, andb_assoc.
Qed.

Lemma isascii_lower_char (c : ascii) :
  (Str.code c <? 128)%nat = true -> (Str.code (Str.lower_char c) <? 128)%nat = true.
Proof.
  unfold Str.lower_char, Str.isupper, Str.code. intros Hc.
  destruct (_ && _) eqn:Hup; [|done].
  apply andb_prop in Hup as [_ Hup]. apply Nat.leb_le in Hup.
  rewrite nat_ascii_embedding by lia. apply Nat.ltb_lt. lia.
Qed.

Lemma isascii_upper_char (c : ascii) :
  (Str.code c <? 128)%nat = true -> (Str.code (Str.upper_char c) <? 128)%nat = true.
Proof.
  unfold Str.upper_char, Str.islower, Str.code. intros Hc.
  destruct (_ && _) eqn:Hlow; [|done].
  apply andb_prop in Hlow as [_ Hlow]. apply Nat.leb_le in Hlow.
  rewrite nat_ascii_embedding by lia. apply Nat.ltb_lt. lia.
Qed.

Lemma isascii_lower (s : string) : isascii s = true -> isascii (Str.lower s) = true.
Proof.
  induction s as [|c s IH]; simpl; [done |].
  intros [Hc Hs]%andb_prop. by rewrite isascii_lower_char, IH.
Qed.

Lemma isascii_capitalize (s : string) :
  isascii s = true -> isascii (Str.capitalize s) = true.
Proof.
  destruct s as [|c s]; simpl; [done |].
  intros [Hc Hs]%andb_prop. by rewrite isascii_upper_char, isascii_lower.
Qed.

Lemma isascii_re_split (s : string) :
  isascii s = true -> Forall (fun w => isascii w = true) (Str.re_split s).
Proof.
  induction s as [|c r IH]; simpl; [by repeat constructor |].
  intros [Hc Hr]%andb_prop. specialize (IH Hr).
  destruct (Str.is_sep c).
  - destruct (Str.starts_with_sep r); [done | by constructor].
  - destruct (Str.re_split r) as [|w ws]; [by repeat constructor; simpl; rewrite Hc |].
    apply Forall_cons in IH as [Hw Hws]. constructor; [|done]. simpl. by rewrite Hc, Hw.
Qed.

Lemma isascii_join_capitalize (ws : list string) :
  Forall (fun w => isascii w = true) ws ->
  isascii (Str.join (map Str.capitalize ws)) = true.
Proof.
  induction 1 as [|w ws Hw _ IH]; simpl; [done |].
  by rewrite isascii_app, isascii_capitalize, IH.
Qed.

Lemma isascii_camel (s : string) : isascii s = true -> isascii (camel s) = true.
Proof.
  intros Hs%isascii_re_split. unfold camel.
  destruct (Str.re_split s) as [|w0 ws]; [done |].
  apply Forall_cons in Hs as [Hw0 Hws].
  by rewrite isascii_app, isascii_lower, isascii_join_capitalize.
Qed.

(** X4: on an ASCII stem the camel transform removes every separator
    and nothing else: its result is ASCII again, holds no underscore,
    hyphen or whitespace and is shorter than the stem by exactly the
    number of separator characters of the stem.  Applied again it can only
    lower-case, so that a third application changes nothing any more. *)
Theorem camel_removes_exactly_the_separators (s : string) :
  isascii s = true ->
  isascii (case_transform "camel" s) = true
  /\ Str.no_sep (case_transform "camel" s) = true
  /\ String.length (case_transform "camel" s) + count_sep s = String.length s
  /\ case_transform "camel" (case_transform "camel" (case_transform "camel" s))
     = case_transform "camel" (case_transform "camel" s).
Proof.
  intros Hascii.
  rewrite (case_transform_camel (case_transform "camel" (case_transform "camel" s))).
  rewrite (case_transform_camel (case_transform "camel" s)).
  rewrite (case_transform_camel s).
  split; [by apply isascii_camel |].
  split; [apply camel_no_sep |]. split.
  - rewrite <- (re_split_length s). f_equal. unfold camel.
    destruct (Str.re_split s) as [|w0 ws] eqn:Hsplit;
      [by apply re_split_nonempty in Hsplit |].
    rewrite string_length_app, length_lower, length_join_capitalize.
    unfold words_length. simpl. done.
  - rewrite (camel_of_separator_free (camel s)) by apply camel_no_sep.
    rewrite (camel_of_separator_free (Str.lower (camel s)))
      by (rewrite no_sep_lower; apply camel_no_sep).
    apply lower_lower.
Qed.

(** X5: for a mode that is none of lower, upper, title and camel the
    transform raises nothing and proposes, for every file whose stem and
    suffix make up its name, the name the file already has. *)
Theorem rename_case_transform_unknown_mode_keeps_names `{Platform}
    (files : list Path) (transform : string) :
  transform <> "lower" -> transform <> "upper" ->
  transform <> "title" -> transform <> "camel" ->
  Forall (fun file_path =>
            path_stem file_path +:+ path_suffix file_path = path_name file_path) files ->
  rename_case_transform files transform = map path_name files.
Proof.
  intros Hl Hu Ht Hc Hlaw. unfold rename_case_transform, case_transform.
  rewrite !bool_decide_eq_false_2 by done.
  induction Hlaw as [|f files Hf _ IH]; simpl; [done |]. by rewrite Hf, IH.
Qed.

(** ** More on the templated strategy and the executor *)

Section ExecutorMore.
Context `{Platform}.
Implicit Types (s : State) (self : FileRenamer).

Lemma rename_with_pattern_from_only_reads (pattern : string) files i acc s :
  let r := rename_with_pattern_from pattern i files acc s in
  fs (fst r) = fs s
  /\ calls (fst r) = calls s
  /\ logging (fst r) = logging s
  /\ operations_log (fst r) = operations_log s
  /\ log_text (fst r) = log_text s
  /\ reads s <= reads (fst r) <= reads s + 2 * length files
  /\ (forall names, snd r = inr names -> reads (fst r) = reads s + 2 * length files).
Proof.
  revert i acc s. induction files as [|f files IH]; intros i acc s; simpl.
  - repeat split; lia.
  - unfold bind, path_stat_size, datetime_now, format. simpl.
    destruct (fs_stat_size (fs s) f) as [e|st_size]; simpl.
    { repeat split; try done; lia. }
    destruct (str_format pattern _) as [e|new_name]; simpl.
    { repeat split; try done; lia. }
    match goal with
    | |- context [rename_with_pattern_from pattern (S i) files ?acc' ?s1] =>
        destruct (IH (S i) acc' s1)
          as (Hfs & Hcalls & Hlog & Hops & Htext & Hreads & Hall)
    end.
    simpl in *. repeat split; try done; try lia.
    intros names Hrun. rewrite (Hall names Hrun). lia.
Qed.

(** X6: the templated strategy only looks: whether it returns names or
    raises, the file system, the request history and the logs are as
    before; it reads the clock at most twice per file, and exactly twice
    per file when it returns names. *)
Theorem rename_with_pattern_only_reads
    (files : list Path) (pattern : string) s :
  fs (fst (rename_with_pattern files pattern s)) = fs s
  /\ calls (fst (rename_with_pattern files pattern s)) = calls s
  /\ logging (fst (rename_with_pattern files pattern s)) = logging s
  /\ operations_log (fst (rename_with_pattern files pattern s)) = operations_log s
  /\ log_text (fst (rename_with_pattern files pattern s)) = log_text s
  /\ reads s <= reads (fst (rename_with_pattern files pattern s))
     <= reads s + 2 * length files
  /\ (forall names,
        snd (rename_with_pattern files pattern s) = inr names ->
        reads (fst (rename_with_pattern files pattern s)) = reads s + 2 * length files).
Proof. apply rename_with_pattern_from_only_reads. Qed.

Ltac run_step :=
  unfold execute_rename_step, execute_rename_thread_step, log_message,
    try_except, bind, ret, raise, path_exists, path_rename, path_copy,
    path_mkdir, request, logging_log, datetime_now, operations_log_append in *;
  simpl in *.

(** One pass through the loop body: it returns, logs once, and appends
    at most one record, a well-formed one about the original of the
    pair. *)
Ltac step_leaf :=
  repeat split; simpl; rewrite ?app_nil_r, ?length_app; simpl;
  first [done | lia | by constructor | idtac].

Lemma step_shape self o n s :
  exists s' counted new,
    execute_rename_step self o n s = (s', inr counted)
    /\ operations_log s' = operations_log s ++ new
    /\ length (logging s') = S (length (logging s))
    /\ log_text s' = log_text s
    /\ length new <= 1
    /\ length (successes new) = (if counted then 1 else 0)
    /\ Forall (fun r => well_formed_record r /\ op_original r = path_str o) new.
Proof.
  run_step.
  destruct (fs_exists (fs s) (path_join (path_parent o) n)
            && negb (bool_decide (path_join (path_parent o) n = o))); simpl.
  { eexists _, false, []. step_leaf. }
  destruct (dry_run self); simpl.
  { eexists _, true, [_]. step_leaf. by repeat constructor. }
  destruct (fs_rename _ _ _) as [e|f]; simpl.
  - eexists _, false, [_]. step_leaf.
    constructor; [|constructor]. split; [|done]. right. by eauto.
  - eexists _, true, [_]. step_leaf. by repeat constructor.
Qed.

(** The loop, whatever the count it starts from. *)
Lemma loop_shape self pairs s :
  exists s' c new,
    (forall k, execute_rename_loop self pairs k s = (s', inr (k + c)))
    /\ c <= length pairs
    /\ c = length (successes new)
    /\ operations_log s' = operations_log s ++ new
    /\ length new <= length pairs
    /\ length (logging s') = length (logging s) + length pairs
    /\ log_text s' = log_text s
    /\ Forall (fun r => well_formed_record r
                        /\ exists pair, pair ∈ pairs /\ op_original r = path_str (fst pair))
              new.
Proof.
  revert s. induction pairs as [|[o n] pairs IH]; intros s; simpl.
  - exists s, 0, []. rewrite app_nil_r.
    split; [intros k; unfold ret; by rewrite Nat.add_0_r |].
    repeat split; first [done | lia | by constructor].
  - destruct (step_shape self o n s)
      as (s1 & counted & new1 & Hrun & Hops & Hlog & Htext & Hlen & Hcount & Hwf).
    destruct (IH s1) as (s' & c & new2 & Hloop & Hc & Hcnew & Hops2 & Hlen2 & Hlog2
                         & Htext2 & Hwf2).
    exists s', ((if counted then 1 else 0) + c), (new1 ++ new2).
    unfold successes in *. rewrite List.filter_app, !length_app, Hcount.
    split.
    { intros k. unfold bind. rewrite Hrun, Hloop. do 2 f_equal.
      destruct counted; lia. }
    split; [destruct counted; lia |].
    split; [lia |].
    split; [by rewrite Hops2, Hops, app_assoc |].
    split; [lia |].
    split; [lia |].
    split; [congruence |].
    apply Forall_app. split.
    + eapply Forall_impl; [exact Hwf |]. intros r [Hr Ho]. split; [done |].
      exists (o, n). split; [by left | done].
    + eapply Forall_impl; [exact Hwf2 |]. intros r (Hr & pair & Hin & Ho).
      split; [done |]. exists pair. split; [by right | done].
Qed.

(** X7: errors are isolated.  [execute_rename] never raises; it passes
    over every pair of the plan, leaving exactly one entry in [logging]
    for each; the records it appends, at most one per pair, come after the
    records the log already held; and each of them is well formed (a
    success without an error text, or a failure with one) and names a file
    of the plan. *)
Theorem execute_rename_isolates_errors
    self (files : list Path) (names : list string) s :
  exists s' ok new,
    execute_rename self files names s = (s', inr ok)
    /\ length (logging s') = length (logging s) + length (zip files names)
    /\ operations_log s' = operations_log s ++ new
    /\ length new <= length (zip files names)
    /\ Forall (fun r => well_formed_record r
                        /\ exists file_path, file_path ∈ files
                                             /\ op_original r = path_str file_path)
              new.
Proof.
  destruct (loop_shape self (zip files names) s)
    as (s' & c & new & Hloop & _ & _ & Hops & Hlen & Hlog & _ & Hwf).
  exists s', (c =? length files), new.
  unfold execute_rename, bind, ret. rewrite Hloop. simpl.
  repeat split; try done.
  eapply Forall_impl; [exact Hwf |]. intros r (Hr & [o n] & Hin & Ho).
  split; [done |]. exists o. split; [|done].
  apply elem_of_zip_l in Hin. done.
Qed.

(** X8: a plan run in two batches.  When the first batch has as many
    names as files, running the two batches one after the other leaves
    the state that running the concatenated plan leaves, and the
    concatenated plan succeeds exactly when both batches do. *)
Theorem execute_rename_in_two_batches
    self (files1 files2 : list Path) (names1 names2 : list string) s :
  length files1 = length names1 ->
  exists s1 ok1 s2 ok2,
    execute_rename self files1 names1 s = (s1, inr ok1)
    /\ execute_rename self files2 names2 s1 = (s2, inr ok2)
    /\ execute_rename self (files1 ++ files2) (names1 ++ names2) s
       = (s2, inr (ok1 && ok2)).
Proof.
  intros Hlen.
  destruct (loop_shape self (zip files1 names1) s)
    as (s1 & c1 & new1 & Hloop1 & Hc1 & _).
  destruct (loop_shape self (zip files2 names2) s1)
    as (s2 & c2 & new2 & Hloop2 & Hc2 & _).
  exists s1, (c1 =? length files1), s2, (c2 =? length files2).
  unfold execute_rename, bind, ret. rewrite Hloop1, Hloop2. simpl.
  split; [done |]. split; [done |].
  rewrite zip_with_app by done.
  rewrite execute_rename_loop_app. unfold bind. rewrite Hloop1, Hloop2.
  do 2 f_equal. rewrite length_app.
  rewrite length_zip_with in Hc1, Hc2.
  destruct (Nat.eqb_spec c1 (length files1)), (Nat.eqb_spec c2 (length files2));
    simpl; apply Nat.eqb_eq || apply Nat.eqb_neq; lia.
Qed.

(** X9: a plan with fewer names than files is reported as a failure,
    whatever happens to the renames that are attempted. *)
Theorem execute_rename_fewer_names_fails
    self (files : list Path) (names : list string) s :
  length names < length files ->
  snd (execute_rename self files names s) = inr false.
Proof.
  intros Hlt.
  destruct (loop_shape self (zip files names) s) as (s' & c & new & Hloop & Hc & _).
  unfold execute_rename, bind, ret. rewrite Hloop. simpl. f_equal.
  rewrite length_zip_with in Hc. apply Nat.eqb_neq. lia.
Qed.

(** X10: saving in a supported format.  With a non-empty log and the
    format json or csv, [save_operations_log] first makes the logs
    directory and then writes the whole log, serialised for the format, to
    the file named after the clock reading; it returns normally exactly
    when both requests succeed, and raises the error of the request that
    failed otherwise.  The operations log itself is kept: a later save
    writes the same records again. *)
Theorem save_operations_log_supported_format
    (format_type : string) s :
  operations_log s <> [] ->
  format_type = "json" \/ format_type = "csv" ->
  let log_dir := path_of "logs" in
  let log_file :=
    path_join log_dir
      ("operations_log_" +:+ strftime_stamp (clock s (reads s)) +:+ "." +:+ format_type) in
  let data :=
    if bool_decide (format_type = "json") then json_dump (operations_log s)
    else csv_dump (operations_log s) in
  let s' := fst (save_operations_log format_type s) in
  operations_log s' = operations_log s
  /\ match fs_mkdir (fs s) log_dir with
     | inl e =>
         snd (save_operations_log format_type s) = inl e
         /\ fs s' = fs s
         /\ calls s' = calls s ++ [SysMkdir (fs s) log_dir]
     | inr f1 =>
         calls s' = calls s ++ [SysMkdir (fs s) log_dir; SysWrite f1 log_file data]
         /\ match fs_write f1 log_file data with
            | inl e =>
                snd (save_operations_log format_type s) = inl e /\ fs s' = f1
            | inr f2 =>
                snd (save_operations_log format_type s) = inr tt /\ fs s' = f2
                /\ logging s'
                   = logging s
                     ++ [(INFO, "Log operazioni salvato in: " +:+ path_str log_file)]
            end
     end.
Proof.
  intros Hne Hfmt. simpl.
  unfold save_operations_log, bind, get_operations_log, path_mkdir, write_text,
    request, datetime_now, logging_log, raise, ret.
  destruct (operations_log s) as [|r records] eqn:Hops; [done |]. simpl.
  destruct (fs_mkdir (fs s) (path_of "logs")) as [e|f1]; simpl; [done |].
  destruct Hfmt as [-> | ->]; simpl.
  - destruct (fs_write f1 _ _) as [e|f2]; simpl; rewrite <- ?app_assoc; done.
  - destruct (fs_write f1 _ _) as [e|f2]; simpl; rewrite <- ?app_assoc; done.
Qed.

End ExecutorMore.

(** ** More on the worker of the GUI *)

Section WorkerMore.
Context `{Platform}.
Implicit Types (s : State) (gui : FileRenamerGUI).

Ltac run_gui :=
  unfold execute_rename_thread_step, log_message,
    try_except, bind, ret, raise, path_exists, path_rename, path_copy,
    path_mkdir, request, logging_log, datetime_now in *;
  simpl in *.

Ltac gui_shape_leaf :=
  repeat split; simpl; rewrite ?app_nil_r, ?length_app; simpl;
  first [done | lia | by repeat constructor | idtac].

(** One pass through the loop body of the worker: it returns, adds one
    line to the log widget, never writes a file and leaves the operations
    log of the renamer alone. *)
Lemma gui_step_shape gui o n s :
  exists s' ok issued,
    execute_rename_thread_step gui o n s = (s', inr ok)
    /\ calls s' = calls s ++ issued
    /\ Forall (fun c => ~ is_write c) issued
    /\ operations_log s' = operations_log s
    /\ logging s' = logging s
    /\ length (log_text s') = S (length (log_text s)).
Proof.
  run_gui.
  destruct (fs_exists (fs s) (path_join (path_parent o) n)
            && negb (bool_decide (path_join (path_parent o) n = o))); simpl.
  { eexists _, false, []. gui_shape_leaf. }
  destruct (dry_run (renamer gui)); simpl.
  { eexists _, true, []. gui_shape_leaf. }
  destruct (backup_var gui); simpl.
  - destruct (fs_mkdir _ _) as [e1|f1]; simpl.
    { eexists _, false, [_]. gui_shape_leaf. repeat constructor. by intros []. }
    destruct (fs_copy _ _ _) as [e2|f2]; simpl.
    { eexists _, false, [_; _]. rewrite <- app_assoc. gui_shape_leaf.
      repeat constructor; by intros []. }
    destruct (fs_rename _ _ _) as [e3|f3]; simpl.
    + eexists _, false, [_; _; _]. rewrite <- !app_assoc. gui_shape_leaf.
      repeat constructor; by intros [].
    + eexists _, true, [_; _; _]. rewrite <- !app_assoc. gui_shape_leaf.
      repeat constructor; by intros [].
  - destruct (fs_rename _ _ _) as [e3|f3]; simpl.
    + eexists _, false, [_]. gui_shape_leaf. repeat constructor; by intros [].
    + eexists _, true, [_]. gui_shape_leaf. repeat constructor; by intros [].
Qed.

Lemma gui_loop_shape gui pairs sc ec s :
  exists s' sc' ec' issued,
    execute_rename_thread_loop gui pairs sc ec s = (s', inr (sc', ec'))
    /\ sc' + ec' = sc + ec + length pairs
    /\ sc <= sc' /\ ec <= ec'
    /\ calls s' = calls s ++ issued
    /\ Forall (fun c => ~ is_write c) issued
    /\ operations_log s' = operations_log s
    /\ logging s' = logging s
    /\ length (log_text s') = length (log_text s) + length pairs.
Proof.
  revert sc ec s. induction pairs as [|[o n] pairs IH]; intros sc ec s; simpl.
  - exists s, sc, ec, []. rewrite app_nil_r. repeat split; first [done | lia | by constructor].
  - destruct (gui_step_shape gui o n s)
      as (s1 & ok & issued1 & Hrun & Hcalls & Hnw & Hops & Hlog & Htext).
    unfold bind. rewrite Hrun.
    destruct (IH (if ok then S sc else sc) (if ok then ec else S ec) s1)
      as (s' & sc' & ec' & issued2 & Hrun2 & Hsum & Hsc & Hec & Hcalls2 & Hnw2
          & Hops2 & Hlog2 & Htext2).
    exists s', sc', ec', (issued1 ++ issued2).
    split; [by destruct ok |].
    split; [destruct ok; lia |].
    split; [destruct ok; lia |].
    split; [destruct ok; lia |].
    split; [by rewrite Hcalls2, Hcalls, app_assoc |].
    split; [by apply Forall_app |].
    split; [congruence |].
    split; [congruence |]. lia.
Qed.

(** X11: the worker counts every pair once: after its loop the number of
    successes and the number of errors add up to the number of pairs, and
    the log widget has one more line for each pair. *)
Theorem worker_counts_every_pair gui (pairs : list (Path * string)) s :
  exists s' success_count error_count,
    execute_rename_thread_loop gui pairs 0 0 s = (s', inr (success_count, error_count))
    /\ success_count + error_count = length pairs
    /\ length (log_text s') = length (log_text s) + length pairs.
Proof.
  destruct (gui_loop_shape gui pairs 0 0 s)
    as (s' & sc' & ec' & issued & Hrun & Hsum & _ & _ & _ & _ & _ & _ & Htext).
  by exists s', sc', ec'.
Qed.

(** X12: the worker never saves an operations log.  It never raises and
    never appends to the operations log of its renamer, so when that log
    is empty, as it is for a renamer just constructed, no file is written
    whatever log format is selected, and the log is still empty
    afterwards. *)
Theorem worker_never_writes_an_operations_log gui s :
  operations_log s = [] ->
  exists s' issued,
    execute_rename_thread gui s = (s', inr tt)
    /\ calls s' = calls s ++ issued
    /\ Forall (fun c => ~ is_write c) issued
    /\ operations_log s' = [].
Proof.
  intros Hempty. unfold execute_rename_thread, try_except, bind.
  destruct (gui_loop_shape gui (zip (files_to_process gui) (new_names gui)) 0 0 s)
    as (s1 & sc' & ec' & issued & -> & _ & _ & _ & Hcalls & Hnw & Hops & _).
  assert ((if negb (bool_decide (log_format_var gui = "none"))
           then save_operations_log (log_format_var gui) else ret tt) s1
          = (s1, inr tt)) as ->.
  { destruct (negb _); [|done].
    unfold save_operations_log, bind, get_operations_log. by rewrite Hops, Hempty. }
  simpl. exists (fst ((if ec' =? 0
                       then log_message
                              ("✅ Operazione completata con successo! " +:+ pretty sc'
                               +:+ " file processati") "SUCCESS"
                       else log_message
                              ("⚠️ Operazione completata con " +:+ pretty ec' +:+ " errori")
                              "WARNING") s1)), issued.
  destruct (ec' =? 0); unfold log_message, bind, datetime_now; simpl;
    repeat split; congruence.
Qed.

(** X14: the statistics the worker shows.  With as many names as files,
    the label of the processed files shows the number of files and the
    label of the errors the number of errors, but the label of the
    successes shows the successes minus the errors: it shows the number of
    successes only when no pair failed. *)
Theorem worker_stats_understate_successes gui s s' (counts : nat * nat) :
  length (new_names gui) = length (files_to_process gui) ->
  execute_rename_thread_loop gui (zip (files_to_process gui) (new_names gui)) 0 0 s
  = (s', inr counts) ->
  fst counts + snd counts = length (files_to_process gui)
  /\ worker_stats gui counts
     = (pretty (Z.of_nat (length (files_to_process gui))),
        pretty (Z.of_nat (length (files_to_process gui)) - 2 * Z.of_nat (snd counts))%Z,
        pretty (Z.of_nat (snd counts)))
  /\ (snd (fst (worker_stats gui counts)) = pretty (Z.of_nat (fst counts))
      <-> snd counts = 0).
Proof.
  intros Hlen Hrun.
  destruct (gui_loop_shape gui (zip (files_to_process gui) (new_names gui)) 0 0 s)
    as (s1 & sc & ec & issued & Hrun' & Hsum & _).
  rewrite Hrun in Hrun'. injection Hrun' as -> ->. simpl.
  rewrite length_zip_with in Hsum.
  split; [lia |]. unfold worker_stats, update_stats. simpl. split.
  - do 2 f_equal. f_equal. lia.
  - split.
    + intros Heq%(inj pretty). lia.
    + intros ->. f_equal. lia.
Qed.

(** X15: the preview and the executor agree on collisions.  A pair the
    preview marks OK does not collide when the executor examines it on the
    same file system; and for an original that is its parent joined with
    its name, a pair that collides is marked as a conflict in the
    preview. *)
Theorem preview_status_agrees_with_collision
    (f : FS) (original : Path) (new_name : string) :
  (preview_status f original new_name = "OK" -> collision f original new_name = false)
  /\ (path_join (path_parent original) (path_name original) = original ->
      collision f original new_name = true ->
      preview_status f original new_name = "Conflitto").
Proof.
  unfold preview_status, collision, target. split.
  - case_bool_decide; [done |].
    destruct (fs_exists f (path_join (path_parent original) new_name)); done.
  - intros Hlaw [Hex Hne]%andb_prop.
    apply negb_true_iff, bool_decide_eq_false in Hne.
    case_bool_decide as Hname.
    + subst new_name. by rewrite Hlaw in Hne.
    + by rewrite Hex.
Qed.

End WorkerMore.


(** ** The command line *)

Section MainProps.
Context `{Runtime}.

Lemma extends_quietly_refl (s : State) : extends_quietly s s.
Proof. exists []. by rewrite app_nil_r. Qed.

Lemma extends_quietly_trans (s1 s2 s3 : State) :
  extends_quietly s1 s2 -> extends_quietly s2 s3 -> extends_quietly s1 s3.
Proof.
  intros (i1 & H1 & F1) (i2 & H2 & F2). exists (i1 ++ i2).
  split; [by rewrite H2, H1, app_assoc | by apply Forall_app].
Qed.

Lemma extends_quietly_same_calls (s s' : State) :
  calls s' = calls s -> extends_quietly s s'.
Proof. intros Heq. exists []. by rewrite app_nil_r. Qed.

(** *** Quiet computations compose *)

Lemma quiet_weaken {A} (Q Q' : A -> Prop) (m : P A) :
  (forall a, Q a -> Q' a) -> quiet Q m -> quiet Q' m.
Proof.
  intros Himp Hm p p' r Hrun. destruct (Hm p p' r Hrun) as (He & Hin & Hq).
  repeat split; try done. intros a Ha. by apply Himp, Hq.
Qed.

Lemma quiet_pret {A} (Q : A -> Prop) (a : A) : Q a -> quiet Q (pret a).
Proof.
  intros Ha p p' r [= <- <-]. split; [apply extends_quietly_refl |].
  split; [done |]. by intros a' [= <-].
Qed.

Lemma quiet_sys_exit {A} (Q : A -> Prop) (code : Z) : quiet Q (sys_exit code).
Proof.
  intros p p' r [= <- <-]. split; [apply extends_quietly_refl |]. by split.
Qed.

Lemma quiet_raise {A} (Q : A -> Prop) (e : Failure) :
  quiet Q (fun p => (p, Raised e)).
Proof.
  intros p p' r [= <- <-]. split; [apply extends_quietly_refl |]. by split.
Qed.

Lemma quiet_emit (o : Output) : quiet (fun _ => True) (emit o).
Proof.
  intros p p' r [= <- <-]. simpl. split; [apply extends_quietly_refl |]. by split.
Qed.

Lemma quiet_bind {A B} (Q : A -> Prop) (Q' : B -> Prop) (m : P A) (f : A -> P B) :
  quiet Q m -> (forall a, Q a -> quiet Q' (f a)) -> quiet Q' (pbind m f).
Proof.
  intros Hm Hf p p' r. unfold pbind.
  destruct (m p) as [p1 [a|e|c]] eqn:Hrun; destruct (Hm p p1 _ Hrun) as (He & Hin & Hq).
  - intros Hrun2. destruct (Hf a (Hq a eq_refl) p1 p' r Hrun2) as (He2 & Hin2 & Hq2).
    split; [by eapply extends_quietly_trans |]. split; [congruence | done].
  - intros [= <- <-]. by repeat split.
  - intros [= <- <-]. by repeat split.
Qed.

Lemma quiet_try_except {A} (Q : A -> Prop) (body : P A) (handler : Failure -> P A) :
  quiet Q body -> (forall e, quiet Q (handler e)) -> quiet Q (p_try_except body handler).
Proof.
  intros Hb Hh p p' r. unfold p_try_except.
  destruct (body p) as [p1 [a|e|c]] eqn:Hrun; destruct (Hb p p1 _ Hrun) as (He & Hin & Hq).
  - intros [= <- <-]. by repeat split.
  - intros Hrun2. destruct (Hh e p1 p' r Hrun2) as (He2 & Hin2 & Hq2).
    split; [by eapply extends_quietly_trans |]. split; [congruence | done].
  - intros [= <- <-]. by repeat split.
Qed.

Lemma quiet_lift {A} (Q : A -> Prop) (m : M A) : mquiet Q m -> quiet Q (lift m).
Proof.
  intros Hm p p' r. unfold lift.
  destruct (m (state p)) as [s' res] eqn:Hrun. simpl.
  destruct (Hm _ _ _ Hrun) as (He & Hq).
  intros [= <- <-]. simpl. split; [done |]. split; [done |].
  intros a Ha. destruct res; [done |]. injection Ha as <-. by apply Hq.
Qed.

Lemma mquiet_bind {A B} (Q : A -> Prop) (Q' : B -> Prop) (m : M A) (f : A -> M B) :
  mquiet Q m -> (forall a, Q a -> mquiet Q' (f a)) -> mquiet Q' (bind m f).
Proof.
  intros Hm Hf s s' r. unfold bind.
  destruct (m s) as [s1 [e|a]] eqn:Hrun; destruct (Hm s s1 _ Hrun) as (He & Hq).
  - intros [= <- <-]. by split.
  - intros Hrun2. destruct (Hf a (Hq a eq_refl) s1 s' r Hrun2) as (He2 & Hq2).
    split; [by eapply extends_quietly_trans | done].
Qed.

(** A method that leaves the request history alone is quiet. *)
Lemma mquiet_same_calls {A} (Q : A -> Prop) (m : M A) :
  (forall s, calls (fst (m s)) = calls s /\ forall a, snd (m s) = inr a -> Q a) ->
  mquiet Q m.
Proof.
  intros Hm s s' r Hrun. destruct (Hm s) as [Hc Hq]. rewrite Hrun in Hc, Hq.
  split; [by apply extends_quietly_same_calls | done].
Qed.

(** *** The parts of [main] *)

Lemma mquiet_request_mkdir (p : Path) : mquiet (fun _ => True) (path_mkdir p).
Proof.
  intros s s' r. unfold path_mkdir, request.
  destruct (fs_mkdir (fs s) p); intros [= <- <-]; simpl;
    (split; [|done]); exists [SysMkdir (fs s) p];
    (split; [done |]); repeat constructor; by intros [].
Qed.

Lemma mquiet_request_write (p : Path) (data : string) :
  mquiet (fun _ => True) (write_text p data).
Proof.
  intros s s' r. unfold write_text, request.
  destruct (fs_write (fs s) p data); intros [= <- <-]; simpl;
    (split; [|done]); exists [SysWrite (fs s) p data];
    (split; [done |]); repeat constructor; by intros [].
Qed.

Lemma mquiet_datetime_now : mquiet (fun _ => True) datetime_now.
Proof. apply mquiet_same_calls. by intros s. Qed.

Lemma mquiet_logging_log lvl msg : mquiet (fun _ => True) (logging_log lvl msg).
Proof. apply mquiet_same_calls. by intros s. Qed.

Lemma mquiet_ret {A} (Q : A -> Prop) (a : A) : Q a -> mquiet Q (ret a).
Proof. intros Ha. apply mquiet_same_calls. intros s. split; [done |]. by intros a' [= <-]. Qed.

Lemma mquiet_raise {A} (Q : A -> Prop) (e : Exception) : mquiet Q (raise e).
Proof. apply mquiet_same_calls. by intros s. Qed.

Lemma mquiet_setup_logging (log_level : string) :
  mquiet (fun _ => True) (setup_logging log_level).
Proof.
  unfold setup_logging.
  eapply mquiet_bind; [apply mquiet_request_mkdir |]. intros _ _.
  eapply mquiet_bind; [apply mquiet_datetime_now |]. intros now _.
  eapply mquiet_bind with (Q := fun _ => True).
  { apply mquiet_same_calls. by intros s. }
  intros level _.
  eapply mquiet_bind with (Q := fun _ => True).
  { intros s s' r. unfold request.
    destruct (fs_open_append (fs s) _); intros [= <- <-]; simpl;
      (split; [|done]); eexists [SysOpen (fs s) _];
      (split; [done |]); repeat constructor; by intros []. }
  intros _ _. apply mquiet_same_calls. by intros s.
Qed.

Lemma mquiet_FileRenamer_init (dir : string) (flag : bool) :
  mquiet (fun renamer => dry_run renamer = flag) (FileRenamer_init dir flag).
Proof.
  apply mquiet_same_calls. intros s.
  unfold FileRenamer_init, bind, path_exists, raise, logging_log, ret. simpl.
  destruct (fs_exists (fs s) (path_of dir)); simpl; [|done].
  split; [done |]. by intros a [= <-].
Qed.

Lemma mquiet_get_files (self : FileRenamer) (pattern : string) (recursive : bool) :
  mquiet (fun _ => True) (get_files self pattern recursive).
Proof.
  apply mquiet_same_calls. intros s.
  unfold get_files, bind, logging_log, ret. simpl.
  by destruct (if recursive then _ else _).
Qed.

Lemma mquiet_rename_with_pattern (files : list Path) (pattern : string) :
  mquiet (fun _ => True) (rename_with_pattern files pattern).
Proof.
  apply mquiet_same_calls. intros s. split; [|done].
  by destruct (rename_with_pattern_from_only_reads pattern files 1 [] s) as (_ & ? & _).
Qed.

Lemma mquiet_apply_regex_replacement_from compiled replacement files acc :
  mquiet (fun _ => True) (apply_regex_replacement_from compiled replacement files acc).
Proof.
  revert acc. induction files as [|f files IH]; intros acc; simpl.
  - by apply mquiet_ret.
  - eapply mquiet_bind with (Q := fun _ => True).
    + apply mquiet_same_calls. by intros s.
    + intros a _. apply IH.
Qed.

Lemma mquiet_apply_regex_replacement files (pattern replacement : string) :
  mquiet (fun _ => True) (apply_regex_replacement files pattern replacement).
Proof.
  unfold apply_regex_replacement.
  eapply mquiet_bind with (Q := fun _ => True).
  - destruct (re_compile pattern); [apply mquiet_raise | by apply mquiet_ret].
  - intros c _. apply mquiet_apply_regex_replacement_from.
Qed.

Lemma mquiet_path_stat_size (p : Path) : mquiet (fun _ => True) (path_stat_size p).
Proof. apply mquiet_same_calls. by intros s. Qed.

Lemma mquiet_preview_table_rows pairs rows :
  mquiet (fun _ => True) (preview_table_rows pairs rows).
Proof.
  revert rows. induction pairs as [|[o n] pairs IH]; intros rows; simpl.
  - by apply mquiet_ret.
  - eapply mquiet_bind; [apply mquiet_path_stat_size |]. intros a _. apply IH.
Qed.

Lemma quiet_preview_plain_rows pairs : quiet (fun _ => True) (preview_plain_rows pairs).
Proof.
  induction pairs as [|[o n] pairs IH]; simpl.
  - by apply quiet_pret.
  - eapply quiet_bind; [apply quiet_lift, mquiet_path_stat_size |]. intros a _.
    eapply quiet_bind; [apply quiet_emit |]. intros _ _. apply IH.
Qed.

Lemma quiet_preview_changes (rich : bool) files names :
  quiet (fun _ => True) (preview_changes rich files names).
Proof.
  unfold preview_changes. destruct rich.
  - eapply quiet_bind; [apply quiet_lift, mquiet_preview_table_rows |].
    intros rows _. apply quiet_emit.
  - eapply quiet_bind; [apply quiet_emit |]. intros _ _.
    eapply quiet_bind; [apply quiet_emit |]. intros _ _.
    apply quiet_preview_plain_rows.
Qed.

Lemma quiet_choose_new_names (args : Args) files :
  quiet (fun _ => True) (choose_new_names args files).
Proof.
  unfold choose_new_names.
  destruct (truthy (arg_sequential args)); [by apply quiet_pret |].
  destruct (truthy (arg_custom_pattern args)).
  { eapply quiet_bind; [apply quiet_lift, mquiet_rename_with_pattern |].
    intros a _. by apply quiet_pret. }
  destruct (truthy (arg_case args)); [by apply quiet_pret |].
  destruct (truthy (arg_regex args)); [|by apply quiet_pret].
  eapply quiet_bind; [apply quiet_lift, mquiet_apply_regex_replacement |].
  intros a _. by apply quiet_pret.
Qed.

Lemma mquiet_save_operations_log (format_type : string) :
  mquiet (fun _ => True) (save_operations_log format_type).
Proof.
  unfold save_operations_log.
  eapply mquiet_bind with (Q := fun _ => True).
  { apply mquiet_same_calls. by intros s. }
  intros [|r records] _; [by apply mquiet_ret |].
  eapply mquiet_bind; [apply mquiet_request_mkdir |]. intros _ _.
  eapply mquiet_bind; [apply mquiet_datetime_now |]. intros now _.
  eapply mquiet_bind with (Q := fun _ => True).
  - repeat case_bool_decide.
    + eapply mquiet_bind; [apply mquiet_request_write |]. intros _ _. by apply mquiet_ret.
    + eapply mquiet_bind; [apply mquiet_request_write |]. intros _ _. by apply mquiet_ret.
    + by apply mquiet_ret.
  - intros [log_file|] _; [apply mquiet_logging_log | apply mquiet_raise].
Qed.

Lemma mquiet_execute_rename_dry (self : FileRenamer) files names :
  dry_run self = true ->
  mquiet (fun _ => True) (execute_rename self files names).
Proof.
  intros Hd. apply mquiet_same_calls. intros s. split; [|done].
  unfold execute_rename, bind, ret.
  destruct (execute_rename_loop_summary self (zip files names) 0 s)
    as (s' & new & issued & -> & _ & Hcalls & _ & _ & _ & _ & Hdry).
  destruct (Hdry Hd) as (_ & -> & _). simpl. by rewrite app_nil_r in Hcalls.
Qed.

Lemma quiet_error_handler (Q : unit -> Prop) (e : Failure) :
  quiet Q
    (pbind (lift (logging_log ERROR ("Errore durante l'esecuzione: " +:+ failure_msg e)))
       (fun _ => pbind (print ("❌ Errore: " +:+ failure_msg e)) (fun _ => sys_exit 1))).
Proof.
  eapply quiet_bind; [apply quiet_lift, mquiet_logging_log |]. intros _ _.
  eapply quiet_bind; [apply quiet_emit |]. intros _ _. apply quiet_sys_exit.
Qed.

(** The confirmation, when standard input does not confirm, ends the
    run: what follows it is never reached. *)
Lemma confirmation_declined {A} (rest : unit -> P A) p p' r :
  pbind (pbind (input (newline +:+ "❓ Procedere con la rinomina? [y/N]: "))
           (fun confirm =>
              if bool_decide (Str.lower confirm ∈ affirmative) then pret tt
              else pbind (print "✋ Operazione annullata") (fun _ => sys_exit 0)))
        rest p = (p', r) ->
  declined (stdin p) ->
  state p' = state p /\ forall a, r <> Value a.
Proof.
  unfold pbind, input, print, emit, sys_exit, pret, declined.
  destruct (stdin p) as [|answer rest_in]; simpl.
  - by intros [= <- <-].
  - intros Hrun Hno. rewrite bool_decide_eq_false_2 in Hrun by done.
    by injection Hrun as <- <-.
Qed.

(** X16: a dry run from the command line.  With [--dry-run], [main]
    never asks for a confirmation (it reads nothing from standard input)
    and, however it ends, has issued no request that renames or copies a
    file. *)
Theorem main_dry_run_is_quiet (rich : bool) (args : Args) :
  arg_dry_run args = true ->
  quiet (fun _ => True) (main rich args).
Proof.
  intros Hd. unfold main.
  eapply quiet_bind; [apply quiet_lift, mquiet_setup_logging |]. intros _ _.
  eapply quiet_bind with (Q := fun _ => True).
  { destruct (_ && _); [|by apply quiet_pret].
    eapply quiet_bind; [apply quiet_emit |]. intros _ _. apply quiet_sys_exit. }
  intros _ _. apply quiet_try_except; [|intros e; apply quiet_error_handler].
  eapply quiet_bind; [apply quiet_lift, mquiet_FileRenamer_init |].
  intros renamer Hrenamer.
  eapply quiet_bind; [apply quiet_lift, mquiet_get_files |]. intros files _.
  eapply quiet_bind with (Q := fun _ => True).
  { destruct files; [|by apply quiet_pret].
    eapply quiet_bind; [apply quiet_emit |]. intros _ _. apply quiet_sys_exit. }
  intros _ _.
  eapply quiet_bind; [apply quiet_choose_new_names |]. intros bound _.
  eapply quiet_bind with (Q := fun _ => True).
  { destruct bound; [by apply quiet_pret | apply quiet_raise]. }
  intros new_names _.
  eapply quiet_bind; [apply quiet_preview_changes |]. intros _ _.
  rewrite Hd. simpl.
  eapply quiet_bind with (Q := fun _ => True); [by apply quiet_pret |]. intros _ _.
  eapply quiet_bind with (Q := fun _ => True).
  { apply quiet_lift, mquiet_execute_rename_dry. congruence. }
  intros success _.
  eapply quiet_bind with (Q := fun _ => True).
  { destruct success; apply quiet_emit. }
  intros _ _.
  destruct (truthy (arg_save_log args)); [|by apply quiet_pret].
  apply quiet_lift, mquiet_save_operations_log.
Qed.

Lemma stops_quietly_bind {A B} (Q : A -> Prop) (m : P A) (f : A -> P B) :
  quiet Q m -> (forall a, Q a -> stops_quietly (f a)) -> stops_quietly (pbind m f).
Proof.
  intros Hm Hf p p' r. unfold pbind.
  destruct (m p) as [p1 [a|e|c]] eqn:Hrun; destruct (Hm p p1 _ Hrun) as (He & Hin & Hq).
  - intros Hrun2 Hdec. rewrite <- Hin in Hdec.
    destruct (Hf a (Hq a eq_refl) p1 p' r Hrun2 Hdec) as [He2 Hr2].
    split; [by eapply extends_quietly_trans | done].
  - intros [= <- <-] _. by split.
  - intros [= <- <-] _. by split.
Qed.

Lemma stops_quietly_try_except {A} (body : P A) (handler : Failure -> P A) :
  stops_quietly body ->
  (forall e, quiet (fun _ => False) (handler e)) ->
  stops_quietly (p_try_except body handler).
Proof.
  intros Hb Hh p p' r. unfold p_try_except.
  destruct (body p) as [p1 [a|e|c]] eqn:Hrun; intros Hrun2 Hdec;
    destruct (Hb p p1 _ Hrun Hdec) as [He Hres].
  - by destruct (Hres a).
  - destruct (Hh e p1 p' r Hrun2) as (He2 & _ & Hq).
    split; [by eapply extends_quietly_trans |]. intros a ->. by apply (Hq a).
  - by injection Hrun2 as <- <-.
Qed.

(** X17: no confirmation, no renaming.  Without [--dry-run], when
    standard input is at its end or its next line is not one of the
    affirmative answers, [main] issues no request that renames or copies a
    file, and it does not return normally: it ends by [sys.exit] or with
    an exception. *)
Theorem main_without_confirmation_renames_nothing (rich : bool) (args : Args) :
  arg_dry_run args = false ->
  stops_quietly (main rich args).
Proof.
  intros Hd. unfold main.
  eapply stops_quietly_bind; [apply quiet_lift, mquiet_setup_logging |]. intros _ _.
  eapply stops_quietly_bind with (Q := fun _ => True).
  { destruct (_ && _); [|by apply quiet_pret].
    eapply quiet_bind; [apply quiet_emit |]. intros _ _. apply quiet_sys_exit. }
  intros _ _. apply stops_quietly_try_except; [|intros e; apply quiet_error_handler].
  eapply stops_quietly_bind; [apply quiet_lift, mquiet_FileRenamer_init |].
  intros renamer _.
  eapply stops_quietly_bind; [apply quiet_lift, mquiet_get_files |]. intros files _.
  eapply stops_quietly_bind with (Q := fun _ => True).
  { destruct files; [|by apply quiet_pret].
    eapply quiet_bind; [apply quiet_emit |]. intros _ _. apply quiet_sys_exit. }
  intros _ _.
  eapply stops_quietly_bind; [apply quiet_choose_new_names |]. intros bound _.
  eapply stops_quietly_bind with (Q := fun _ => True).
  { destruct bound; [by apply quiet_pret | apply quiet_raise]. }
  intros new_names _.
  eapply stops_quietly_bind; [apply quiet_preview_changes |]. intros _ _.
  rewrite Hd. simpl.
  intros p p' r Hrun Hdec.
  destruct (confirmation_declined _ p p' r Hrun Hdec) as [Hstate Hres].
  split; [|done]. rewrite Hstate. apply extends_quietly_refl.
Qed.

(** X18: [--regex] without a replacement.  When the regex argument is
    given and not empty and the replacement is missing or empty, [main]
    does what [setup_logging] does and nothing more: when [setup_logging]
    returns, the error line is printed and [main] leaves by [sys.exit(1)];
    when it raises, the exception leaves [main] with nothing printed.  So
    the exit status is 1 in every case, standard input is untouched,
    nothing is logged or recorded, and the requests issued are the making
    of the logs directory and, when [setup_logging] got that far, the
    opening of the log file. *)
Theorem main_regex_needs_replacement (rich : bool) (args : Args) (p : Process) :
  truthy (arg_regex args) = true ->
  truthy (arg_replacement args) = false ->
  let setup := lift (setup_logging (arg_log_level args)) p in
  let log_dir := path_of "logs" in
  let log_file :=
    path_join log_dir
      ("file_renamer_" +:+ strftime_stamp (clock (state p) (reads (state p))) +:+ ".log") in
  main rich args p
  = match snd setup with
    | Value _ =>
        (mkProcess (state (fst setup)) (stdin p)
           (stdout p ++ [Printed "❌ Errore: --regex richiede --replacement"]),
         Exited 1)
    | _ => setup
    end
  /\ exit_status (snd (main rich args p)) = 1%Z
  /\ stdin (fst (main rich args p)) = stdin p
  /\ logging (state (fst (main rich args p))) = logging (state p)
  /\ operations_log (state (fst (main rich args p))) = operations_log (state p)
  /\ (calls (state (fst (main rich args p)))
      = calls (state p) ++ [SysMkdir (fs (state p)) log_dir]
      \/ exists f1,
           fs_mkdir (fs (state p)) log_dir = inr f1
           /\ calls (state (fst (main rich args p)))
              = calls (state p) ++ [SysMkdir (fs (state p)) log_dir; SysOpen f1 log_file]).
Proof.
  intros Hregex Hrepl. unfold main. rewrite Hregex, Hrepl. simpl.
  unfold pbind, lift, setup_logging, bind, path_mkdir, request, datetime_now, ret,
    print, emit, sys_exit.
  simpl. destruct (fs_mkdir (fs (state p)) (path_of "logs")) as [e|f1]; simpl.
  { repeat split; by left. }
  destruct (logging_getattr _) as [e|level]; simpl.
  { repeat split; by left. }
  destruct (fs_open_append f1 _) as [e|f2]; simpl.
  { repeat split. right. exists f1. split; [done |]. by rewrite <- app_assoc. }
  destruct (logging_setLevel level) as [e|[]]; simpl;
    repeat split; right; exists f1; (split; [done |]); by rewrite <- app_assoc.
Qed.

(** [main] when no strategy argument is true: what is left of it. *)
Lemma main_without_strategy (rich : bool) (args : Args) (p : Process) :
  truthy (arg_sequential args) = false ->
  truthy (arg_custom_pattern args) = false ->
  truthy (arg_case args) = false ->
  truthy (arg_regex args) = false ->
  main rich args p
  = pbind (lift (setup_logging (arg_log_level args))) (fun _ =>
    p_try_except
      (pbind (pbind (lift (FileRenamer_init (arg_directory args) (arg_dry_run args)))
                (fun renamer =>
                 lift (get_files renamer (arg_pattern args) (arg_recursive args))))
         (fun files =>
          match files with
          | [] =>
              pbind (print ("⚠️  Nessun file trovato con pattern '"
                            +:+ arg_pattern args +:+ "'")) (fun _ => sys_exit 0)
          | _ :: _ =>
              fun q => (q, Raised (Caught (mkExc UnboundLocalError
                "cannot access local variable 'new_names' where it is not associated with a value")))
          end))
      (fun e =>
         pbind (lift (logging_log ERROR
                        ("Errore durante l'esecuzione: " +:+ failure_msg e))) (fun _ =>
         pbind (print ("❌ Errore: " +:+ failure_msg e)) (fun _ => sys_exit 1)))) p.
Proof.
  intros Hs Hp Hc Hr. unfold main, choose_new_names. rewrite Hs, Hp, Hc, Hr. simpl.
  unfold pbind, p_try_except, pret, lift, print, emit, sys_exit. simpl.
  destruct (setup_logging _ _) as [s1 [e|[]]]; simpl; [done |].
  destruct (FileRenamer_init _ _ _) as [s2 [e|renamer]]; simpl; [done |].
  destruct (get_files _ _ _ _) as [s3 [e|[|f files]]]; simpl; done.
Qed.

(** X19: a strategy argument that is empty selects nothing.  When none
    of the four strategy arguments is given with a non-empty value (as
    with [--sequential] followed by an empty string), [main] reads nothing
    from standard input, renames nothing and never returns normally.  An
    exception of [setup_logging] leaves [main] as it is.  After
    [setup_logging]: when the directory is missing or the search raises,
    that error is printed and the status is 1; when no file is found, the
    warning is printed and the status is 0; and when files are found, the
    local variable [new_names] is read unbound, the [UnboundLocalError] is
    caught, logged and printed, and the status is 1. *)
Theorem main_without_strategy_fails (rich : bool) (args : Args) (p : Process) :
  truthy (arg_sequential args) = false ->
  truthy (arg_custom_pattern args) = false ->
  truthy (arg_case args) = false ->
  truthy (arg_regex args) = false ->
  let run := main rich args p in
  let unbound :=
    "cannot access local variable 'new_names' where it is not associated with a value" in
  stdin (fst run) = stdin p
  /\ extends_quietly (state p) (state (fst run))
  /\ (forall a, snd run <> Value a)
  /\ (forall p1 e,
        lift (setup_logging (arg_log_level args)) p = (p1, Raised e) ->
        run = (p1, Raised e))
  /\ (forall p1 u,
        lift (setup_logging (arg_log_level args)) p = (p1, Value u) ->
        let found :=
          pbind (lift (FileRenamer_init (arg_directory args) (arg_dry_run args)))
            (fun renamer =>
             lift (get_files renamer (arg_pattern args) (arg_recursive args))) p1 in
        match snd found with
        | Value [] =>
            snd run = Exited 0
            /\ state (fst run) = state (fst found)
            /\ stdout (fst run)
               = stdout p ++ [Printed ("⚠️  Nessun file trovato con pattern '"
                                       +:+ arg_pattern args +:+ "'")]
        | Value (_ :: _) =>
            snd run = Exited 1
            /\ stdout (fst run) = stdout p ++ [Printed ("❌ Errore: " +:+ unbound)]
            /\ logging (state (fst run))
               = logging (state (fst found))
                 ++ [(ERROR, "Errore durante l'esecuzione: " +:+ unbound)]
        | Raised e =>
            snd run = Exited 1
            /\ stdout (fst run) = stdout p ++ [Printed ("❌ Errore: " +:+ failure_msg e)]
            /\ logging (state (fst run))
               = logging (state (fst found))
                 ++ [(ERROR, "Errore durante l'esecuzione: " +:+ failure_msg e)]
        | Exited _ => False
        end).
Proof.
  intros Hs Hp Hc Hr.
  assert (quiet (fun _ : unit => False) (main rich args)) as Hquiet.
  { unfold main.
    eapply quiet_bind; [apply quiet_lift, mquiet_setup_logging |]. intros _ _.
    rewrite Hr. simpl.
    eapply quiet_bind with (Q := fun _ => True); [by apply quiet_pret |]. intros _ _.
    apply quiet_try_except; [|intros e; apply quiet_error_handler].
    eapply quiet_bind; [apply quiet_lift, mquiet_FileRenamer_init |].
    intros renamer _.
    eapply quiet_bind; [apply quiet_lift, mquiet_get_files |]. intros files _.
    eapply quiet_bind with (Q := fun _ => True).
    { destruct files; [|by apply quiet_pret].
      eapply quiet_bind; [apply quiet_emit |]. intros _ _. apply quiet_sys_exit. }
    intros _ _. unfold choose_new_names. rewrite Hs, Hp, Hc, Hr.
    eapply quiet_bind with (Q := fun b => b = None); [by apply quiet_pret |].
    intros bound ->.
    eapply quiet_bind with (Q := fun _ => False); [apply quiet_raise |]. by intros a []. }
  cbv zeta.
  destruct (main rich args p) as [p' r] eqn:Hrun.
  destruct (Hquiet p p' r Hrun) as (He & Hin & Hq). simpl.
  split; [done |]. split; [done |].
  split; [intros a ->; by apply (Hq a) |].
  rewrite (main_without_strategy rich args p Hs Hp Hc Hr) in Hrun.
  unfold pbind at 1 in Hrun. split.
  - intros p1 e Hsetup. rewrite Hsetup in Hrun. by injection Hrun as <- <-.
  - intros p1 u Hsetup. rewrite Hsetup in Hrun.
    assert (stdin p1 = stdin p /\ stdout p1 = stdout p) as [Hin1 Hout1].
    { unfold lift in Hsetup. by injection Hsetup as <- _. }
    revert Hrun. unfold p_try_except, pbind at 1.
    assert (forall q, stdout (fst (pbind (lift (FileRenamer_init (arg_directory args)
                                                  (arg_dry_run args)))
                                     (fun renamer =>
                                      lift (get_files renamer (arg_pattern args)
                                              (arg_recursive args))) q)) = stdout q)
      as Hout2.
    { intros q. unfold pbind, lift. by destruct (snd (FileRenamer_init _ _ _)). }
    specialize (Hout2 p1).
    destruct (pbind (lift (FileRenamer_init _ _)) _ p1) as [p3 [[|f files]|e|c]] eqn:Hfound;
      simpl in Hout2 |- *.
    + unfold pbind, print, emit, sys_exit. simpl. intros [= <- <-]. simpl.
      by rewrite Hout2, Hout1.
    + unfold pbind, lift, logging_log, print, emit, sys_exit. simpl. intros [= <- <-]. simpl.
      by rewrite Hout2, Hout1.
    + unfold pbind, lift, logging_log, print, emit, sys_exit. simpl. intros [= <- <-]. simpl.
      by rewrite Hout2, Hout1.
    + unfold pbind, lift in Hfound.
      destruct (snd (FileRenamer_init _ _ _)); [done |].
      by destruct (snd (get_files _ _ _ _)).
Qed.

End MainProps.


(** ** The sizes of the preview *)

Lemma string_app_assoc (a b c : string) : (a +:+ b) +:+ c = a +:+ (b +:+ c).
Proof. induction a as [|x a IH]; [done |]. by rewrite !string_app_cons, IH. Qed.

(** X20: below 1024 bytes the size is shown as the number of bytes with
    one decimal, which is always zero. *)
Theorem size_text_of_small_sizes (size_bytes : N) :
  (size_bytes < 1024)%N ->
  Posix.size_text size_bytes = pretty size_bytes +:+ ".0 B".
Proof.
  intros Hlt. unfold Posix.size_text, Posix.format_size_units.
  rewrite N.mul_1_r. apply N.ltb_lt in Hlt. rewrite Hlt.
  unfold Posix.one_decimal.
  rewrite N.div_1_r, N.mod_1_r. simpl (2 * 0)%N.
  replace (1 <? 0)%N with false by done. replace (0 =? 1)%N with false by done.
  simpl orb. cbv iota.
  replace (10 * size_bytes)%N with (size_bytes * 10)%N by lia.
  rewrite N.div_mul by done. rewrite N.Div0.mod_mul.
  change (pretty 0%N) with "0".
  by rewrite string_app_assoc.
Qed.

(** X21: the unit is chosen before the number is rounded.  A size within
    51 bytes below 1024 * 1024 is less than 1024 KB and is therefore
    shown in KB, where it rounds up to 1024.0. *)
Theorem size_text_rounds_up_to_1024 (size_bytes : N) :
  (1048525 <= size_bytes < 1048576)%N ->
  Posix.size_text size_bytes = "1024.0 KB".
Proof.
  intros [Hlo Hhi]. unfold Posix.size_text, Posix.format_size_units.
  rewrite N.mul_1_r.
  replace (size_bytes <? 1024)%N with false by (symmetry; apply N.ltb_ge; lia).
  replace (size_bytes <? 1024 * 1024)%N with true by (symmetry; apply N.ltb_lt; lia).
  unfold Posix.one_decimal.
  assert ((10 * size_bytes / 1024 = 10239)%N
          /\ (10 * size_bytes mod 1024 = 10 * size_bytes - 10484736)%N) as [-> ->].
  { assert (10 * size_bytes = 1024 * 10239 + (10 * size_bytes - 10484736))%N as Heq by lia.
    split.
    - symmetry. eapply N.div_unique with (r := (10 * size_bytes - 10484736)%N); [lia | exact Heq].
    - symmetry. eapply N.mod_unique with (q := 10239%N); [lia | exact Heq]. }
  replace (1024 <? 2 * (10 * size_bytes - 10484736))%N with true
    by (symmetry; apply N.ltb_lt; lia).
  reflexivity.
Qed.

Lemma size_text_of_small_sizes_witness :
  (512 < 1024)%N /\ Posix.size_text 512 = pretty 512%N +:+ ".0 B".
Proof. split; [done | apply size_text_of_small_sizes; done]. Defined.

Lemma size_text_rounds_up_witness :
  (1048525 <= 1048575 < 1048576)%N /\ Posix.size_text 1048575 = "1024.0 KB".
Proof. split; [lia | apply size_text_rounds_up_to_1024; lia]. Defined.

(** ** Collecting the files, the regex strategy and the preview *)

Section CommandLineProps.
Context `{Runtime}.

(** X22: [get_files] returns regular files only, in the order of the
    search and as of the file system it was called on; it changes no file
    and issues no request, and when the search succeeds it leaves one
    line in [logging] that tells how many files it found.  When the
    search raises, so does [get_files], with nothing logged. *)
Theorem get_files_returns_regular_files
    (self : FileRenamer) (pattern : string) (recursive : bool) s :
  let found := if recursive then fs_rglob (fs s) (directory self) pattern
               else fs_glob (fs s) (directory self) pattern in
  let s' := fst (get_files self pattern recursive s) in
  fs s' = fs s /\ calls s' = calls s
  /\ match found with
     | inr all =>
         exists files,
           snd (get_files self pattern recursive s) = inr files
           /\ files = List.filter (fs_is_file (fs s)) all
           /\ Forall (fun file_path => fs_is_file (fs s) file_path = true) files
           /\ sublist files all
           /\ logging s'
              = logging s ++ [(INFO, "Trovati " +:+ pretty (length files)
                                     +:+ " file con pattern '" +:+ pattern +:+ "'")]
     | inl e =>
         snd (get_files self pattern recursive s) = inl e /\ s' = s
     end.
Proof.
  unfold get_files, bind, logging_log, ret. simpl.
  destruct (if recursive then _ else _) as [e|all]; simpl; [done |].
  repeat split. eexists. repeat split.
  - apply Forall_forall. intros f Hf. apply list_elem_of_In in Hf.
    by apply List.filter_In in Hf as [_ Hf].
  - clear. induction all as [|f all IH]; simpl; [constructor |].
    destruct (fs_is_file (fs s) f); [by constructor | by apply sublist_cons].
Qed.

Lemma apply_regex_replacement_from_shape (rx : Regex) (replacement : string)
    (files : list Path) (acc : list string) s :
  fst (apply_regex_replacement_from rx replacement files acc s) = s
  /\ ((exists names,
         snd (apply_regex_replacement_from rx replacement files acc s) = inr (acc ++ names)
         /\ Forall2 (fun file_path new_name =>
                       re_sub rx replacement (path_name file_path) = inr new_name)
                    files names)
      \/ (exists e file_path,
            snd (apply_regex_replacement_from rx replacement files acc s) = inl e
            /\ file_path ∈ files
            /\ re_sub rx replacement (path_name file_path) = inl e)).
Proof.
  revert acc. induction files as [|f files IH]; intros acc; simpl.
  - split; [done |]. left. exists []. by rewrite app_nil_r.
  - unfold bind. simpl.
    destruct (re_sub rx replacement (path_name f)) as [e|new_name] eqn:Hsub; simpl.
    + split; [done |]. right. exists e, f. repeat split; [by left | done].
    + destruct (IH (acc ++ [new_name])) as [Hfst [(names & Hsnd & Hall)|(e & g & Hsnd & Hg & He)]].
      * split; [done |]. left. exists (new_name :: names).
        rewrite Hsnd, <- app_assoc. split; [done |]. by constructor.
      * split; [done |]. right. exists e, g. repeat split; [done | by right | done].
Qed.

(** X23: the regex strategy changes nothing and proposes, when it
    returns, one name per file: the substitution applied to the name of
    that file.  A pattern [re.compile] refuses gives a [ValueError] that
    carries the text of the [re.error]; an exception of a substitution is
    passed on as it is. *)
Theorem apply_regex_replacement_one_name_per_file
    (files : list Path) (pattern replacement : string) s :
  fst (apply_regex_replacement files pattern replacement s) = s
  /\ match re_compile pattern with
     | inl msg =>
         snd (apply_regex_replacement files pattern replacement s)
         = inl (mkExc ValueError ("Pattern regex non valido: " +:+ msg))
     | inr rx =>
         (exists names,
            snd (apply_regex_replacement files pattern replacement s) = inr names
            /\ Forall2 (fun file_path new_name =>
                          re_sub rx replacement (path_name file_path) = inr new_name)
                       files names)
         \/ (exists e file_path,
               snd (apply_regex_replacement files pattern replacement s) = inl e
               /\ file_path ∈ files
               /\ re_sub rx replacement (path_name file_path) = inl e)
     end.
Proof.
  unfold apply_regex_replacement, bind, raise, ret.
  destruct (re_compile pattern) as [msg|rx]; simpl; [done |].
  apply (apply_regex_replacement_from_shape rx replacement files [] s).
Qed.

Lemma preview_table_rows_shape (pairs : list (Path * string))
    (rows : list (string * string * string)) s :
  fst (preview_table_rows pairs rows s) = s
  /\ ((exists new_rows,
         snd (preview_table_rows pairs rows s) = inr (rows ++ new_rows)
         /\ Forall2 (fun pair row =>
                       exists st_size,
                         fs_stat_size (fs s) pair.1 = inr st_size
                         /\ row = (path_name pair.1, pair.2, format_size st_size))
                    pairs new_rows)
      \/ (exists e pair,
            snd (preview_table_rows pairs rows s) = inl e
            /\ pair ∈ pairs
            /\ fs_stat_size (fs s) pair.1 = inl e)).
Proof.
  revert rows. induction pairs as [|[o n] pairs IH]; intros rows; simpl.
  - split; [done |]. left. exists []. by rewrite app_nil_r.
  - unfold bind, path_stat_size. simpl.
    destruct (fs_stat_size (fs s) o) as [e|st_size] eqn:Hstat; simpl.
    + split; [done |]. right. exists e, (o, n). repeat split; [by left | done].
    + destruct (IH (rows ++ [(path_name o, n, format_size st_size)]))
        as [Hfst [(new_rows & Hsnd & Hall)|(e & g & Hsnd & Hg & He)]].
      * split; [done |]. left. exists ((path_name o, n, format_size st_size) :: new_rows).
        rewrite Hsnd, <- app_assoc. split; [done |]. constructor; [|done]. by exists st_size.
      * split; [done |]. right. exists e, g. repeat split; [done | by right | done].
Qed.

(** X24: with [rich] the preview is all or nothing.  The table is printed
    once, after the size of every original has been read, with one row
    per pair, in order; when the size of one original cannot be read the
    exception is passed on and nothing at all has been printed.  In both
    cases the state and standard input are untouched. *)
Theorem preview_changes_table_is_all_or_nothing
    (files : list Path) (new_names : list string) (p : Process) :
  let run := preview_changes true files new_names p in
  state (fst run) = state p /\ stdin (fst run) = stdin p
  /\ ((exists rows,
         snd run = Value tt
         /\ stdout (fst run) = stdout p ++ [PrintedTable "Anteprima Modifiche" rows]
         /\ Forall2 (fun pair row =>
                       exists st_size,
                         fs_stat_size (fs (state p)) pair.1 = inr st_size
                         /\ row = (path_name pair.1, pair.2, format_size st_size))
                    (zip files new_names) rows)
      \/ (exists e pair,
            snd run = Raised (Caught e)
            /\ stdout (fst run) = stdout p
            /\ pair ∈ zip files new_names
            /\ fs_stat_size (fs (state p)) pair.1 = inl e)).
Proof.
  unfold preview_changes, pbind, lift, emit.
  destruct (preview_table_rows_shape (zip files new_names) [] (state p))
    as [Hfst [(rows & Hsnd & Hall)|(e & pair & Hsnd & Hin & He)]];
    rewrite Hfst, Hsnd; simpl.
  - repeat split. left. by exists rows.
  - repeat split. right. by exists e, pair.
Qed.

Lemma preview_plain_rows_cons (o : Path) (n : string) (pairs : list (Path * string))
    (p : Process) :
  preview_plain_rows ((o, n) :: pairs) p
  = match fs_stat_size (fs (state p)) o with
    | inl e => (mkProcess (state p) (stdin p) (stdout p), Raised (Caught e))
    | inr st_size =>
        preview_plain_rows pairs
          (mkProcess (state p) (stdin p)
             (stdout p ++ [Printed (ljust 30 (path_name o) +:+ " → " +:+ ljust 30 n
                                    +:+ " (" +:+ format_size st_size +:+ ")")]))
    end.
Proof.
  simpl. unfold pbind at 1, lift, path_stat_size. simpl.
  destruct (fs_stat_size (fs (state p)) o); [done |].
  unfold pbind, print, emit. simpl. done.
Qed.

Lemma preview_plain_rows_shape (pairs : list (Path * string)) (p : Process) :
  exists lines,
    state (fst (preview_plain_rows pairs p)) = state p
    /\ stdin (fst (preview_plain_rows pairs p)) = stdin p
    /\ stdout (fst (preview_plain_rows pairs p)) = stdout p ++ map Printed lines
    /\ ((snd (preview_plain_rows pairs p) = Value tt /\ length lines = length pairs)
        \/ (exists e pair,
              snd (preview_plain_rows pairs p) = Raised (Caught e)
              /\ pairs !! length lines = Some pair
              /\ fs_stat_size (fs (state p)) pair.1 = inl e)).
Proof.
  revert p. induction pairs as [|[o n] pairs IH]; intros p.
  - exists []. simpl. rewrite app_nil_r. repeat split. by left.
  - rewrite preview_plain_rows_cons.
    destruct (fs_stat_size (fs (state p)) o) as [e|st_size] eqn:Hstat.
    + exists []. simpl. rewrite app_nil_r. repeat split. right. by exists e, (o, n).
    + match goal with |- context [preview_plain_rows pairs ?q] =>
        destruct (IH q) as (lines & Hstate & Hin & Hout & Hres) end.
      simpl in Hstate, Hin, Hout, Hres.
      eexists (_ :: lines). rewrite Hstate, Hin, Hout. simpl.
      rewrite <- app_assoc. repeat split.
      destruct Hres as [[Hv Hlen]|(e & pair & Hr & Hat & He)].
      * left. split; [done | by rewrite Hlen].
      * right. by exists e, pair.
Qed.

(** X25: without [rich] the preview prints as it goes.  The two heading
    lines are printed in any case, then one line per pair; when the size
    of an original cannot be read the exception is passed on after the
    lines of the pairs before it have been printed. *)
Theorem preview_changes_plain_prints_as_it_goes
    (files : list Path) (new_names : list string) (p : Process) :
  let run := preview_changes false files new_names p in
  exists lines,
    state (fst run) = state p /\ stdin (fst run) = stdin p
    /\ stdout (fst run)
       = stdout p ++ [Printed (newline +:+ "📋 ANTEPRIMA MODIFICHE:");
                      Printed (String.concat "" (replicate 60 "-"))]
         ++ map Printed lines
    /\ ((snd run = Value tt /\ length lines = length (zip files new_names))
        \/ (exists e pair,
              snd run = Raised (Caught e)
              /\ zip files new_names !! length lines = Some pair
              /\ fs_stat_size (fs (state p)) pair.1 = inl e)).
Proof.
  assert (preview_changes false files new_names p
          = preview_plain_rows (zip files new_names)
              (mkProcess (state p) (stdin p)
                 (stdout p ++ [Printed (newline +:+ "📋 ANTEPRIMA MODIFICHE:");
                               Printed (String.concat "" (replicate 60 "-"))]))) as ->.
  { unfold preview_changes, pbind, print, emit. simpl. by rewrite <- app_assoc. }
  match goal with |- context [preview_plain_rows _ ?q] =>
    destruct (preview_plain_rows_shape (zip files new_names) q)
      as (lines & Hstate & Hin & Hout & Hres) end.
  simpl in Hstate, Hin, Hout, Hres. simpl.
  exists lines. rewrite Hstate, Hin, Hout, <- !app_assoc. by repeat split.
Qed.

End CommandLineProps.


(** ** The properties at work on the sample disk *)

Lemma rename_sequential_numbers_in_order_witness :
  [a_txt; b_txt] !! 1 = Some b_txt
  /\ rename_sequential [a_txt; b_txt] "doc" 1 !! 1 = Some "doc_002.txt".
Proof.
  split; [reflexivity |].
  apply (proj2 (@rename_sequential_numbers_in_order Posix.posix [a_txt; b_txt] "doc" 1) 1 b_txt).
  reflexivity.
Defined.

Lemma rename_sequential_distinct_witness :
  NoDup (rename_sequential [a_txt; b_txt] "doc" 1).
Proof.
  apply (@rename_sequential_proposes_distinct_names Posix.posix).
  constructor; [right; eexists; reflexivity |].
  constructor; [right; eexists; reflexivity |].
  constructor.
Defined.

Lemma case_transform_changes_case_only_witness :
  isascii "aB c" = true
  /\ "upper" <> "camel"
  /\ String.length (case_transform "upper" "aB c") = 4
  /\ Str.lower (case_transform "upper" "aB c") = "ab c"
  /\ case_transform "upper" (case_transform "upper" "aB c") = "AB C".
Proof.
  split; [reflexivity |]. split; [discriminate |].
  apply (case_transform_changes_case_only "upper" "aB c"); [reflexivity | discriminate].
Defined.

Lemma camel_removes_separators_witness :
  isascii "my_file-NAME  x" = true
  /\ isascii (case_transform "camel" "my_file-NAME  x") = true
  /\ Str.no_sep (case_transform "camel" "my_file-NAME  x") = true
  /\ String.length (case_transform "camel" "my_file-NAME  x") + 4 = 15
  /\ case_transform "camel"
       (case_transform "camel" (case_transform "camel" "my_file-NAME  x"))
     = "myfilenamex".
Proof.
  split; [reflexivity |].
  apply (camel_removes_exactly_the_separators "my_file-NAME  x"). reflexivity.
Defined.

Lemma unknown_mode_keeps_names_witness :
  rename_case_transform [a_txt; b_txt] "snake" = ["a.txt"; "b.txt"].
Proof.
  apply (@rename_case_transform_unknown_mode_keeps_names Posix.posix [a_txt; b_txt] "snake");
    try discriminate.
  constructor; [reflexivity |]. constructor; [reflexivity |]. constructor.
Defined.

Lemma execute_rename_in_two_batches_witness :
  length [a_txt] = length ["c.txt"]
  /\ exists s1 ok1 s2 ok2,
       execute_rename real_run [a_txt] ["c.txt"] (boot frozen) = (s1, inr ok1)
       /\ execute_rename real_run [b_txt] ["e.txt"] s1 = (s2, inr ok2)
       /\ execute_rename real_run ([a_txt] ++ [b_txt]) (["c.txt"] ++ ["e.txt"]) (boot frozen)
          = (s2, inr (ok1 && ok2)).
Proof.
  split; [reflexivity |].
  apply (@execute_rename_in_two_batches Posix.posix real_run [a_txt] [b_txt]
           ["c.txt"] ["e.txt"] (boot frozen)).
  reflexivity.
Defined.

Lemma execute_rename_fewer_names_witness :
  length ["c.txt"] < length [a_txt; b_txt]
  /\ snd (execute_rename real_run [a_txt; b_txt] ["c.txt"] (boot frozen)) = inr false.
Proof.
  split; [simpl; lia |].
  apply (@execute_rename_fewer_names_fails Posix.posix). simpl. lia.
Defined.

Lemma save_supported_format_witness :
  let s := set_operations_log [one_record] (boot frozen) in
  operations_log s <> []
  /\ operations_log (fst (save_operations_log "csv" s)) = operations_log s.
Proof.
  split; [discriminate |].
  apply (@save_operations_log_supported_format Posix.posix "csv"
           (set_operations_log [one_record] (boot frozen))).
  - discriminate.
  - right. reflexivity.
Defined.

Lemma worker_never_writes_witness :
  operations_log (boot frozen) = []
  /\ exists s' issued,
       execute_rename_thread (window false real_run) (boot frozen) = (s', inr tt)
       /\ calls s' = calls (boot frozen) ++ issued
       /\ Forall (fun c => ~ is_write c) issued
       /\ operations_log s' = [].
Proof.
  split; [reflexivity |].
  apply (@worker_never_writes_an_operations_log Posix.posix). reflexivity.
Defined.

Lemma worker_dry_run_witness :
  dry_run (renamer (window false dry)) = true
  /\ fs (fst (execute_rename_thread (window false dry) (boot frozen))) = fs (boot frozen)
  /\ calls (fst (execute_rename_thread (window false dry) (boot frozen)))
     = calls (boot frozen).
Proof.
  split; [reflexivity |].
  apply (@execute_rename_thread_dry_run Posix.posix); reflexivity.
Defined.

Lemma worker_stats_witness :
  let gui := window false real_run in
  let run := execute_rename_thread_loop gui
               (zip (files_to_process gui) (new_names gui)) 0 0 (boot frozen) in
  snd run = inr (1, 1)
  /\ worker_stats gui (1, 1) = ("2", "0", "1").
Proof.
  split; [reflexivity |].
  refine (proj1 (proj2 (@worker_stats_understate_successes Posix.posix
            (window false real_run) (boot frozen)
            (fst (execute_rename_thread_loop (window false real_run)
                    (zip (files_to_process (window false real_run))
                         (new_names (window false real_run))) 0 0 (boot frozen)))
            (1, 1) _ _))); reflexivity.
Defined.

Lemma preview_status_agrees_witness :
  preview_status disk a_txt "c.txt" = "OK"
  /\ collision disk a_txt "c.txt" = false.
Proof.
  split; [reflexivity |].
  apply (proj1 (@preview_status_agrees_with_collision Posix.posix disk a_txt "c.txt")).
  reflexivity.
Defined.

Lemma main_dry_run_witness :
  arg_dry_run (sequential_args true) = true
  /\ extends_quietly (state (launch ["y"]))
       (state (fst (main true (sequential_args true) (launch ["y"]))))
  /\ stdin (fst (main true (sequential_args true) (launch ["y"]))) = ["y"].
Proof.
  split; [reflexivity |].
  destruct (@main_dry_run_is_quiet Posix.posix PosixRuntime.posix_runtime
              true (sequential_args true) eq_refl (launch ["y"]) _ _
              (surjective_pairing _)) as (Hquiet & Hin & _).
  split; [exact Hquiet | exact Hin].
Defined.

Lemma main_without_confirmation_witness :
  arg_dry_run (sequential_args false) = false
  /\ declined (stdin (launch ["no"]))
  /\ extends_quietly (state (launch ["no"]))
       (state (fst (main false (sequential_args false) (launch ["no"]))))
  /\ forall a, snd (main false (sequential_args false) (launch ["no"])) <> Value a.
Proof.
  assert (declined (stdin (launch ["no"]))) as Hdeclined.
  { apply (bool_decide_unpack _). reflexivity. }
  split; [reflexivity |]. split; [exact Hdeclined |].
  apply (@main_without_confirmation_renames_nothing Posix.posix PosixRuntime.posix_runtime
           false (sequential_args false) eq_refl (launch ["no"]) _ _
           (surjective_pairing _) Hdeclined).
Defined.

Lemma main_regex_needs_replacement_witness :
  truthy (arg_regex regex_only_args) = true
  /\ truthy (arg_replacement regex_only_args) = false
  /\ exit_status (snd (main false regex_only_args (launch ["y"]))) = 1%Z
  /\ stdin (fst (main false regex_only_args (launch ["y"]))) = ["y"].
Proof.
  split; [reflexivity |]. split; [reflexivity |].
  destruct (@main_regex_needs_replacement Posix.posix PosixRuntime.posix_runtime
              false regex_only_args (launch ["y"]) eq_refl eq_refl)
    as (_ & Hstatus & Hin & _).
  split; [exact Hstatus | exact Hin].
Defined.

Example main_without_strategy_run :
  snd (main false empty_strategy_args (launch ["y"])) = Exited 1
  /\ stdout (fst (main false empty_strategy_args (launch ["y"])))
     = [Printed ("❌ Errore: cannot access local variable 'new_names' "
                 +:+ "where it is not associated with a value")]
  /\ stdin (fst (main false empty_strategy_args (launch ["y"]))) = ["y"].
Proof. repeat split; by vm_compute. Qed.

Lemma main_without_strategy_witness :
  truthy (arg_sequential empty_strategy_args) = false
  /\ stdin (fst (main false empty_strategy_args (launch ["y"]))) = ["y"]
  /\ forall a, snd (main false empty_strategy_args (launch ["y"])) <> Value a.
Proof.
  split; [reflexivity |].
  destruct (@main_without_strategy_fails Posix.posix PosixRuntime.posix_runtime
              false empty_strategy_args (launch ["y"]) eq_refl eq_refl eq_refl eq_refl)
    as (Hin & _ & Hnever & _).
  split; [exact Hin | exact Hnever].
Defined.


(** ** The worker of the window and the executor of the command line *)

Section TwoExecutors.
Context `{Platform}.

Lemma two_steps_agree (gui : FileRenamerGUI) (self : FileRenamer)
    (original_file : Path) (new_name : string) (s t : State) :
  backup_var gui = false ->
  dry_run (renamer gui) = dry_run self ->
  fs s = fs t ->
  exists s' t' ok issued,
    execute_rename_thread_step gui original_file new_name s = (s', inr ok)
    /\ execute_rename_step self original_file new_name t = (t', inr ok)
    /\ fs s' = fs t'
    /\ calls s' = calls s ++ issued
    /\ calls t' = calls t ++ issued.
Proof.
  intros Hbackup Hdry Hfs. destruct s, t. simpl in Hfs. subst.
  unfold execute_rename_thread_step, execute_rename_step, try_except, bind, path_exists,
    log_message, logging_log, datetime_now, operations_log_append, path_rename, request, ret.
  simpl. rewrite Hbackup, Hdry.
  destruct (fs_exists _ _ && negb (bool_decide _)); simpl.
  { do 2 eexists. exists false, []. rewrite !app_nil_r. by repeat split. }
  destruct (dry_run self); simpl.
  { do 2 eexists. exists true, []. rewrite !app_nil_r. by repeat split. }
  destruct (fs_rename _ original_file _) as [e|f]; simpl.
  - do 2 eexists. exists false. eexists. by repeat split.
  - do 2 eexists. exists true. eexists. by repeat split.
Qed.

Lemma two_loops_agree (gui : FileRenamerGUI) (self : FileRenamer)
    (pairs : list (Path * string)) (success_count error_count counted : nat)
    (s t : State) :
  backup_var gui = false ->
  dry_run (renamer gui) = dry_run self ->
  fs s = fs t ->
  exists s' t' k issued,
    execute_rename_thread_loop gui pairs success_count error_count s
    = (s', inr (success_count + k, error_count + (length pairs - k)))
    /\ execute_rename_loop self pairs counted t = (t', inr (counted + k))
    /\ k <= length pairs
    /\ fs s' = fs t'
    /\ calls s' = calls s ++ issued
    /\ calls t' = calls t ++ issued.
Proof.
  intros Hbackup Hdry. revert success_count error_count counted s t.
  induction pairs as [|[o n] pairs IH]; intros sc ec c s t Hfs; simpl.
  - exists s, t, 0, []. rewrite !app_nil_r, !Nat.add_0_r. by repeat split.
  - destruct (two_steps_agree gui self o n s t Hbackup Hdry Hfs)
      as (s1 & t1 & ok & issued1 & Hg & Hc & Hfs1 & Hcs & Hct).
    unfold bind. rewrite Hg, Hc.
    destruct ok.
    + destruct (IH (S sc) ec (S c) s1 t1 Hfs1)
        as (s' & t' & k & issued2 & Hg2 & Hc2 & Hk & Hfs2 & Hcs2 & Hct2).
      exists s', t', (S k), (issued1 ++ issued2). rewrite Hg2, Hc2.
      repeat split.
      * do 3 f_equal; lia.
      * do 2 f_equal; lia.
      * lia.
      * done.
      * by rewrite Hcs2, Hcs, app_assoc.
      * by rewrite Hct2, Hct, app_assoc.
    + destruct (IH sc (S ec) c s1 t1 Hfs1)
        as (s' & t' & k & issued2 & Hg2 & Hc2 & Hk & Hfs2 & Hcs2 & Hct2).
      exists s', t', k, (issued1 ++ issued2). rewrite Hg2, Hc2.
      repeat split.
      * do 3 f_equal; lia.
      * lia.
      * done.
      * by rewrite Hcs2, Hcs, app_assoc.
      * by rewrite Hct2, Hct, app_assoc.
Qed.

(** X26: the two executors agree.  With the backup option off and the
    same dry-run flag, the loop of the window's worker and the loop of
    [FileRenamer.execute_rename], started on the same file system with the
    same pairs, issue the same requests, leave the same file system and
    count the same number of successes; the worker counts every other
    pair as an error. *)
Theorem worker_and_executor_agree (gui : FileRenamerGUI) (self : FileRenamer)
    (pairs : list (Path * string)) (s t : State) :
  backup_var gui = false ->
  dry_run (renamer gui) = dry_run self ->
  fs s = fs t ->
  exists s' t' success_count issued,
    execute_rename_thread_loop gui pairs 0 0 s
    = (s', inr (success_count, length pairs - success_count))
    /\ execute_rename_loop self pairs 0 t = (t', inr success_count)
    /\ success_count <= length pairs
    /\ fs s' = fs t'
    /\ calls s' = calls s ++ issued
    /\ calls t' = calls t ++ issued.
Proof.
  intros Hbackup Hdry Hfs.
  destruct (two_loops_agree gui self pairs 0 0 0 s t Hbackup Hdry Hfs)
    as (s' & t' & k & issued & Hg & Hc & Hk & Hrest).
  by exists s', t', k, issued.
Qed.

(** X28: without the backup option the worker of the GUI never renames
    a file onto a path that exists at that moment and is not the file
    itself: every request its loop issues is a safe one, as for
    [FileRenamer.execute_rename]. *)
Theorem worker_without_backup_issues_safe_requests (gui : FileRenamerGUI)
    (pairs : list (Path * string)) (s : State) :
  backup_var gui = false ->
  exists issued,
    calls (fst (execute_rename_thread_loop gui pairs 0 0 s)) = calls s ++ issued
    /\ Forall safe_request issued.
Proof.
  intros Hbackup.
  destruct (two_loops_agree gui (renamer gui) pairs 0 0 0 s s Hbackup eq_refl eq_refl)
    as (s' & t' & k & issued & Hg & Hc & _ & _ & Hcs & Hct).
  destruct (execute_rename_loop_summary (renamer gui) pairs 0 s)
    as (t'' & new & issued' & Hc' & _ & Hct' & _ & Hsafe & _).
  rewrite Hc in Hc'. injection Hc' as -> _.
  rewrite Hct in Hct'. apply app_inv_head in Hct' as ->.
  exists issued'. rewrite Hg. by split.
Qed.

End TwoExecutors.

Lemma worker_without_backup_witness :
  backup_var (window false real_run) = false
  /\ exists issued,
       calls (fst (execute_rename_thread_loop (window false real_run)
                     [(a_txt, "backup/a.txt"); (b_txt, "c.txt")] 0 0 (boot frozen)))
       = calls (boot frozen) ++ issued
       /\ Forall safe_request issued.
Proof.
  split; [reflexivity |].
  apply (@worker_without_backup_issues_safe_requests Posix.posix (window false real_run)).
  reflexivity.
Defined.

Lemma worker_and_executor_agree_witness :
  backup_var (window false real_run) = false
  /\ exists s' t' success_count issued,
       execute_rename_thread_loop (window false real_run)
         [(a_txt, "b.txt"); (b_txt, "c.txt")] 0 0 (boot frozen)
       = (s', inr (success_count, 2 - success_count))
       /\ execute_rename_loop real_run [(a_txt, "b.txt"); (b_txt, "c.txt")] 0 (boot ticking)
          = (t', inr success_count)
       /\ success_count <= 2
       /\ fs s' = fs t'
       /\ calls s' = calls (boot frozen) ++ issued
       /\ calls t' = calls (boot ticking) ++ issued.
Proof.
  split; [reflexivity |].
  apply (@worker_and_executor_agree Posix.posix (window false real_run) real_run
           [(a_txt, "b.txt"); (b_txt, "c.txt")] (boot frozen) (boot ticking));
    reflexivity.
Defined.
